(** * Image Classifier Project: a shallow embedding of the notebook's code

    The notebook (src/image_classifier/Image Classifier Project.ipynb) is
    glue code around PIL, numpy and torch.  This development embeds the
    functions the notebook itself defines:

      - [ValueCache]      (cell 16)  running statistic of a metric
      - [accuracy_score]  (cell 15)  top-k accuracy of a batch
      - [save_checkpoint] (cell 18), [load_checkpoint] (cell 28)
      - [process_image]   (cell 31)  resize, crop and normalise
      - [predict]         (cell 37)  top-k prediction for an image file
      - [get_data]        (cell 4)   download of the data set

    Python floats are IEEE binary64 numbers; they are modelled by the
    Standard Library's [spec_float] with precision 53, whose operations
    round as the hardware does and compute inside Rocq.  What the external
    libraries do (decoding and resampling an image, the network's forward
    pass, the exponential, the order [topk] gives to equal scores, HTTP,
    tar) enters as a parameter of the function that calls it.

    The libraries are modelled as the versions behave that run the notebook
    today (torch 1.7 and later, Linux): where that differs from the torch
    0.4 the notebook was written with, the definition says so. *)

From Stdlib Require Import ZArith QArith Qpower Qround Lia Sorted Ascii String.
From Stdlib Require Import Floats.SpecFloat.
From stdpp Require Import base option list strings gmap.

Open Scope Z_scope.

(** ** Python exceptions and results *)

(** [OSError] stands for the subclasses of OSError other than
    FileNotFoundError (IsADirectoryError, NotADirectoryError,
    FileExistsError, the exceptions of requests); its message tells which.
    [UnpicklingError] is pickle's and [ReadError] is tarfile's. *)
Inductive PyErr : Type :=
  | ZeroDivisionError
  | OverflowError
  | AttributeError (name : string)
  | FileNotFoundError (msg : string)
  | OSError (msg : string)
  | ValueError (msg : string)
  | RuntimeError (msg : string)
  | IndexError (msg : string)
  | EOFError (msg : string)
  | UnpicklingError (msg : string)
  | ReadError (msg : string).

Inductive result (A : Type) : Type :=
  | Ok (a : A)
  | Raise (e : PyErr).
Arguments Ok {A} a.
Arguments Raise {A} e.

Definition bind {A B : Type} (r : result A) (k : A -> result B) : result B :=
  match r with
  | Ok a => k a
  | Raise e => Raise e
  end.

Notation "x <~ r ; k" := (bind r (fun x => k))
  (at level 100, r at next level, right associativity).

(** The exception of a missing file, among the exceptions. *)
Definition is_file_not_found (e : PyErr) : bool :=
  match e with
  | FileNotFoundError _ => true
  | _ => false
  end.

(** ** Python floats (IEEE binary64) *)

Module PyFloat.

Definition prec : Z := 53.
Definition emax : Z := 1024.

Definition float : Type := spec_float.

Definition add : float -> float -> float := SFadd prec emax.
Definition sub : float -> float -> float := SFsub prec emax.
Definition mul : float -> float -> float := SFmul prec emax.
Definition div : float -> float -> float := SFdiv prec emax.

(** The nearest binary64 number to an integer. *)
Definition of_Z (z : Z) : float := binary_normalize prec emax z 0 false.

Definition zero : float := S754_zero false.

(** [float(n)] for a Python int: integers that round to infinity raise
    OverflowError. *)
Definition of_int (n : Z) : result float :=
  match of_Z n with
  | S754_infinity _ => Raise OverflowError
  | f => Ok f
  end.

(** [x * n] for a float [x] and an int [n]. *)
Definition mul_int (x : float) (n : Z) : result float :=
  y <~ of_int n ; Ok (mul x y).

(** [x / n] for a float [x] and an int [n].  CPython converts [n] and
    raises ZeroDivisionError when the converted divisor is 0.0, which is
    the case for the integer 0 only. *)
Definition div_int (x : float) (n : Z) : result float :=
  if n =? 0 then Raise ZeroDivisionError
  else y <~ of_int n ; Ok (div x y).

(** [a / b] for two ints (true division, as [from __future__ import
    division] asks for).  Within 2^53 the correctly rounded quotient of the
    integers is the quotient of the converted floats. *)
Definition int_div_int (a b : Z) : result float :=
  if b =? 0 then Raise ZeroDivisionError
  else x <~ of_int a ; y <~ of_int b ; Ok (div x y).

(** [int(x)]: truncation towards zero. *)
Definition to_int (x : float) : result Z :=
  match x with
  | S754_zero _ => Ok 0
  | S754_finite s m e =>
      let a := if 0 <=? e then Z.pos m * 2 ^ e else Z.pos m / 2 ^ (- e) in
      Ok (if s then - a else a)
  | S754_infinity _ => Raise OverflowError
  | S754_nan => Raise (ValueError "cannot convert float NaN to integer")
  end.

End PyFloat.

(** ** ValueCache (cell 16) *)

Module ValueCache.

(** The four attributes, with the types the notebook's calls give them:
    [losses.update(loss.item(), images.size(0))] passes a float and an
    int. *)
Record t : Type := mk {
  value : PyFloat.float;
  sum : PyFloat.float;
  count : Z;
  mean : PyFloat.float
}.

Definition reset (self : t) : t :=
  {| value := PyFloat.zero;
     sum := PyFloat.zero;
     count := 0;
     mean := PyFloat.zero |}.

(** [__init__] only calls [reset], which reads no attribute. *)
Definition init : t := reset (mk PyFloat.zero PyFloat.zero 0 PyFloat.zero).

(** [update] assigns attribute after attribute; an exception leaves the
    attributes assigned so far.  The pair is the object after the call and
    the call's outcome. *)
Definition update (self : t) (v : PyFloat.float) (n : Z) : t * result unit :=
  let self1 := mk v (sum self) (count self) (mean self) in
  match PyFloat.mul_int v n with
  | Raise e => (self1, Raise e)
  | Ok p =>
      let self2 := mk v (PyFloat.add (sum self1) p) (count self1) (mean self1) in
      let self3 := mk v (sum self2) (count self2 + n) (mean self2) in
      match PyFloat.div_int (sum self3) (count self3) with
      | Raise e => (self3, Raise e)
      | Ok m => (mk v (sum self3) (count self3) m, Ok tt)
      end
  end.

(** Reading [cache.mean] is an attribute read. *)
Definition read_mean (self : t) : result PyFloat.float := Ok (mean self).

End ValueCache.

(** ** Tensor values and their rounding

    The scores of a network are finite floats, hence rationals, and the
    selection of the highest scores only compares them: scores are modelled
    in [Q].  Where the code computes with floats of a tensor, the result is
    the rounding of the exact result; the two roundings (binary32 for a
    FloatTensor, binary64 for a Python float) are parameters. *)

Class Rounding : Type := {
  round32 : Q -> Q;
  round64 : Q -> Q
}.

(** What the proofs use of round-to-nearest: it is monotone and keeps 0. *)
Class RoundingLaws (R : Rounding) : Prop := {
  round32_mono : forall x y : Q, (x <= y)%Q -> (round32 x <= round32 y)%Q;
  round64_mono : forall x y : Q, (x <= y)%Q -> (round64 x <= round64 y)%Q;
  round32_zero : (round32 0 == 0)%Q;
  round64_zero : (round64 0 == 0)%Q
}.

(** Exact arithmetic is the rounding that changes nothing. *)
Definition exact_rounding : Rounding :=
  {| round32 := fun q => q; round64 := fun q => q |}.

Class Exact (R : Rounding) : Prop := {
  round32_exact : forall x : Q, (round32 x == x)%Q;
  round64_exact : forall x : Q, (round64 x == x)%Q
}.



(** A 2-D tensor of scores: [cols] is [size(1)], [length rows] is
    [size(0)]. *)
Record Tensor2 : Type := mkTensor2 {
  cols : nat;
  rows : list (list Q)
}.

Definition well_shaped (t : Tensor2) : Prop :=
  Forall (fun r => length r = cols t) (rows t).

(** *** topk

    [torch.topk(k, largest=True, sorted=True)] returns the [k] largest
    entries in descending order with their indices: the first [k] entries
    of the row sorted by descending score.  Which of several equal scores
    comes first is not specified by torch and depends on its version: the
    sorted row is a parameter, of which only what torch promises is known:
    it holds every entry once, with its index, and no score is below the
    scores after it. *)

(** The order of the result: a score is not below the scores after it. *)
Definition score_ge (p q : nat * Q) : Prop := (snd q <= snd p)%Q.

Class TopK : Type := {
  argsort_desc : list Q -> list (nat * Q)
}.

Class TopKLaws (K : TopK) : Prop := {
  argsort_desc_perm : forall row : list Q,
    argsort_desc row ≡ₚ zip (seq 0 (length row)) row;
  argsort_desc_sorted : forall row : list Q,
    StronglySorted score_ge (argsort_desc row)
}.

(** One such order, for the examples: among equal scores the lower index
    comes first. *)
Fixpoint insert_desc (p : nat * Q) (l : list (nat * Q)) : list (nat * Q) :=
  match l with
  | [] => [p]
  | q :: l' =>
      if Qle_bool (snd q) (snd p) then p :: q :: l'
      else q :: insert_desc p l'
  end.

Definition lower_index_first : TopK :=
  {| argsort_desc := fun row => foldr insert_desc [] (zip (seq 0 (length row)) row) |}.

(** The pairs (index, value) of the [k] largest entries of one row. *)
Definition topk_row {K : TopK} (k : nat) (row : list Q) : list (nat * Q) :=
  take k (argsort_desc row).

Definition topk_msg : string := "selected index k out of range".

(** [t.topk(k, 1, True, True)] on a 2-D tensor: [k] must be within the
    size of dimension 1. *)
Definition topk {K : TopK} (t : Tensor2) (k : Z) : result (list (list (nat * Q))) :=
  if (k <? 0) || (Z.of_nat (cols t) <? k) then Raise (RuntimeError topk_msg)
  else Ok (map (topk_row (Z.to_nat k)) (rows t)).

(** *** The list and tensor operations [accuracy_score] uses *)

(** [max(top_k)] of a tuple of ints. *)
Definition py_max (l : list Z) : result Z :=
  match l with
  | [] => Raise (ValueError "max() arg is an empty sequence")
  | x :: l' => Ok (foldl Z.max x l')
  end.

(** [m.transpose(0,1)] of a matrix with [n] columns. *)
Definition transpose {A : Type} (d : A) (n : nat) (m : list (list A)) : list (list A) :=
  map (fun j => map (fun row => nth j row d) m) (seq 0 n).

(** [target.view(1, -1).expand((r, c))]: the row of labels is repeated [r]
    times; its length must be [c], or 1 (it is then broadcast). *)
Definition expand (target : list Z) (r c : nat) : result (list (list Z)) :=
  if (length target =? c)%nat then Ok (replicate r target)
  else match target with
       | [x] => Ok (replicate r (replicate c x))
       | _ => Raise (RuntimeError "expanded size must match the existing size")
       end.

(** [a.eq(b)], element by element. *)
Definition tensor_eq (a b : list (list Z)) : list (list bool) :=
  zip_with (zip_with Z.eqb) a b.

(** [m[:k]], Python's slice: a negative [k] counts from the end. *)
Definition slice_to {A : Type} (k : Z) (m : list A) : list A :=
  if k <? 0 then take (length m - Z.to_nat (- k)) m
  else take (Z.to_nat k) m.

(** The number of rows of [m[:k]] for a matrix of [r] rows. *)
Definition slice_rows (k : Z) (r : nat) : nat :=
  if k <? 0 then (r - Z.to_nat (- k))%nat
  else Nat.min (Z.to_nat k) r.

Definition view_msg : string :=
  "view size is not compatible with input tensor's size and stride".

(** [c.view(-1)] for rows of [correct], each of [n] entries.  [correct] has
    the layout of [preds], and [preds] is the transpose of a contiguous
    tensor: the entries of one row are not adjacent in memory.  torch views
    such a tensor flat only when it has fewer than two rows or fewer than
    two columns; otherwise it raises.  (Up to torch 1.6 the comparison
    returned a contiguous tensor and the view succeeded.) *)
Definition view_flat {A : Type} (n : nat) (m : list (list A)) : result (list A) :=
  if (2 <=? length m)%nat && (2 <=? n)%nat then Raise (RuntimeError view_msg)
  else Ok (concat m).

(** [f.float().sum(0)]: the number of [True] entries. *)
Definition sum_true (f : list bool) : nat :=
  length (filter (fun b => b = true) f).

(** The number of [True] entries of a matrix. *)
Definition count_true (m : list (list bool)) : nat := sum_true (concat m).

(** [100.0 / n_batch], a Python float. *)
Definition percent_factor {R : Rounding} (n_batch : Z) : result Q :=
  if n_batch =? 0 then Raise ZeroDivisionError
  else Ok (round64 (100 / inject_Z n_batch)).

(** [c.mul_(s)] for a FloatTensor holding the count [c] and a Python float
    [s]: the scalar is cast to the tensor's type and the product rounded. *)
Definition mul_ {R : Rounding} (c : nat) (s : Q) : Q :=
  round32 (inject_Z (Z.of_nat c) * round32 s).

Fixpoint for_each {A B : Type} (f : A -> result B) (l : list A) : result (list B) :=
  match l with
  | [] => Ok []
  | x :: l' => y <~ f x ; ys <~ for_each f l' ; Ok (y :: ys)
  end.

(** ** accuracy_score (cell 15) *)

Definition accuracy_score {R : Rounding} {K : TopK}
    (output : Tensor2) (target : list Z) (top_k : list Z) : result (list Q) :=
  max_k <~ py_max top_k ;
  let n_batch := Z.of_nat (length target) in
  tk <~ topk output max_k ;
  let preds := map (map (fun p => Z.of_nat (fst p))) tk in
  let preds := transpose 0 (Z.to_nat max_k) preds in
  tgt <~ expand target (Z.to_nat max_k) (length (rows output)) ;
  let correct := tensor_eq preds tgt in
  for_each (fun k =>
    flat <~ view_flat (length (rows output)) (slice_to k correct) ;
    let correct_k := sum_true flat in
    s <~ percent_factor n_batch ;
    Ok (mul_ correct_k s)) top_k.

(** *** What the accuracy is meant to be

    The claim's words, not the code's: the number of examples of the batch
    whose label is among the indices of the [k] highest scores of the
    example's own score vector. *)

Definition topk_indices {K : TopK} (k : nat) (row : list Q) : list Z :=
  map (fun p => Z.of_nat (fst p)) (topk_row k row).

Definition in_topk {K : TopK} (k : nat) (row : list Q) (label : Z) : bool :=
  bool_decide (label ∈ topk_indices k row).

Definition top_k_hits {K : TopK} (k : nat) (output : Tensor2) (target : list Z) : nat :=
  length (List.filter (fun ex => in_topk k (fst ex) (snd ex))
                      (zip (rows output) target)).

(** Small batches used below, none with two equal scores in a row: three
    examples over three classes with the labels 2, 0, 2; the first of them
    alone; and one example over two classes. *)
Definition example_output : Tensor2 :=
  mkTensor2 3 [[1 # 2; 3 # 1; 2 # 1]; [5 # 1; 1 # 1; 2 # 1]; [4 # 1; 1 # 1; 0 # 1]].


Definition single_output : Tensor2 := mkTensor2 3 [[1 # 2; 3 # 1; 2 # 1]].


(** The percentage the code computes from a count [c] and a batch size
    [n]: the product of [c] and [100.0 / n] in the tensor's floats. *)
Definition percentage {R : Rounding} (c n : nat) : Q :=
  mul_ c (round64 (100 / inject_Z (Z.of_nat n))).

(** What one example adds to row [j] of [correct], and to its first [k]
    rows: [p] is the example's row of predicted indices, [t] its label. *)
Definition match_at (j : nat) (p : list Z) (t : Z) : nat :=
  Nat.b2n (nth j p 0 =? t).

Definition match_within (k : nat) (p : list Z) (t : Z) : nat :=
  Nat.b2n (bool_decide (t ∈ take k p)).

(** ** torch: tensors, state dicts, optimizers, checkpoints *)

Record Tensor : Type := mkTensor {
  shape : list nat;
  data : list Q
}.

(** [state_dict()] is an OrderedDict from names to tensors. *)
Abbreviation StateDict := (list (string * Tensor)).

Fixpoint assoc {A : Type} (name : string) (l : list (string * A)) : option A :=
  match l with
  | [] => None
  | (n, a) :: l' => if String.eqb n name then Some a else assoc name l'
  end.

Record Hyper : Type := mkHyper {
  lr : Q;
  momentum : Q;
  dampening : Q;
  weight_decay : Q;
  nesterov : bool
}.

(** [optimizer.state_dict()]: the hyperparameters of the one parameter
    group, the number of parameters in it and the momentum buffers. *)
Record OptimizerState : Type := mkOptimizerState {
  os_hyper : Hyper;
  os_n_params : nat;
  os_buffers : list Tensor
}.

Record Optimizer : Type := mkOptimizer {
  hyper : Hyper;
  params : list string;
  buffers : list Tensor
}.

(** [optim.SGD(params, lr=.., momentum=.., weight_decay=.., nesterov=..)] *)
Definition SGD (ps : list string) (h : Hyper) : result Optimizer :=
  match ps with
  | [] => Raise (ValueError "optimizer got an empty parameter list")
  | _ => Ok (mkOptimizer h ps [])
  end.

Definition optimizer_state_dict (o : Optimizer) : OptimizerState :=
  mkOptimizerState (hyper o) (length (params o)) (buffers o).

Definition optimizer_load_state_dict (o : Optimizer) (s : OptimizerState)
    : result Optimizer :=
  if (length (params o) =? os_n_params s)%nat
  then Ok (mkOptimizer (os_hyper s) (params o) (os_buffers s))
  else Raise (ValueError "loaded state dict contains a parameter group that doesn't match the size of optimizer's group").

(** The dictionary [save_checkpoint] builds. *)
Record Checkpoint : Type := mkCheckpoint {
  ck_epoch : Z;
  ck_state_dict : StateDict;
  ck_optimizer_state_dict : OptimizerState;
  ck_best_acc : Q;
  ck_class_to_idx : list (string * Z);
  ck_n_classes : Z
}.

(** ** NewModel (cell 13) and the attributes the notebook attaches to it *)

Inductive Dtype : Type := Float32 | Float64.

Module Model.

(** The module's own state, and the attributes cell 22 assigns
    ([model.epoch], [model.best_acc], [model.optimizer_state],
    [model.class_to_idx], [model.n_classes]); an attribute that was never
    assigned is [None] and reading it raises AttributeError. *)
Record t : Type := mk {
  state : StateDict;
  trainable : list string;
  dtype : Dtype;
  device : string;
  training : bool;
  epoch : option Z;
  best_acc : option Q;
  optimizer_state : option OptimizerState;
  class_to_idx : option (list (string * Z));
  n_classes : option Z
}.

Definition set_state (m : t) (s : StateDict) : t :=
  mk s (trainable m) (dtype m) (device m) (training m)
     (epoch m) (best_acc m) (optimizer_state m) (class_to_idx m) (n_classes m).

(** [model.double()] *)
Definition double (m : t) : t :=
  mk (state m) (trainable m) Float64 (device m) (training m)
     (epoch m) (best_acc m) (optimizer_state m) (class_to_idx m) (n_classes m).

(** [model.to(d)] *)
Definition to (m : t) (d : string) : t :=
  mk (state m) (trainable m) (dtype m) d (training m)
     (epoch m) (best_acc m) (optimizer_state m) (class_to_idx m) (n_classes m).

(** [model.eval()] *)
Definition eval (m : t) : t :=
  mk (state m) (trainable m) (dtype m) (device m) false
     (epoch m) (best_acc m) (optimizer_state m) (class_to_idx m) (n_classes m).

(** [model.state_dict()] *)
Definition state_dict (m : t) : StateDict := state m.

(** [model.load_state_dict(sd)], strict: every tensor of the module is
    replaced by the tensor of the same name and shape, and [sd] holds no
    other name. *)
Definition load_state_dict (m : t) (sd : StateDict) : result t :=
  if forallb (fun e => bool_decide (fst e ∈ (state m).*1)) sd then
    s <~ for_each (fun e =>
           match assoc (fst e) sd with
           | Some x =>
               if bool_decide (shape x = shape (snd e)) then Ok (fst e, x)
               else Raise (RuntimeError "size mismatch")
           | None => Raise (RuntimeError "missing key in state_dict")
           end) (state m) ;
    Ok (set_state m s)
  else Raise (RuntimeError "unexpected key in state_dict").

End Model.

Definition getattr {A : Type} (name : string) (a : option A) : result A :=
  match a with
  | Some x => Ok x
  | None => Raise (AttributeError name)
  end.

(** An array as numpy holds it: [arr[i][j][k]]. *)
Abbreviation ndarray := (list (list (list PyFloat.float))).

(** What torch and torchvision provide: the weights [NewModel(n)] starts
    from (the pretrained network and a fresh classifier), the forward pass of
    a model on one image, the exponential, and the exception [torch.load]
    has for the bytes of a file that is no checkpoint
    (pickle.UnpicklingError as a rule, EOFError for an empty file).  The
    scores of the forward pass are finite. *)
Class Torch : Type := {
  initial_state : nat -> StateDict;
  forward : Model.t -> ndarray -> option (list Q);
  torch_exp : Q -> Q;
  load_error : list Z -> PyErr
}.

Class TorchLaws (T : Torch) : Prop := {
  torch_exp_pos : forall x : Q, (0 < torch_exp x)%Q
}.

(** The parameters of the classifier are the ones left trainable. *)
Definition classifier_parameters : list string :=
  ["classifier.fc0.weight"; "classifier.fc0.bias";
   "classifier.fc.weight"; "classifier.fc.bias"].

(** [NewModel(n_classes)]: a module in training mode on the cpu, with none
    of the notebook's attributes. *)
Definition NewModel {T : Torch} (n : nat) : Model.t :=
  Model.mk (initial_state n) classifier_parameters Float32 "cpu" true
           None None None None None.

(** ** The file system

    A case-sensitive file system without symbolic links, as seen from the
    working directory.  A path is the string the program writes: two
    spellings of one path ("a" and "./a") are two paths here, and the
    statements that depend on it ask for paths in normal form.

    A file holds a checkpoint that [torch.save] wrote, or bytes that are no
    checkpoint. *)

Inductive FileData : Type :=
  | Bytes (b : list Z)
  | Pickle (c : Checkpoint).

Inductive Node : Type :=
  | Dir
  | File (d : FileData).

Abbreviation FileSystem := (gmap string Node).

Definition os_path_exists (fs : FileSystem) (p : string) : bool :=
  match fs !! p with
  | Some _ => true
  | None => false
  end.

Definition os_path_isfile (fs : FileSystem) (p : string) : bool :=
  match fs !! p with
  | Some (File _) => true
  | _ => false
  end.

Definition os_path_isdir (fs : FileSystem) (p : string) : bool :=
  match fs !! p with
  | Some Dir => true
  | _ => false
  end.

(** [torch.save(obj, filename)] writes the file anew. *)
Definition torch_save (c : Checkpoint) (filename : string) (fs : FileSystem)
    : FileSystem * result unit :=
  match fs !! filename with
  | Some Dir => (fs, Raise (OSError "Is a directory"))
  | _ => (<[filename := File (Pickle c)]> fs, Ok tt)
  end.

(** [torch.load(filename, map_location='cpu')] *)
Definition torch_load {T : Torch} (fs : FileSystem) (filename : string)
    : result Checkpoint :=
  match fs !! filename with
  | Some (File (Pickle c)) => Ok c
  | Some (File (Bytes b)) => Raise (load_error b)
  | Some Dir => Raise (OSError "Is a directory")
  | None => Raise (FileNotFoundError filename)
  end.

(** The name of [p] inside the directory [dir], when [p] is directly in it. *)
Definition child_name (dir p : string) : option string :=
  let pre := (dir +:+ "/")%string in
  if String.prefix pre p then
    let name := String.substring (String.length pre) (String.length p - String.length pre) p in
    match name, String.index 0 "/" name with
    | EmptyString, _ => None
    | _, Some _ => None
    | _, None => Some name
    end
  else None.

(** [datasets.folder.find_classes(dir)[0]]: the subdirectories of [dir]. *)
Definition find_classes (fs : FileSystem) (dir : string) : result (list string) :=
  match fs !! dir with
  | Some Dir =>
      Ok (omap (fun e => match snd e with
                         | Dir => child_name dir (fst e)
                         | File _ => None
                         end) (map_to_list fs))
  | Some (File _) => Raise (OSError "Not a directory")
  | None => Raise (FileNotFoundError dir)
  end.

(** ** save_checkpoint (cell 18) *)

Definition save_checkpoint (model : Model.t) (filename : string) (fs : FileSystem)
    : FileSystem * result unit :=
  match
    (epoch <~ getattr "epoch" (Model.epoch model) ;
     let state_dict := Model.state_dict model in
     optimizer_state <~ getattr "optimizer_state" (Model.optimizer_state model) ;
     best_acc <~ getattr "best_acc" (Model.best_acc model) ;
     class_to_idx <~ getattr "class_to_idx" (Model.class_to_idx model) ;
     n_classes <~ getattr "n_classes" (Model.n_classes model) ;
     Ok (mkCheckpoint epoch state_dict optimizer_state best_acc class_to_idx n_classes))
  with
  | Raise e => (fs, Raise e)
  | Ok model_state => torch_save model_state filename fs
  end.

(** ** load_checkpoint (cell 28) *)

Definition sgd_hyper : Hyper := mkHyper (1 # 10) (8 # 10) 0 0 false.

(** [train_dir] is the notebook's global. *)
Definition load_checkpoint {T : Torch} (train_dir : string)
    (model : option Model.t) (filename : string) (fs : FileSystem)
    : result (Model.t * Optimizer) :=
  model <~ match model with
           | Some m => Ok m
           | None => classes <~ find_classes fs train_dir ;
                     Ok (NewModel (length classes))
           end ;
  model_state <~ torch_load fs filename ;
  model <~ Model.load_state_dict model (ck_state_dict model_state) ;
  optimizer <~ SGD (Model.trainable model) sgd_hyper ;
  optimizer <~ optimizer_load_state_dict optimizer (ck_optimizer_state_dict model_state) ;
  Ok (model, optimizer).

(** ** PIL images *)

Module Image.

(** [size] is (width, height); [pixel x y] holds the [bands] values
    (0..255) of the pixel in column [x] and row [y]. *)
Record t : Type := mk {
  size : Z * Z;
  bands : nat;
  pixel : Z -> Z -> list Z
}.

(** What PIL computes and the notebook does not: decoding a file and
    resampling an image to a new size. *)
Class Codec : Type := {
  decode : list Z -> option t;
  resample : t -> Z -> Z -> Z -> Z -> list Z
}.

(** [Image.open(path)] *)
Definition open {C : Codec} (fs : FileSystem) (path : string) : result t :=
  match fs !! path with
  | Some (File (Bytes b)) =>
      match decode b with
      | Some im => Ok im
      | None => Raise (OSError "cannot identify image file")
      end
  | Some (File (Pickle _)) => Raise (OSError "cannot identify image file")
  | Some Dir => Raise (OSError "Is a directory")
  | None => Raise (FileNotFoundError path)
  end.

(** [image.resize((w, h))] *)
Definition resize {C : Codec} (im : t) (w h : Z) : result t :=
  if (w <=? 0) || (h <=? 0)
  then Raise (ValueError "height and width must be > 0")
  else Ok (mk (w, h) (bands im) (resample im w h)).

(** [image.crop((left, upper, right, lower))]: the pixels of the box;
    outside of the image they are 0. *)
Definition crop (im : t) (left upper right lower : Z) : result t :=
  if (right <? left) || (lower <? upper)
  then Raise (ValueError "Coordinate 'right' is less than 'left'")
  else Ok (mk (right - left, lower - upper) (bands im)
             (fun x y =>
                let x' := x + left in
                let y' := y + upper in
                if (0 <=? x') && (x' <? fst (size im)) &&
                   (0 <=? y') && (y' <? snd (size im))
                then pixel im x' y'
                else replicate (bands im) 0)).

(** [np.array(image)]: rows, then columns, then bands. *)
Definition to_array (im : t) : list (list (list Z)) :=
  map (fun y => map (fun x => pixel im x y) (seqZ 0 (fst (size im))))
      (seqZ 0 (snd (size im))).

End Image.

(** ** process_image (cell 31) *)

(** A decimal literal with three digits, [0.485] say: the double nearest to
    485/1000. *)
Definition milli (n : Z) : PyFloat.float :=
  PyFloat.div (PyFloat.of_Z n) (PyFloat.of_Z 1000).

Definition mean : list PyFloat.float := [milli 485; milli 456; milli 406].
Definition std : list PyFloat.float := [milli 229; milli 224; milli 225].

(** The size [process_image] asks [resize] for:
    [scale = (out_size + 32) / np.min([w, h])], a numpy float64 (a zero
    divisor gives inf or nan, not an exception), then
    [(int(scale * w), int(scale * h))]. *)
Definition resized_size (w h out_size : Z) : result (Z * Z) :=
  let scale := PyFloat.div (PyFloat.of_Z (out_size + 32)) (PyFloat.of_Z (Z.min w h)) in
  rw <~ PyFloat.to_int (PyFloat.mul scale (PyFloat.of_Z w)) ;
  rh <~ PyFloat.to_int (PyFloat.mul scale (PyFloat.of_Z h)) ;
  Ok (rw, rh).

(** [int((n / 2) - (out_size / 2))] *)
Definition crop_offset (n out_size : Z) : result Z :=
  a <~ PyFloat.int_div_int n 2 ;
  b <~ PyFloat.int_div_int out_size 2 ;
  PyFloat.to_int (PyFloat.sub a b).

(** [(np.array(image) / 255 - mean) / std]: the last axis of the array must
    have the three entries of [mean] and [std].  The array of an image with
    another number of bands is rejected here by numpy's broadcasting, or,
    for a single band, by the transposition that follows: a ValueError in
    both cases. *)
Definition normalize (im : Image.t) : result ndarray :=
  if (Image.bands im =? 3)%nat then
    Ok (map (map (fun px =>
          zip_with (fun ms v => PyFloat.div (PyFloat.sub v (fst ms)) (snd ms))
                   (zip mean std)
                   (map (fun p => PyFloat.div (PyFloat.of_Z p) (PyFloat.of_Z 255)) px)))
          (Image.to_array im))
  else Raise (ValueError "operands could not be broadcast together").

(** [arr.transpose((2, 0, 1))] of an array with three entries on its last
    axis. *)
Definition transpose_201 (arr : ndarray) : ndarray :=
  map (fun c => map (map (fun px => nth c px PyFloat.zero)) arr) (seq 0 3).

Definition process_image {C : Image.Codec} (image : Image.t) (out_size : Z)
    : result ndarray :=
  let '(w, h) := Image.size image in
  sz <~ resized_size w h out_size ;
  image <~ Image.resize image (fst sz) (snd sz) ;
  left <~ crop_offset (fst (Image.size image)) out_size ;
  upper <~ crop_offset (snd (Image.size image)) out_size ;
  let right := left + out_size in
  let lower := upper + out_size in
  image <~ Image.crop image left upper right lower ;
  image <~ normalize image ;
  Ok (transpose_201 image).

(** ** predict (cell 37) *)

(** [k, v = zip(...)] on the unpacked items of the dictionary: the keys and
    the values, when there is at least one item. *)
Definition unzip_items (items : list (string * Z)) : result (list string * list Z) :=
  match items with
  | [] => Raise (ValueError "not enough values to unpack (expected 2, got 0)")
  | _ => Ok (items.*1, items.*2)
  end.

(** [dict(zip(v, k))]: a later pair replaces an earlier one with the same
    key. *)
Definition dict_zip (v : list Z) (k : list string) : gmap Z string :=
  foldl (fun d e => <[fst e := snd e]> d) ∅ (zip v k).


(** The largest entry of a list that starts with [x]. *)
Definition Qmax_list (x : Q) (xs : list Q) : Q :=
  foldl (fun a b => if Qle_bool a b then b else a) x xs.

(** The sum of floats, from left to right: every addition rounds. *)
Definition fsum {R : Rounding} (es : list Q) : Q :=
  match es with
  | [] => 0%Q
  | e :: es' => foldl (fun a b => round64 (a + b)%Q) e es'
  end.

(** [nn.Softmax] over the scores of one row, in the binary64 arithmetic
    that [model.double()] asks for: torch subtracts the largest score,
    exponentiates, sums and divides, and each of these operations rounds. *)
Definition softmax {R : Rounding} {T : Torch} (xs : list Q) : list Q :=
  match xs with
  | [] => []
  | x :: xs' =>
      let m := Qmax_list x xs' in
      let es := map (fun y => torch_exp (round64 (y - m))) xs in
      let total := fsum es in
      map (fun e => round64 (e / total)) es
  end.

(** [torch.topk(output, k)] for the output of one image, a 1 x C tensor:
    the values and the indices of the row. *)
Definition topk_output {K : TopK} (output : list Q) (k : Z) : result (list Q * list Z) :=
  tk <~ topk (mkTensor2 (length output) [output]) k ;
  match tk with
  | [row] => Ok (row.*2, map (fun p => Z.of_nat (fst p)) row)
  | _ => Raise (RuntimeError "unexpected shape")
  end.

(** The pair is the model after the call and the call's outcome: [predict]
    changes the model it is given ([double], [to], [eval]). *)
Definition predict {C : Image.Codec} {R : Rounding} {K : TopK} {T : Torch}
    (fs : FileSystem) (image_path : string) (model : Model.t) (topk : Z)
    : Model.t * result (list Q * list (option string) * ndarray) :=
  if negb (os_path_isfile fs image_path) then
    (model, Raise (FileNotFoundError (image_path +:+ " does not exist")))
  else
    match (im <~ Image.open fs image_path ; process_image im 299) with
    | Raise e => (model, Raise e)
    | Ok image =>
        let model := Model.double model in
        let model := Model.to model "cpu" in
        let model := Model.eval model in
        (model,
         output <~ match forward model image with
                   | Some o => Ok o
                   | None => Raise (RuntimeError "forward")
                   end ;
         tk <~ topk_output output topk ;
         let prob := fst tk in
         let label_idx := snd tk in
         items <~ getattr "class_to_idx" (Model.class_to_idx model) ;
         kv <~ unzip_items items ;
         let idx_to_class := dict_zip (snd kv) (fst kv) in
         let label_classes := map (fun i => idx_to_class !! i) label_idx in
         let prob := softmax prob in
         Ok (prob, label_classes, image))
    end.

(** The model as [predict] leaves it once the image is read. *)
Definition prepared (model : Model.t) : Model.t :=
  Model.eval (Model.to (Model.double model) "cpu").

(** ** download_file and get_data (cell 4) *)

(** The machine the notebook runs on: its files and the requests it has
    sent. *)
Record World : Type := mkWorld {
  files : FileSystem;
  requests : list string
}.

(** What [requests] and [tarfile] do.  A request fails (no connection, no
    such host) or is answered; the body of an answer arrives in chunks while
    it is read, and the stream can break before the last chunk.  Unpacking
    an archive below a directory changes the files and may fail; the files
    it leaves and its exception (a tarfile.ReadError for bytes that are no
    archive) are tarfile's. *)
Record Response : Type := mkResponse {
  length_is_int : bool;
  chunks : list (list Z);
  complete : bool
}.

Class Internet : Type := {
  http_get : string -> option Response;
  extractall : list Z -> string -> FileSystem -> FileSystem * result unit
}.

(** [os.path.split(url)[-1]]: what follows the last slash. *)
Fixpoint basename_from (acc : string) (s : string) : string :=
  match s with
  | EmptyString => acc
  | String c s' =>
      if Ascii.eqb c "/"%char then basename_from EmptyString s'
      else basename_from (acc +:+ String c EmptyString) s'
  end.

Definition basename (s : string) : string := basename_from EmptyString s.

(** A name without a slash. *)
Fixpoint no_slash (s : string) : bool :=
  match s with
  | EmptyString => true
  | String c s' => negb (Ascii.eqb c "/"%char) && no_slash s'
  end.

(** [os.path.join(a, b)] for a relative [b]. *)
Definition path_join (a b : string) : string :=
  match a with
  | EmptyString => b
  | _ => if String.prefix "/" (String.substring (String.length a - 1) 1 a)
         then (a +:+ b)%string else (a +:+ "/" +:+ b)%string
  end.

(** The components of a path, and the paths written in normal form: a
    relative path none of whose components is empty, "." or "..". *)
Fixpoint components_from (acc : string) (s : string) : list string :=
  match s with
  | EmptyString => [acc]
  | String c s' =>
      if Ascii.eqb c "/"%char then acc :: components_from EmptyString s'
      else components_from (acc +:+ String c EmptyString) s'
  end.

Definition components (p : string) : list string := components_from EmptyString p.

Definition normal_path (p : string) : bool :=
  forallb (fun c => negb (String.eqb c "" || String.eqb c "." || String.eqb c ".."))
          (components p).

(** The directories above a path, outermost first: what is written before
    each of its slashes. *)
Fixpoint parents_from (acc : string) (s : string) : list string :=
  match s with
  | EmptyString => []
  | String c s' =>
      if Ascii.eqb c "/"%char
      then match acc with
           | EmptyString => parents_from (acc +:+ "/") s'
           | _ => acc :: parents_from (acc +:+ "/") s'
           end
      else parents_from (acc +:+ String c EmptyString) s'
  end.

Definition parents (p : string) : list string := parents_from EmptyString p.

(** [os.makedirs(p)] for a path that does not exist: the missing
    directories above [p] are created, outermost first, then [p] itself.  A
    file in the place of a directory above [p] makes it raise
    NotADirectoryError. *)
Fixpoint make_parents (fs : FileSystem) (dirs : list string)
    : FileSystem * result unit :=
  match dirs with
  | [] => (fs, Ok tt)
  | d :: dirs' =>
      match fs !! d with
      | None => make_parents (<[d := Dir]> fs) dirs'
      | Some Dir => make_parents fs dirs'
      | Some (File _) => (fs, Raise (OSError "Not a directory"))
      end
  end.

Definition makedirs (fs : FileSystem) (p : string) : FileSystem * result unit :=
  match make_parents fs (parents p) with
  | (fs', Ok _) =>
      match fs' !! p with
      | None => (<[p := Dir]> fs', Ok tt)
      | Some _ => (fs', Raise (OSError "File exists"))
      end
  | (fs', Raise e) => (fs', Raise e)
  end.

(** What stands in the way of a file below the directories [dirs]: a
    missing directory, or a file in the place of one. *)
Fixpoint obstacle (fs : FileSystem) (fn : string) (dirs : list string) : option PyErr :=
  match dirs with
  | [] => None
  | d :: dirs' =>
      match fs !! d with
      | Some Dir => obstacle fs fn dirs'
      | Some (File _) => Some (OSError "Not a directory")
      | None => Some (FileNotFoundError fn)
      end
  end.

Definition ends_with_slash (p : string) : bool :=
  String.prefix "/" (String.substring (String.length p - 1) 1 p).

(** [open(fn, 'wb')]: the directories above [fn] must exist; a name that is
    empty is not found, a name that ends with a slash or is the name of a
    directory is refused; otherwise the file is created, or emptied. *)
Definition open_wb (fs : FileSystem) (fn : string) : FileSystem * result unit :=
  let p := if ends_with_slash fn
           then String.substring 0 (String.length fn - 1) fn else fn in
  match p with
  | EmptyString => (fs, Raise (FileNotFoundError fn))
  | _ =>
      match obstacle fs fn (parents p) with
      | Some e => (fs, Raise e)
      | None =>
          if ends_with_slash fn then (fs, Raise (OSError "Is a directory"))
          else match fs !! fn with
               | Some Dir => (fs, Raise (OSError "Is a directory"))
               | _ => (<[fn := File (Bytes [])]> fs, Ok tt)
               end
      end
  end.

(** [download_file] names the file after the notebook's global [data_dir],
    not after its own [dest_dir].  It sends the request, reads the length
    the answer announces, opens the file and then writes the chunks as they
    arrive: when the stream breaks, the chunks that arrived are in the
    file. *)
Definition download_file {I : Internet} (global_data_dir : string)
    (data_url : string) (dest_dir : string) (w : World) : World * result string :=
  let fn := path_join global_data_dir (basename data_url) in
  let w := mkWorld (files w) (requests w ++ [data_url]) in
  match http_get data_url with
  | None => (w, Raise (OSError "ConnectionError"))
  | Some r =>
      if negb (length_is_int r)
      then (w, Raise (ValueError "invalid literal for int() with base 10"))
      else
        match open_wb (files w) fn with
        | (fs, Raise e) => (mkWorld fs (requests w), Raise e)
        | (fs, Ok _) =>
            let fs := <[fn := File (Bytes (concat (chunks r)))]> fs in
            if complete r then (mkWorld fs (requests w), Ok fn)
            else (mkWorld fs (requests w), Raise (OSError "ChunkedEncodingError"))
        end
  end.

(** The directory [get_data] works in: [data_dir] as it is, or created with
    the directories above it. *)
Definition ensure_dir (fs : FileSystem) (data_dir : string) : FileSystem * result unit :=
  if negb (os_path_exists fs data_dir) then makedirs fs data_dir else (fs, Ok tt).

Definition get_data {I : Internet} (global_data_dir : string)
    (url : string) (data_dir : string) (train_dirname : string) (w : World)
    : World * result unit :=
  let train_dir := (data_dir +:+ train_dirname)%string in
  if os_path_exists (files w) train_dir then (w, Ok tt)
  else
    match ensure_dir (files w) data_dir with
    | (fs, Raise e) => (mkWorld fs (requests w), Raise e)
    | (fs, Ok _) =>
        match download_file global_data_dir url "./" (mkWorld fs (requests w)) with
        | (w, Raise e) => (w, Raise e)
        | (w, Ok fn) =>
            match files w !! fn with
            | Some (File (Bytes b)) =>
                match extractall b data_dir (files w) with
                | (fs', Raise e) => (mkWorld fs' (requests w), Raise e)
                | (fs', Ok _) =>
                    if os_path_isfile fs' fn
                    then (mkWorld (delete fn fs') (requests w), Ok tt)
                    else (mkWorld fs' (requests w), Ok tt)
                end
            | _ => (w, Raise (ReadError "file could not be opened successfully"))
            end
        end
    end.

(** ** A small instance, for the examples

    A raw image format (width, height, then the RGB bytes row by row) with
    nearest-neighbour resampling; a network whose scores are the bias of its
    last layer; powers of two for the exponential; a machine without
    network, and one whose every request is answered with three bytes in two
    chunks that unpack to a training directory. *)

Definition raw_decode (b : list Z) : option Image.t :=
  match b with
  | w :: h :: px =>
      if (0 <? w) && (0 <? h) && (Z.of_nat (length px) =? 3 * w * h)
      then Some (Image.mk (w, h) 3
                   (fun x y => map (fun c => nth (Z.to_nat (3 * (y * w + x) + c)) px 0)
                                   [0; 1; 2]))
      else None
  | _ => None
  end.

Definition nearest (im : Image.t) (w h x y : Z) : list Z :=
  Image.pixel im (x * fst (Image.size im) / w) (y * snd (Image.size im) / h).

Definition raw_codec : Image.Codec :=
  {| Image.decode := raw_decode; Image.resample := nearest |}.

Definition bias_network : Torch :=
  {| initial_state := fun n =>
       [("classifier.fc.weight", mkTensor [n; 1%nat] (replicate n 0%Q));
        ("classifier.fc.bias", mkTensor [n] (replicate n 0%Q))];
     forward := fun m _ =>
       match assoc "classifier.fc.bias" (Model.state m) with
       | Some t => Some (data t)
       | None => None
       end;
     torch_exp := fun x => (2 ^ Qfloor x)%Q;
     load_error := fun b =>
       match b with
       | [] => EOFError "Ran out of input"
       | _ => UnpicklingError "invalid load key"
       end |}.

Definition offline : Internet :=
  {| http_get := fun _ => None;
     extractall := fun _ _ fs => (fs, Raise (ReadError "file could not be opened successfully")) |}.

Definition online : Internet :=
  {| http_get := fun _ => Some (mkResponse true [[31; 139]; [8]] true);
     extractall := fun _ d fs => (<[(d +:+ "/train")%string := Dir]> fs, Ok tt) |}.

(** A connection that breaks after the first chunk. *)
Definition breaking : Internet :=
  {| http_get := fun _ => Some (mkResponse true [[31; 139]] false);
     extractall := fun _ _ fs => (fs, Raise (ReadError "file could not be opened successfully")) |}.

(** A 2 x 1 picture in the file "rose.raw", and a trained model over three
    classes whose mapping sends "74" to index 1 and "3" to index 0. *)
Definition example_files : FileSystem :=
  {[ "rose.raw" := File (Bytes [2; 1; 255; 0; 0; 0; 255; 0]);
     "flowers" := Dir;
     "flowers/train" := Dir;
     "flowers/train/3" := Dir;
     "flowers/train/74" := Dir;
     "flowers/train/9" := Dir ]}.

(** The picture the file "rose.raw" decodes to. *)
Definition rose_image : Image.t :=
  Image.mk (2, 1) 3
    (fun x y => map (fun c => nth (Z.to_nat (3 * (y * 2 + x) + c))
                                  [255; 0; 0; 0; 255; 0] 0)
                    [0; 1; 2]).

Definition example_state : StateDict :=
  [("classifier.fc.weight", mkTensor [3%nat; 1%nat] [1 # 2; 1 # 3; 1 # 4]);
   ("classifier.fc.bias", mkTensor [3%nat] [1 # 1; 3 # 1; 2 # 1])].

Definition example_model : Model.t :=
  Model.mk example_state classifier_parameters Float32 "cpu" true
    (Some 5) (Some (90 # 1))
    (Some (mkOptimizerState sgd_hyper 4 []))
    (Some [("3", 0); ("74", 1)]) (Some 3).

Definition set_class_to_idx (m : Model.t) (d : list (string * Z)) : Model.t :=
  Model.mk (Model.state m) (Model.trainable m) (Model.dtype m) (Model.device m)
    (Model.training m) (Model.epoch m) (Model.best_acc m)
    (Model.optimizer_state m) (Some d) (Model.n_classes m).

(** ** Runs of updates

    [train] and [validate] call [update] once per batch on the same cache;
    an exception ends the loop.  The pair is the cache after the run and the
    outcome of the run. *)
Fixpoint update_all (self : ValueCache.t) (calls : list (PyFloat.float * Z))
    : ValueCache.t * result unit :=
  match calls with
  | [] => (self, Ok tt)
  | (v, n) :: calls' =>
      match ValueCache.update self v n with
      | (self', Ok _) => update_all self' calls'
      | (self', Raise e) => (self', Raise e)
      end
  end.

(** The labels the comparison of [accuracy_score] sees after [expand]: the
    labels themselves, or a single label repeated for each of the [n]
    examples. *)
Definition broadcast_labels (target : list Z) (n : nat) : list Z :=
  if (length target =? n)%nat then target
  else match target with
       | [x] => replicate n x
       | _ => target
       end.

(** What [process_image] makes of the band values of one pixel, and the
    pixel of the resized image that the crop puts at column [x] and row [y]
    (black outside of the image). *)
Definition normalize_pixel (px : list Z) : list PyFloat.float :=
  zip_with (fun ms v => PyFloat.div (PyFloat.sub v (fst ms)) (snd ms))
           (zip mean std)
           (map (fun p => PyFloat.div (PyFloat.of_Z p) (PyFloat.of_Z 255)) px).

Definition cropped_pixel (im : Image.t) (left upper x y : Z) : list Z :=
  if (0 <=? x + left) && (x + left <? fst (Image.size im)) &&
     (0 <=? y + upper) && (y + upper <? snd (Image.size im))
  then Image.pixel im (x + left) (y + upper)
  else replicate (Image.bands im) 0.

(** The exponential grows with its argument. *)
Class TorchMonotone (T : Torch) : Prop := {
  torch_exp_mono : forall x y : Q, (x <= y)%Q -> (torch_exp x <= torch_exp y)%Q
}.

(** ** ValueCache holding tensors

    [validate] gives its second cache the accuracy of the batch, a tensor
    with one float (binary32) entry: the same methods then compute with the
    tensor's arithmetic.  A tensor divided by zero is inf or nan, not an
    exception; the mean is then [None]. *)

Module TensorCache.

Record t : Type := mk {
  value : Q;
  sum : Q;
  count : Z;
  mean : option Q
}.

Definition reset (self : t) : t :=
  {| value := 0; sum := 0; count := 0; mean := Some 0%Q |}.

Definition init : t := reset (mk 0 0 0 None).

Definition update {R : Rounding} (self : t) (v : Q) (n : Z) : t :=
  let self1 := mk v (sum self) (count self) (mean self) in
  let self2 := mk v (round32 (sum self1 + round32 (v * round32 (inject_Z n))))
                  (count self1) (mean self1) in
  let self3 := mk v (sum self2) (count self2 + n) (mean self2) in
  mk v (sum self3) (count self3)
     (if count self3 =? 0 then None
      else Some (round32 (sum self3 / round32 (inject_Z (count self3))))).

End TensorCache.

(** ** validate (cell 21) *)

(** What torch computes on a batch: the scores of the images of the batch,
    [model(images)], and the loss of these scores for the labels as a Python
    float, [criterion(output, labels).item()]. *)
Class TorchBatch : Type := {
  n_outputs : Model.t -> nat;
  call : Model.t -> list ndarray -> option Tensor2;
  criterion_item : Tensor2 -> list Z -> option PyFloat.float
}.

(** In evaluation mode the scores of an image do not depend on the other
    images of its batch: each row of [model(images)] is the output of the
    network on that image alone. *)
Class TorchBatchLaws (T : Torch) (B : TorchBatch) : Prop := {
  call_rows : forall (m : Model.t) (images : list ndarray) (output : Tensor2),
    call m images = Some output ->
    cols output = n_outputs m /\
    Forall2 (fun img row => forward m img = Some row /\ length row = n_outputs m)
            images (rows output)
}.

(** The loop over the batches of the loader, with the two caches.  The text
    of the progress bar ([get_postfix]) is not modelled. *)
Fixpoint validate_loop {R : Rounding} {K : TopK} {B : TorchBatch} (model : Model.t)
    (batches : list (list ndarray * list Z))
    (losses : ValueCache.t) (acc : TensorCache.t)
    : result (ValueCache.t * TensorCache.t) :=
  match batches with
  | [] => Ok (losses, acc)
  | (images, labels) :: batches' =>
      output <~ match call model images with
                | Some o => Ok o
                | None => Raise (RuntimeError "forward")
                end ;
      loss <~ match criterion_item output labels with
              | Some l => Ok l
              | None => Raise (RuntimeError "criterion")
              end ;
      let n := Z.of_nat (length images) in
      match ValueCache.update losses loss n with
      | (_, Raise e) => Raise e
      | (losses', Ok _) =>
          accuracy <~ accuracy_score output labels [1] ;
          match accuracy with
          | a0 :: _ => validate_loop model batches' losses' (TensorCache.update acc a0 n)
          | [] => Raise (IndexError "list index out of range")
          end
      end
  end.

(** The pair is the model after the call and the call's outcome, the mean
    of the accuracy cache. *)
Definition validate {R : Rounding} {K : TopK} {B : TorchBatch} (model : Model.t)
    (valid_loader : list (list ndarray * list Z)) (device : string)
    : Model.t * result (option Q) :=
  let losses := ValueCache.init in
  let acc := TensorCache.init in
  let model := Model.to model device in
  let model := Model.eval model in
  (model,
   caches <~ validate_loop model valid_loader losses acc ;
   Ok (TensorCache.mean (snd caches))).

(** The examples of a loader, batch after batch, and the number of them
    whose label is the index of the highest score of the network. *)
Definition examples (loader : list (list ndarray * list Z)) : list (ndarray * Z) :=
  concat (map (fun b => zip (fst b) (snd b)) loader).

Definition top1_hits {K : TopK} {T : Torch} (m : Model.t) (l : list (ndarray * Z)) : nat :=
  length (List.filter
            (fun ex => match forward m (fst ex) with
                       | Some row => in_topk 1 row (snd ex)
                       | None => false
                       end) l).

(** The batch network that runs the network of the small instance on each
    image of the batch, with a loss of 0.0. *)
Fixpoint forward_each {T : Torch} (m : Model.t) (images : list ndarray)
    : option (list (list Q)) :=
  match images with
  | [] => Some []
  | img :: images' =>
      match forward m img, forward_each m images' with
      | Some row, Some rows' => Some (row :: rows')
      | _, _ => None
      end
  end.

Definition bias_batch : TorchBatch :=
  {| n_outputs := fun m =>
       match assoc "classifier.fc.bias" (Model.state m) with
       | Some t => length (data t)
       | None => 0%nat
       end;
     call := fun m images =>
       match forward_each (T := bias_network) m images with
       | Some outs =>
           Some (mkTensor2
                   (match assoc "classifier.fc.bias" (Model.state m) with
                    | Some t => length (data t)
                    | None => 0%nat
                    end) outs)
       | None => None
       end;
     criterion_item := fun _ _ => Some PyFloat.zero |}.

(** A loader of two batches, of two images and of one image; the images
    have no entries, the small network does not look at them. *)
Definition example_loader : list (list ndarray * list Z) :=
  [([[]; []], [1; 0]); ([[]], [1])].

(** ** imshow (cell 33) and show_result (cell 39)

    Both draw with matplotlib.  What they hand to it is modelled: the array
    and the title of the picture, and the positions, widths and labels of
    the bars. *)

Record Axes : Type := mkAxes {
  shown : list (list (list PyFloat.float));
  title : string
}.

Record Figure : Type := mkFigure {
  picture : Axes;
  bar_positions : list Z;
  bar_widths : list Q;
  tick_labels : list (option string)
}.

Definition one : PyFloat.float := PyFloat.of_Z 1.

(** [np.clip(x, 0, 1)] for one entry; nan is kept. *)
Definition clip01 (x : PyFloat.float) : PyFloat.float :=
  if SFltb x PyFloat.zero then PyFloat.zero
  else if SFltb one x then one
  else x.

(** [arr.transpose((1, 2, 0))] of an array of planes of equal shape. *)
Definition transpose_120 (arr : ndarray) : ndarray :=
  let plane0 := hd [] arr in
  map (fun y =>
         map (fun x => map (fun plane => nth x (nth y plane []) PyFloat.zero) arr)
             (seq 0 (length (hd [] plane0))))
      (seq 0 (length plane0)).

(** [px * std + mean] on the last axis: a pixel needs the three entries of
    [std] and [mean], or one entry, which numpy broadcasts. *)
Definition denormalize_pixel (px : list PyFloat.float) : result (list PyFloat.float) :=
  match px with
  | [v] => Ok (map (fun ms => PyFloat.add (PyFloat.mul v (snd ms)) (fst ms))
                   (zip mean std))
  | [_; _; _] =>
      Ok (zip_with (fun ms v => PyFloat.add (PyFloat.mul v (snd ms)) (fst ms))
                   (zip mean std) px)
  | _ => Raise (ValueError "operands could not be broadcast together")
  end.

(** [imshow(image, ax, title)] with an axes given: the axes after the
    call.  numpy broadcasts the transposed array against the three entries
    of [std] and [mean] by its shape: an array of one plane or of three
    planes is accepted, whatever the size of the planes, and any other array
    is refused, an array without a plane too. *)
Definition imshow (image : ndarray) (title : option string) : result Axes :=
  if (length image =? 1)%nat || (length image =? 3)%nat then
    let image := transpose_120 image in
    image <~ for_each (for_each denormalize_pixel) image ;
    let image := map (map (map clip01)) image in
    let title := match title with
                 | None => "Title"
                 | Some t => t
                 end in
    Ok (mkAxes image title)
  else Raise (ValueError "operands could not be broadcast together").

(** [range(n, 0, -1)] *)
Definition range_down (n : nat) : list Z :=
  map (fun i => Z.of_nat (n - i)) (seq 0 n).

(** [class_names.get(c, c)] for a label that may be [None]. *)
Definition name_of (class_names : gmap string string) (c : option string)
    : option string :=
  match c with
  | Some s => match class_names !! s with
              | Some n => Some n
              | None => Some s
              end
  | None => None
  end.

(** [show_result(filename, model, class_names)]: the model after the call
    and the figure.  ([names[0]] on an empty list would be an IndexError;
    [predict] with K = 5 returns no empty list.) *)
Definition show_result {C : Image.Codec} {R : Rounding} {K : TopK} {T : Torch}
    (fs : FileSystem) (filename : string) (model : Model.t)
    (class_names : option (gmap string string))
    : Model.t * result Figure :=
  match predict fs filename model 5 with
  | (model, Raise e) => (model, Raise e)
  | (model, Ok (probs, classes, img_tensor)) =>
      let names := match class_names with
                   | None => classes
                   | Some d => map (name_of d) classes
                   end in
      (model,
       match names with
       | [] => Raise (IndexError "list index out of range")
       | name0 :: _ =>
           ax1 <~ imshow img_tensor name0 ;
           let y_pos := range_down (length probs) in
           Ok (mkFigure ax1 y_pos probs names)
       end)
  end.

(** A trained model over five classes, and names for two of its labels. *)
Definition five_class_model : Model.t :=
  Model.mk
    [("classifier.fc.weight", mkTensor [5%nat; 1%nat] (replicate 5 (0 # 1)));
     ("classifier.fc.bias", mkTensor [5%nat] [1 # 1; 3 # 1; 2 # 1; 5 # 1; 4 # 1])]
    classifier_parameters Float32 "cpu" true
    (Some 5) (Some (90 # 1))
    (Some (mkOptimizerState sgd_hyper 4 []))
    (Some [("3", 0); ("74", 3); ("9", 4)]) (Some 5).

Definition example_names : gmap string string :=
  {[ "74" := "rose"; "3" := "canterbury bells" ]}.


(* ================================================================== *)
(** * Properties *)
(* ================================================================== *)

(** ** ValueCache *)

Section ValueCacheProperties.

Import ValueCache.

Lemma update_value (self : t) (v : PyFloat.float) (n : Z) :
  value (fst (update self v n)) = v.
Proof.
  unfold update.
  destruct (PyFloat.mul_int v n) as [p|e]; [|reflexivity].
  cbn [sum count mean].
  destruct (PyFloat.div_int _ _); reflexivity.
Qed.

Lemma of_int_raises (n : Z) (e : PyErr) :
  PyFloat.of_int n = Raise e -> e = OverflowError.
Proof.
  unfold PyFloat.of_int. destruct (PyFloat.of_Z n); intros H; congruence.
Qed.

Lemma update_raises_zero_division (self : t) (v : PyFloat.float) (n : Z) (y : PyFloat.float) :
  PyFloat.of_int n = Ok y ->
  snd (update self v n) = Raise ZeroDivisionError <-> count self + n = 0.
Proof.
  intros Hy. unfold update, PyFloat.mul_int. rewrite Hy. cbn [bind sum count mean].
  unfold PyFloat.div_int.
  destruct (Z.eqb_spec (count self + n) 0) as [H0|H0]; cbn [snd].
  - tauto.
  - destruct (PyFloat.of_int (count self + n)) as [c|e] eqn:Hc; cbn [bind snd].
    + split; intros H; congruence.
    + apply of_int_raises in Hc. subst e. split; intros H; congruence.
Qed.

End ValueCacheProperties.

(** C7 as the claim states it fails: not every call of [update] assigns
    all four attributes.  On a cache whose count is -1, [update(1.0, 1)]
    brings the count to 0: the call raises ZeroDivisionError and the mean
    stays 7.0, while the new sum divided by the new count does not exist.
    The same happens to a fresh cache with the weight 0.  With a weight too
    large for a float, [update(1.0, 2 ** 1024)] raises OverflowError before
    the sum and the count are assigned. *)
Lemma value_cache_update_raises :
  ValueCache.update
    (ValueCache.mk (PyFloat.of_Z 5) (PyFloat.of_Z 10) (-1) (PyFloat.of_Z 7))
    (PyFloat.of_Z 1) 1
  = (ValueCache.mk (PyFloat.of_Z 1) (PyFloat.of_Z 11) 0 (PyFloat.of_Z 7),
     Raise ZeroDivisionError) /\
  ValueCache.update ValueCache.init (PyFloat.of_Z 1) 0
  = (ValueCache.mk (PyFloat.of_Z 1) PyFloat.zero 0 PyFloat.zero,
     Raise ZeroDivisionError) /\
  ValueCache.update ValueCache.init (PyFloat.of_Z 1) (2 ^ 1024)
  = (ValueCache.mk (PyFloat.of_Z 1) PyFloat.zero 0 PyFloat.zero,
     Raise OverflowError).
Proof. repeat split; by vm_compute. Qed.

(** C7, amended.  [reset] sets value, sum, count and mean to zero.
    Whatever the state, [update(value, weight)] stores the raw value first.
    When the product value*weight exists (the weight converts to a float),
    the new sum is the old sum plus that product and the new count is the
    old count plus the weight; when moreover the quotient of the new sum and
    the new count exists, it is the new mean and the call returns.  The call
    returns in no other case: when the product does not exist, sum, count
    and mean are the old ones, and when the quotient does not exist (the new
    count is 0, or does not convert), the mean is the old one; the call then
    raises the exception of the product, or of the quotient. *)
Theorem value_cache_reset_update :
  (forall self : ValueCache.t,
     ValueCache.reset self =
       ValueCache.mk PyFloat.zero PyFloat.zero 0 PyFloat.zero) /\
  (forall (self : ValueCache.t) (v : PyFloat.float) (n : Z),
     let self' := fst (ValueCache.update self v n) in
     ValueCache.value self' = v /\
     (forall p : PyFloat.float,
        PyFloat.mul_int v n = Ok p ->
        ValueCache.sum self' = PyFloat.add (ValueCache.sum self) p /\
        ValueCache.count self' = ValueCache.count self + n /\
        (forall m : PyFloat.float,
           PyFloat.div_int (ValueCache.sum self') (ValueCache.count self') = Ok m ->
           ValueCache.mean self' = m /\
           snd (ValueCache.update self v n) = Ok tt) /\
        (forall e : PyErr,
           PyFloat.div_int (ValueCache.sum self') (ValueCache.count self') = Raise e ->
           ValueCache.mean self' = ValueCache.mean self /\
           snd (ValueCache.update self v n) = Raise e)) /\
     (forall e : PyErr,
        PyFloat.mul_int v n = Raise e ->
        ValueCache.sum self' = ValueCache.sum self /\
        ValueCache.count self' = ValueCache.count self /\
        ValueCache.mean self' = ValueCache.mean self /\
        snd (ValueCache.update self v n) = Raise e) /\
     (snd (ValueCache.update self v n) = Ok tt <->
      exists p m : PyFloat.float,
        PyFloat.mul_int v n = Ok p /\
        PyFloat.div_int (PyFloat.add (ValueCache.sum self) p)
                        (ValueCache.count self + n) = Ok m)).
Proof.
  split; [reflexivity|].
  intros self v n self'. split; [apply update_value|].
  subst self'. unfold ValueCache.update.
  destruct (PyFloat.mul_int v n) as [p|e] eqn:Hp;
    cbn [ValueCache.sum ValueCache.count ValueCache.mean].
  - destruct (PyFloat.div_int _ _) as [m'|e] eqn:Hd;
      cbn [fst snd ValueCache.sum ValueCache.count ValueCache.mean].
    + split; [|split; [done|]].
      * intros p' [= <-]. rewrite Hd. repeat split; try done; congruence.
      * split; [eauto|done].
    + split; [|split; [done|]].
      * intros p' [= <-]. rewrite Hd. repeat split; try done; congruence.
      * split; [done|]. intros (p' & m & [= <-] & Hm). congruence.
  - cbn [fst snd ValueCache.sum ValueCache.count ValueCache.mean].
    split; [done|]. split.
    + by intros e' [= <-].
    + split; [done|]. by intros (p' & m & Hp' & _).
Qed.

(** C8, as the claim states it, fails twice: the mean read right after
    [reset] is the stored 0.0 and divides nothing, and a call of [update]
    (here with weight 0 on a fresh cache) does divide by zero although
    [update] was called before any read. *)
Lemma zero_division_not_at_read :
  ValueCache.read_mean (ValueCache.reset ValueCache.init) = Ok PyFloat.zero /\
  snd (ValueCache.update (ValueCache.reset ValueCache.init) (PyFloat.of_Z 1) 0)
    = Raise ZeroDivisionError.
Proof. split; reflexivity. Qed.

(** C8, amended.  A division by zero happens exactly in a call
    [update(value, weight)] that brings the count to zero; it raises
    ZeroDivisionError.  Reading the mean never divides, and right after
    [reset] it is 0.0. *)
Theorem zero_division_exactly_in_update
    (self : ValueCache.t) (v : PyFloat.float) (n : Z) (y : PyFloat.float)
    (Hn : PyFloat.of_int n = Ok y) :
  (snd (ValueCache.update self v n) = Raise ZeroDivisionError <->
     ValueCache.count self + n = 0) /\
  ValueCache.read_mean (ValueCache.reset self) = Ok PyFloat.zero.
Proof.
  split; [by eapply update_raises_zero_division|reflexivity].
Qed.

(** The amended C8 on a fresh cache updated with the value 3.0 and the
    weight 4. *)
Lemma zero_division_exactly_in_update_witness :
  PyFloat.of_int 4 = Ok (PyFloat.of_Z 4) /\
  ((snd (ValueCache.update ValueCache.init (PyFloat.of_Z 3) 4) = Raise ZeroDivisionError <->
     ValueCache.count ValueCache.init + 4 = 0) /\
   ValueCache.read_mean (ValueCache.reset ValueCache.init) = Ok PyFloat.zero).
Proof.
  split; [reflexivity|].
  apply (zero_division_exactly_in_update ValueCache.init (PyFloat.of_Z 3) 4 (PyFloat.of_Z 4)).
  reflexivity.
Defined.

(** ** accuracy_score *)

Section ForEach.

Context {A B : Type} (f : A -> result B).

Lemma for_each_lookup (l : list A) (res : list B) (i : nat) (x : A) :
  for_each f l = Ok res -> l !! i = Some x ->
  exists y, res !! i = Some y /\ f x = Ok y.
Proof.
  revert res i. induction l as [|a l IH]; intros res i Hres Hi; [done|].
  cbn [for_each] in Hres.
  destruct (f a) as [y|e] eqn:Hfa; [|done]. cbn [bind] in Hres.
  destruct (for_each f l) as [ys|e] eqn:Hl; [|done]. cbn [bind] in Hres.
  inversion Hres; subst res.
  destruct i as [|i]; cbn in Hi |- *.
  - inversion Hi; subst. eauto.
  - eapply IH; eauto.
Qed.

Lemma for_each_map (g : A -> B) (l : list A) :
  Forall (fun x => f x = Ok (g x)) l -> for_each f l = Ok (map g l).
Proof.
  induction 1 as [|x l Hx _ IH]; [done|].
  cbn [for_each map]. rewrite Hx. cbn [bind]. by rewrite IH.
Qed.

(** The loop stops at the first element that raises. *)
Lemma for_each_raises (e : PyErr) (l : list A) :
  Forall (fun x => (exists y, f x = Ok y) \/ f x = Raise e) l ->
  Exists (fun x => f x = Raise e) l ->
  for_each f l = Raise e.
Proof.
  induction 1 as [|x l Hx Hl IH]; intros Hex; [by apply Exists_nil in Hex|].
  cbn [for_each]. destruct Hx as [[y Hy]|Hx]; [|by rewrite Hx].
  rewrite Hy. cbn [bind].
  apply Exists_cons in Hex as [Hex|Hex]; [congruence|].
  by rewrite (IH Hex).
Qed.

End ForEach.

Lemma slice_to_nonneg {A : Type} (k : Z) (m : list A) :
  0 <= k -> slice_to k m = take (Z.to_nat k) m.
Proof.
  intros Hk. unfold slice_to.
  destruct (Z.ltb_spec k 0); [lia|done].
Qed.

Lemma length_slice_to {A : Type} (k : Z) (m : list A) :
  length (slice_to k m) = slice_rows k (length m).
Proof.
  unfold slice_to, slice_rows. destruct (k <? 0); rewrite length_take; lia.
Qed.

(** [view(-1)] succeeds exactly on fewer than two rows, or fewer than two
    columns. *)
Lemma view_flat_inv {A : Type} (n : nat) (m : list (list A)) (flat : list A) :
  view_flat n m = Ok flat ->
  flat = concat m /\ ((length m <= 1)%nat \/ (n <= 1)%nat).
Proof.
  unfold view_flat.
  destruct (Nat.leb_spec 2 (length m)), (Nat.leb_spec 2 n); cbn [andb]; try done;
    intros [= <-]; (split; [done|lia]).
Qed.

Lemma view_flat_returns {A : Type} (n : nat) (m : list (list A)) :
  (length m <= 1)%nat \/ (n <= 1)%nat -> view_flat n m = Ok (concat m).
Proof.
  intros H. unfold view_flat.
  destruct (Nat.leb_spec 2 (length m)), (Nat.leb_spec 2 n); cbn [andb]; try done; lia.
Qed.

Lemma view_flat_raises {A : Type} (n : nat) (m : list (list A)) :
  (2 <= length m)%nat -> (2 <= n)%nat ->
  view_flat n m = Raise (RuntimeError view_msg).
Proof.
  intros Hm Hn. unfold view_flat.
  destruct (Nat.leb_spec 2 (length m)), (Nat.leb_spec 2 n); cbn [andb]; try done; lia.
Qed.

Lemma count_true_app (m1 m2 : list (list bool)) :
  count_true (m1 ++ m2) = (count_true m1 + count_true m2)%nat.
Proof.
  unfold count_true, sum_true. by rewrite concat_app, filter_app, length_app.
Qed.

Lemma count_true_take_mono (m : list (list bool)) (k k' : nat) :
  (k <= k')%nat -> (count_true (take k m) <= count_true (take k' m))%nat.
Proof.
  revert k k'. induction m as [|r m IH]; intros k k' Hk.
  - by rewrite !take_nil.
  - destruct k as [|k]; [cbn; lia|].
    destruct k' as [|k']; [lia|].
    cbn [take].
    change (r :: take k m) with ([r] ++ take k m).
    change (r :: take k' m) with ([r] ++ take k' m).
    rewrite !count_true_app.
    specialize (IH k k'). lia.
Qed.

Section Scaling.

Context {R : Rounding} (HR : RoundingLaws R).

Lemma round32_nonneg (x : Q) : (0 <= x)%Q -> (0 <= round32 x)%Q.
Proof.
  intros Hx. apply Qle_trans with (round32 0).
  - rewrite round32_zero. apply Qle_refl.
  - by apply round32_mono.
Qed.

Lemma round64_nonneg (x : Q) : (0 <= x)%Q -> (0 <= round64 x)%Q.
Proof.
  intros Hx. apply Qle_trans with (round64 0).
  - rewrite round64_zero. apply Qle_refl.
  - by apply round64_mono.
Qed.

Lemma percent_factor_nonneg (n : nat) (s : Q) :
  percent_factor (Z.of_nat n) = Ok s -> (0 <= s)%Q.
Proof.
  unfold percent_factor.
  destruct (Z.eqb_spec (Z.of_nat n) 0) as [|Hn]; [done|].
  intros [= <-]. apply round64_nonneg.
  apply Qmult_le_0_compat; [done|].
  apply Qinv_le_0_compat.
  change 0%Q with (inject_Z 0). rewrite <- Zle_Qle. lia.
Qed.

Lemma mul__mono (c c' : nat) (s : Q) :
  (c <= c')%nat -> (0 <= s)%Q -> (mul_ c s <= mul_ c' s)%Q.
Proof.
  intros Hc Hs. unfold mul_. apply round32_mono.
  apply Qmult_le_compat_r; [|by apply round32_nonneg].
  rewrite <- Zle_Qle. lia.
Qed.

End Scaling.

(** One round of the loop of [accuracy_score]: when it returns, the rows
    could be viewed flat and the count of the matches in them was scaled. *)
Lemma score_inv {R : Rounding} (n : nat) (n_batch : Z) (c : list (list bool)) (a : Q) :
  (flat <~ view_flat n c ;
   let correct_k := sum_true flat in
   s <~ percent_factor n_batch ;
   Ok (mul_ correct_k s)) = Ok a ->
  exists s, percent_factor n_batch = Ok s /\
            a = mul_ (count_true c) s /\
            ((length c <= 1)%nat \/ (n <= 1)%nat).
Proof.
  destruct (view_flat n c) as [flat|e] eqn:Hv; [|done]. cbn [bind].
  apply view_flat_inv in Hv as [-> Hv].
  destruct (percent_factor n_batch) as [s|e]; [|done]. cbn [bind].
  intros [= <-]. eauto.
Qed.

Lemma score_returns {R : Rounding} (n : nat) (n_batch : Z) (c : list (list bool)) (s : Q) :
  (length c <= 1)%nat \/ (n <= 1)%nat ->
  percent_factor n_batch = Ok s ->
  (flat <~ view_flat n c ;
   let correct_k := sum_true flat in
   s <~ percent_factor n_batch ;
   Ok (mul_ correct_k s)) = Ok (mul_ (count_true c) s).
Proof.
  intros Hv Hs. rewrite (view_flat_returns _ _ Hv). cbn [bind]. by rewrite Hs.
Qed.


(** *** The selection of the k highest scores *)

Lemma insert_desc_perm (p : nat * Q) (l : list (nat * Q)) :
  insert_desc p l ≡ₚ p :: l.
Proof.
  induction l as [|q l IH]; cbn [insert_desc]; [done|].
  destruct (Qle_bool (snd q) (snd p)); [done|].
  rewrite IH. apply Permutation_swap.
Qed.

Lemma insert_desc_sorted (p : nat * Q) (l : list (nat * Q)) :
  StronglySorted score_ge l -> StronglySorted score_ge (insert_desc p l).
Proof.
  induction 1 as [|q l Hl IH Hq]; cbn [insert_desc].
  - repeat constructor.
  - destruct (Qle_bool (snd q) (snd p)) eqn:Hle.
    + apply Qle_bool_iff in Hle.
      constructor; [by constructor|].
      constructor; [done|].
      eapply Forall_impl; [exact Hq|].
      intros r Hr. unfold score_ge in *. by eapply Qle_trans.
    + constructor; [done|].
      rewrite insert_desc_perm. constructor; [|done].
      unfold score_ge. apply Qnot_lt_le. intros Hlt.
      apply Qlt_le_weak, Qle_bool_iff in Hlt. congruence.
Qed.

(** The order of the examples is one of the orders [topk] may give. *)
Lemma lower_index_first_laws : TopKLaws lower_index_first.
Proof.
  constructor; intros row; cbn [argsort_desc lower_index_first].
  - induction (zip (seq 0 (length row)) row) as [|p l IH]; cbn [foldr]; [done|].
    by rewrite insert_desc_perm, IH.
  - induction (zip (seq 0 (length row)) row) as [|p l IH]; cbn [foldr].
    + constructor.
    + by apply insert_desc_sorted.
Qed.


Lemma sorted_lookup_ge (l : list (nat * Q)) (i j : nat) (p q : nat * Q) :
  StronglySorted score_ge l -> (i <= j)%nat ->
  l !! i = Some p -> l !! j = Some q -> (snd q <= snd p)%Q.
Proof.
  intros Hs. revert i j. induction Hs as [|a l Hl IH Ha]; intros i j Hij Hi Hj; [done|].
  destruct i as [|i], j as [|j]; cbn in Hi, Hj.
  - injection Hi as <-. injection Hj as <-. apply Qle_refl.
  - injection Hi as <-. rewrite Forall_forall in Ha.
    apply Ha. by eapply list_elem_of_lookup_2.
  - lia.
  - apply (IH i j); [lia|done|done].
Qed.


Section Selection.

Context {K : TopK} {HK : TopKLaws K}.

Lemma argsort_desc_indices (row : list Q) :
  (argsort_desc row).*1 ≡ₚ seq 0 (length row).
Proof.
  rewrite argsort_desc_perm. rewrite fst_zip; [done|].
  by rewrite length_seq.
Qed.

Lemma length_argsort_desc (row : list Q) :
  length (argsort_desc row) = length row.
Proof.
  rewrite <- (length_fmap fst), argsort_desc_indices. apply length_seq.
Qed.

Lemma NoDup_topk_indices (k : nat) (row : list Q) :
  NoDup (topk_indices k row).
Proof.
  unfold topk_indices, topk_row.
  rewrite <- (map_map fst Z.of_nat).
  change (NoDup (Z.of_nat <$> (fst <$> take k (argsort_desc row)))).
  apply (NoDup_fmap_2 Z.of_nat).
  rewrite fmap_take.
  apply (sublist_NoDup _ ((argsort_desc row).*1)); [|apply sublist_take].
  rewrite argsort_desc_indices. apply NoDup_seq.
Qed.

Lemma length_topk_indices (k : nat) (row : list Q) :
  (k <= length row)%nat -> length (topk_indices k row) = k.
Proof.
  intros Hk. unfold topk_indices, topk_row.
  rewrite length_map, length_take, length_argsort_desc. lia.
Qed.

Lemma length_topk_row (k : nat) (row : list Q) :
  (k <= length row)%nat -> length (topk_row k row) = k.
Proof.
  intros Hk. unfold topk_row. rewrite length_take, length_argsort_desc. lia.
Qed.

Lemma take_topk_indices (k m : nat) (row : list Q) :
  (k <= m)%nat -> take k (topk_indices m row) = topk_indices k row.
Proof.
  intros Hk. unfold topk_indices, topk_row.
  change (take k (map ?f ?l)) with (take k (f <$> l)).
  rewrite <- fmap_take, take_take. by rewrite Nat.min_l.
Qed.


Lemma topk_row_sorted (k : nat) (row : list Q) :
  StronglySorted score_ge (topk_row k row).
Proof.
  unfold topk_row. generalize (argsort_desc_sorted row).
  generalize (argsort_desc row) as l. intros l Hs. revert k.
  induction Hs as [|a l Hl IH Ha]; intros [|k]; cbn [take]; try constructor.
  - apply IH.
  - rewrite Forall_forall in Ha |- *. intros x Hx. apply Ha.
    apply elem_of_take in Hx as (i & Hi & _). by eapply list_elem_of_lookup_2.
Qed.



End Selection.

(** *** Counting the matches *)

Lemma py_max_spec (l : list Z) (m : Z) :
  py_max l = Ok m -> m ∈ l /\ Forall (fun x => x <= m) l.
Proof.
  destruct l as [|x l]; [done|]. cbn [py_max]. intros [= <-].
  revert x. induction l as [|y l IH]; intros x; cbn [foldl].
  - split; [apply list_elem_of_here|]. constructor; [lia|constructor].
  - destruct (IH (Z.max x y)) as [Hin Hall].
    apply Forall_cons in Hall as [Hxy Hall].
    split.
    + apply elem_of_cons in Hin as [Heq|Hin].
      * rewrite Heq. destruct (Z.max_spec x y) as [[_ ->]|[_ ->]].
        -- apply list_elem_of_further, list_elem_of_here.
        -- apply list_elem_of_here.
      * by do 2 apply list_elem_of_further.
    + repeat constructor; [lia|lia|done].
Qed.

Lemma count_true_map {A : Type} (F : A -> list bool) (l : list A) :
  count_true (map F l) =
  sum_list (map (fun j => length (filter (fun b => b = true) (F j))) l).
Proof.
  induction l as [|a l IH]; [done|].
  cbn [map sum_list_with id]. rewrite <- IH.
  unfold count_true, sum_true. cbn [concat]. by rewrite filter_app, length_app.
Qed.

Lemma row_matches (j : nat) (preds : list (list Z)) (target : list Z) :
  length (filter (fun b => b = true)
            (zip_with Z.eqb (map (fun row => nth j row 0) preds) target)) =
  sum_list (zip_with (match_at j) preds target).
Proof.
  revert target. induction preds as [|p preds IH]; intros [|t target]; try done.
  cbn [map zip_with sum_list_with id]. rewrite filter_cons.
  unfold match_at at 1.
  destruct (nth j p 0 =? t); cbn [Nat.b2n];
    (destruct (decide _) as [Hd|Hd]; [|try done]); try done;
    cbn [length]; by rewrite IH.
Qed.

Lemma match_within_S (k : nat) (p : list Z) (t : Z) :
  NoDup p -> (k < length p)%nat ->
  match_within (S k) p t = (match_within k p t + match_at k p t)%nat.
Proof.
  intros Hnd Hk. unfold match_within, match_at.
  destruct (lookup_lt_is_Some_2 p k Hk) as [x Hx].
  rewrite (take_S_r _ _ _ Hx), (nth_lookup_Some _ _ _ _ Hx).
  destruct (Z.eqb_spec x t) as [->|Hne].
  - rewrite (bool_decide_eq_true_2 (t ∈ take k p ++ [t])).
    2:{ apply elem_of_app. right. apply list_elem_of_here. }
    rewrite (bool_decide_eq_false_2 (t ∈ take k p)); [done|].
    intros Hin. apply elem_of_take in Hin as (i & Hi & Hlt).
    pose proof (NoDup_lookup _ _ _ _ Hnd Hi Hx). lia.
  - cbn [Nat.b2n]. rewrite Nat.add_0_r. f_equal.
    apply bool_decide_ext. rewrite elem_of_app, list_elem_of_singleton.
    split; [intros [Hin|Heq]; [done|congruence]|by left].
Qed.

Lemma sum_zip_with_add (P : list Z -> Prop) (f g h : list Z -> Z -> nat)
    (preds : list (list Z)) (target : list Z) :
  Forall P preds ->
  (forall p t, P p -> f p t = (g p t + h p t)%nat) ->
  sum_list (zip_with f preds target) =
  (sum_list (zip_with g preds target) + sum_list (zip_with h preds target))%nat.
Proof.
  intros HP Hf. revert target.
  induction HP as [|p preds Hp _ IH]; intros [|t target]; try done.
  cbn [zip_with sum_list_with id]. rewrite IH, (Hf _ _ Hp). lia.
Qed.

Lemma matches_by_example (m k : nat) (preds : list (list Z)) (target : list Z) :
  Forall (fun p => NoDup p /\ length p = m) preds -> (k <= m)%nat ->
  sum_list (zip_with (match_within k) preds target) =
  sum_list (map (fun j => sum_list (zip_with (match_at j) preds target)) (seq 0 k)).
Proof.
  intros Hp. induction k as [|k IH]; intros Hk.
  - cbn [seq map sum_list_with id]. clear Hp.
    revert target. induction preds as [|p preds IHp]; intros [|t target]; try done.
    cbn [zip_with sum_list_with id]. by rewrite IHp.
  - rewrite seq_S, map_app, sum_list_with_app. cbn [map sum_list_with id Nat.add].
    rewrite Nat.add_0_r, <- IH by lia.
    apply (sum_zip_with_add (fun p => NoDup p /\ length p = m)); [done|].
    intros p t [Hnd Hlen]. apply match_within_S; [done|lia].
Qed.

Section Hits.

Context {K : TopK} {HK : TopKLaws K}.

Lemma hits_by_example (m k : nat) (output : Tensor2) (target : list Z) :
  (k <= m)%nat ->
  top_k_hits k output target =
  sum_list (zip_with (match_within k) (map (topk_indices m) (rows output)) target).
Proof.
  intros Hk. unfold top_k_hits. generalize (rows output) as rs. intros rs.
  revert target. induction rs as [|r rs IH]; intros [|t target]; try done.
  cbn [zip zip_with map List.filter sum_list_with id fst snd].
  unfold match_within at 1, in_topk at 1.
  rewrite (take_topk_indices _ _ _ Hk).
  destruct (bool_decide _); cbn [length Nat.b2n]; rewrite <- IH; done.
Qed.

(** The matrix [correct] has one row per rank and one column per example;
    its first [k] rows hold as many [True] as there are examples whose label
    is among the example's [k] highest-scoring indices. *)
Lemma correct_counts_hits (m k : nat) (output : Tensor2) (target : list Z) :
  well_shaped output -> (m <= cols output)%nat -> (k <= m)%nat ->
  count_true
    (take k (tensor_eq
       (transpose 0 m (map (map (fun p => Z.of_nat (fst p)))
                           (map (topk_row m) (rows output))))
       (replicate m target))) =
  top_k_hits k output target.
Proof.
  intros Hws Hm Hk.
  rewrite map_map.
  change (map (fun x => map (fun p : nat * Q => Z.of_nat (fst p)) (topk_row m x)))
    with (map (topk_indices m)).
  set (preds := map (topk_indices m) (rows output)).
  unfold tensor_eq, transpose.
  rewrite zip_with_replicate_r_eq by (by rewrite length_map, length_seq).
  change (take k ((fun x => zip_with Z.eqb x target) <$> ?l))
    with (take k (map (fun x => zip_with Z.eqb x target) l)).
  rewrite map_map.
  change (take k (map ?f ?l)) with (take k (f <$> l)).
  rewrite <- fmap_take, take_seq, Nat.min_l by done.
  change (?f <$> seq 0 k) with (map f (seq 0 k)).
  rewrite count_true_map.
  rewrite (hits_by_example m) by done. fold preds.
  rewrite (matches_by_example m); [|subst preds|done].
  - f_equal. apply map_ext. intros j. apply row_matches.
  - apply Forall_forall. intros q Hq.
    apply list_elem_of_In, in_map_iff in Hq as (row & <- & Hrow).
    split; [apply NoDup_topk_indices|].
    apply length_topk_indices.
    unfold well_shaped in Hws. rewrite Forall_forall in Hws.
    rewrite (Hws row) by (by apply list_elem_of_In). done.
Qed.

End Hits.

Lemma percentage_exact {R : Rounding} (HE : Exact R) (c n : nat) :
  (percentage c n == inject_Z (Z.of_nat c) * 100 / inject_Z (Z.of_nat n))%Q.
Proof.
  unfold percentage, mul_.
  rewrite !round32_exact, round64_exact.
  unfold Qdiv. ring.
Qed.

(** The matrix [correct] of a batch with as many labels as score vectors
    has [max_k] rows. *)
Lemma length_correct {K : TopK} (m : nat) (rs : list (list Q)) (tgt : list (list Z)) :
  length tgt = m ->
  length (tensor_eq
            (transpose 0 m (map (map (fun p => Z.of_nat (fst p))) (map (topk_row m) rs)))
            tgt) = m.
Proof.
  intros Ht. unfold tensor_eq, transpose.
  rewrite length_zip_with, length_map, length_seq. lia.
Qed.


Lemma exact_rounding_laws : RoundingLaws exact_rounding.
Proof. constructor; cbn; intros; done. Qed.

Lemma exact_rounding_exact : Exact exact_rounding.
Proof. constructor; cbn; intros; reflexivity. Qed.




(** ** process_image *)

Lemma length_transpose_201 (arr : ndarray) : length (transpose_201 arr) = 3%nat.
Proof. reflexivity. Qed.

(** The array of an image with three bands is channel-first and has as many
    rows and columns as the image has. *)
Lemma normalize_shape (im : Image.t) (arr : ndarray) :
  normalize im = Ok arr ->
  Forall (fun plane =>
            length plane = Z.to_nat (snd (Image.size im)) /\
            Forall (fun row => length row = Z.to_nat (fst (Image.size im))) plane)
         (transpose_201 arr).
Proof.
  unfold normalize. destruct (Image.bands im =? 3)%nat; [|done].
  intros [= <-]. unfold transpose_201, Image.to_array.
  apply Forall_forall. intros plane Hplane.
  apply list_elem_of_In, in_map_iff in Hplane as (c & <- & _).
  rewrite !length_map, length_seqZ. split; [done|].
  apply Forall_forall. intros row Hrow.
  apply list_elem_of_In, in_map_iff in Hrow as (r & <- & Hr).
  apply in_map_iff in Hr as (y & <- & Hy).
  apply in_map_iff in Hy as (j & <- & _).
  by rewrite !length_map, length_seqZ.
Qed.

(** Whenever [process_image] returns, its result has 3 planes of
    [out_size] rows of [out_size] entries. *)
Lemma process_image_shape {C : Image.Codec} (image : Image.t) (out_size : Z)
    (arr : ndarray) :
  process_image image out_size = Ok arr ->
  length arr = 3%nat /\
  Forall (fun plane =>
            length plane = Z.to_nat out_size /\
            Forall (fun row => length row = Z.to_nat out_size) plane) arr.
Proof.
  unfold process_image. destruct (Image.size image) as [w h].
  destruct (resized_size w h out_size) as [sz|e]; [|done]. cbn [bind].
  destruct (Image.resize image (fst sz) (snd sz)) as [im1|e]; [|done]. cbn [bind].
  destruct (crop_offset (fst (Image.size im1)) out_size) as [left|e]; [|done].
  cbn [bind].
  destruct (crop_offset (snd (Image.size im1)) out_size) as [upper|e]; [|done].
  cbn [bind].
  destruct (Image.crop im1 left upper (left + out_size) (upper + out_size))
    as [im2|e] eqn:Hcrop; [|done].
  cbn [bind].
  destruct (normalize im2) as [a|e] eqn:Hn; [|done]. cbn [bind].
  intros [= <-]. split; [reflexivity|].
  apply normalize_shape in Hn.
  unfold Image.crop in Hcrop.
  destruct (_ || _) in Hcrop; [done|].
  injection Hcrop as <-. cbn [Image.size fst snd] in Hn.
  replace (left + out_size - left) with out_size in Hn by lia.
  replace (upper + out_size - upper) with out_size in Hn by lia.
  exact Hn.
Qed.

(** [process_image] returns for an image with three bands as soon as the
    sizes it computes are positive. *)
Lemma process_image_returns {C : Image.Codec} (image : Image.t)
    (out_size rw rh left upper : Z) :
  Image.bands image = 3%nat ->
  resized_size (fst (Image.size image)) (snd (Image.size image)) out_size
    = Ok (rw, rh) ->
  0 < rw -> 0 < rh ->
  crop_offset rw out_size = Ok left ->
  crop_offset rh out_size = Ok upper ->
  0 <= out_size ->
  exists arr, process_image image out_size = Ok arr.
Proof.
  intros Hb Hsz Hrw Hrh Hl Hu Hs.
  unfold process_image. destruct (Image.size image) as [w h].
  cbn [fst snd] in Hsz. rewrite Hsz. cbn [bind fst snd].
  unfold Image.resize.
  destruct (Z.leb_spec rw 0); [lia|]. destruct (Z.leb_spec rh 0); [lia|].
  cbn [orb bind Image.size fst snd]. rewrite Hl, Hu. cbn [bind].
  unfold Image.crop.
  destruct (Z.ltb_spec (left + out_size) left); [lia|].
  destruct (Z.ltb_spec (upper + out_size) upper); [lia|].
  cbn [orb bind]. unfold normalize. cbn [Image.bands]. rewrite Hb.
  cbn [Nat.eqb bind]. eauto.
Qed.

(** C6 at an image of 660 x 990 pixels and the target size 299: the
    product [scale * 660] is rounded below 331 and [int] truncates it, so
    the image is resized to 330 x 496 and its shortest side is not
    299 + 32.  The result still has 3 x 299 x 299 entries. *)
Theorem process_image_shortest_side_660_990 :
  resized_size 660 990 299 = Ok (330, 496) /\
  330 <> 299 + 32 /\
  forall (C : Image.Codec) (image : Image.t),
    Image.size image = (660, 990) -> Image.bands image = 3%nat ->
    exists arr,
      process_image image 299 = Ok arr /\
      length arr = 3%nat /\
      Forall (fun plane =>
                length plane = 299%nat /\
                Forall (fun row => length row = 299%nat) plane) arr.
Proof.
  split; [by vm_compute|]. split; [lia|].
  intros C image Hsize Hbands.
  destruct (process_image_returns image 299 330 496 15 98) as [arr Harr].
  - exact Hbands.
  - rewrite Hsize. by vm_compute.
  - lia.
  - lia.
  - by vm_compute.
  - by vm_compute.
  - lia.
  - exists arr. split; [exact Harr|]. apply (process_image_shape _ _ _ Harr).
Qed.

(** ** predict *)


Section Softmax.

Context {R : Rounding} {T : Torch}.

Lemma length_softmax (xs : list Q) : length (softmax xs) = length xs.
Proof. destruct xs as [|x xs]; [done|]. unfold softmax. by rewrite !length_map. Qed.

(** The entries of the softmax: one largest score and one sum for all of
    them. *)
Lemma softmax_lookup (xs : list Q) :
  exists m total : Q,
    total = fsum (map (fun y => torch_exp (round64 (y - m))) xs) /\
    forall (i : nat) (p : Q),
      softmax xs !! i = Some p ->
      exists x, xs !! i = Some x /\
                p = round64 (torch_exp (round64 (x - m)) / total).
Proof.
  destruct xs as [|x0 xs]; [exists 0%Q, 0%Q; done|].
  unfold softmax. set (m := Qmax_list x0 xs).
  set (es := map _ (x0 :: xs)). exists m, (fsum es). split; [done|].
  intros i p Hp.
  change (map ?f es !! i) with ((f <$> es) !! i) in Hp.
  rewrite list_lookup_fmap in Hp.
  destruct (es !! i) as [e|] eqn:He; [|done]. injection Hp as <-.
  subst es. change (map ?f ?l !! i) with ((f <$> l) !! i) in He.
  rewrite list_lookup_fmap in He.
  destruct ((x0 :: xs) !! i) as [x|]; [|done]. injection He as <-. eauto.
Qed.

Section Laws.

Context (HR : RoundingLaws R) (HT : TorchLaws T).

Lemma fsum_nonneg (es : list Q) :
  Forall (fun e => (0 <= e)%Q) es -> (0 <= fsum es)%Q.
Proof.
  destruct es as [|e es]; [done|]. intros Hes.
  apply Forall_cons in Hes as [He Hes]. cbn [fsum].
  revert e He. induction Hes as [|y es Hy _ IH]; intros e He; [done|].
  cbn [foldl]. apply IH. apply (round64_nonneg HR).
  apply Qle_trans with (0 + 0)%Q; [done|]. by apply Qplus_le_compat.
Qed.

Lemma exps_nonneg (m : Q) (xs : list Q) :
  Forall (fun e => (0 <= e)%Q) (map (fun y => torch_exp (round64 (y - m))) xs).
Proof.
  apply Forall_forall. intros e He.
  apply list_elem_of_In, in_map_iff in He as (y & <- & _).
  apply Qlt_le_weak, torch_exp_pos.
Qed.


(** A higher score has no lower probability. *)
Lemma softmax_mono (HM : TorchMonotone T) (xs : list Q) (i j : nat) (x y p q : Q) :
  xs !! i = Some x -> xs !! j = Some y -> (y <= x)%Q ->
  softmax xs !! i = Some p -> softmax xs !! j = Some q ->
  (q <= p)%Q.
Proof.
  intros Hx Hy Hyx Hp Hq.
  destruct (softmax_lookup xs) as (m & total & Htotal & Hlookup).
  destruct (Hlookup i p Hp) as (x' & Hx' & ->).
  destruct (Hlookup j q Hq) as (y' & Hy' & ->).
  rewrite Hx in Hx'. rewrite Hy in Hy'. injection Hx' as <-. injection Hy' as <-.
  apply round64_mono. unfold Qdiv. apply Qmult_le_compat_r.
  - apply torch_exp_mono, round64_mono.
    unfold Qminus. by apply Qplus_le_l.
  - apply Qinv_le_0_compat. subst total. apply fsum_nonneg, exps_nonneg.
Qed.

Context (HE : Exact R).




End Laws.

End Softmax.

Section TopKOutput.

Context {K : TopK}.

Lemma topk_output_inv (output : list Q) (k : Z) (vals : list Q) (idxs : list Z) :
  topk_output output k = Ok (vals, idxs) ->
  0 <= k <= Z.of_nat (length output) /\
  vals = (topk_row (Z.to_nat k) output).*2 /\
  idxs = topk_indices (Z.to_nat k) output.
Proof.
  unfold topk_output, topk. cbn [cols rows map].
  destruct (Z.ltb_spec k 0); [done|].
  destruct (Z.ltb_spec (Z.of_nat (length output)) k); [done|].
  cbn [orb bind]. intros [= <- <-]. split; [lia|done].
Qed.

Lemma topk_output_returns (output : list Q) (k : Z) :
  0 <= k <= Z.of_nat (length output) ->
  topk_output output k =
    Ok ((topk_row (Z.to_nat k) output).*2, topk_indices (Z.to_nat k) output).
Proof.
  intros Hk. unfold topk_output, topk. cbn [cols rows map].
  destruct (Z.ltb_spec k 0); [lia|].
  destruct (Z.ltb_spec (Z.of_nat (length output)) k); [lia|].
  reflexivity.
Qed.

End TopKOutput.

(** What a normal return of [predict] tells about its steps. *)
Lemma predict_ok_inv {C : Image.Codec} {R : Rounding} {K : TopK} {T : Torch}
    (fs : FileSystem) (path : string) (model : Model.t) (k : Z)
    (model' : Model.t) (probs : list Q) (labels : list (option string))
    (img : ndarray) :
  predict fs path model k = (model', Ok (probs, labels, img)) ->
  os_path_isfile fs path = true /\
  model' = prepared model /\
  exists (im : Image.t) (output vals : list Q) (idxs : list Z)
         (items : list (string * Z)),
    Image.open fs path = Ok im /\
    process_image im 299 = Ok img /\
    forward model' img = Some output /\
    topk_output output k = Ok (vals, idxs) /\
    Model.class_to_idx model = Some items /\
    items <> [] /\
    labels = map (fun i => dict_zip items.*2 items.*1 !! i) idxs /\
    probs = softmax vals.
Proof.
  unfold predict. destruct (os_path_isfile fs path); cbn [negb]; [|done].
  destruct (Image.open fs path) as [im|e] eqn:Hopen; cbn [bind]; [|done].
  destruct (process_image im 299) as [image|e] eqn:Himg; [|done].
  fold (prepared model).
  intros [= <- Hres]. split; [done|]. split; [done|].
  destruct (forward (prepared model) image) as [output|] eqn:Hf; [|done].
  cbn [bind] in Hres.
  destruct (topk_output output k) as [[vals idxs]|e] eqn:Htk; [|done].
  cbn [bind fst snd] in Hres.
  change (Model.class_to_idx (prepared model)) with (Model.class_to_idx model) in Hres.
  destruct (Model.class_to_idx model) as [items|]; [|done].
  cbn [getattr bind] in Hres.
  destruct items as [|it items]; [done|].
  cbn [unzip_items bind fst snd] in Hres.
  injection Hres as <- <- <-.
  exists im, output, vals, idxs, (it :: items). done.
Qed.

(** [predict] returns as soon as each of its steps does. *)
Lemma predict_returns {C : Image.Codec} {R : Rounding} {K : TopK} {T : Torch}
    (fs : FileSystem) (path : string) (model : Model.t) (k : Z)
    (im : Image.t) (img : ndarray) (output : list Q) (items : list (string * Z)) :
  os_path_isfile fs path = true ->
  Image.open fs path = Ok im ->
  process_image im 299 = Ok img ->
  forward (prepared model) img = Some output ->
  0 <= k <= Z.of_nat (length output) ->
  Model.class_to_idx model = Some items ->
  items <> [] ->
  predict fs path model k =
    (prepared model,
     Ok (softmax (topk_row (Z.to_nat k) output).*2,
         map (fun i => dict_zip items.*2 items.*1 !! i)
             (topk_indices (Z.to_nat k) output),
         img)).
Proof.
  intros Hfile Hopen Himg Hf Hk Hitems Hne.
  unfold predict. rewrite Hfile, Hopen. cbn [negb bind]. rewrite Himg.
  fold (prepared model). rewrite Hf. cbn [bind].
  rewrite (topk_output_returns _ _ Hk). cbn [bind fst snd].
  change (Model.class_to_idx (prepared model)) with (Model.class_to_idx model).
  rewrite Hitems. cbn [getattr bind].
  destruct items as [|it items]; [done|]. reflexivity.
Qed.

(** *** No step after the file test reports a missing file *)

Ltac raise_inv :=
  repeat match goal with
  | H : bind ?r _ = Raise _ |- _ =>
      let E := fresh "E" in destruct r eqn:E; cbn [bind] in H
  | H : (if ?b then _ else _) = Raise _ |- _ => destruct b
  | H : Raise _ = Raise _ |- _ => injection H as <-
  | H : Ok _ = Raise _ |- _ => discriminate H
  | H : PyFloat.of_int _ = Raise _ |- _ => apply of_int_raises in H; subst
  end.

Lemma to_int_raises (x : PyFloat.float) (e : PyErr) :
  PyFloat.to_int x = Raise e -> is_file_not_found e = false.
Proof. destruct x; cbn; intros H; raise_inv; reflexivity. Qed.

Lemma int_div_int_raises (a b : Z) (e : PyErr) :
  PyFloat.int_div_int a b = Raise e -> is_file_not_found e = false.
Proof. unfold PyFloat.int_div_int. intros H. raise_inv; reflexivity. Qed.

Lemma crop_offset_raises (n s : Z) (e : PyErr) :
  crop_offset n s = Raise e -> is_file_not_found e = false.
Proof.
  unfold crop_offset. intros H. raise_inv;
    eauto using to_int_raises, int_div_int_raises.
Qed.

Lemma resized_size_raises (w h s : Z) (e : PyErr) :
  resized_size w h s = Raise e -> is_file_not_found e = false.
Proof. unfold resized_size. intros H. raise_inv; eauto using to_int_raises. Qed.

Lemma process_image_raises {C : Image.Codec} (image : Image.t) (s : Z) (e : PyErr) :
  process_image image s = Raise e -> is_file_not_found e = false.
Proof.
  unfold process_image. destruct (Image.size image) as [w h].
  unfold Image.resize, Image.crop, normalize. intros H.
  raise_inv; eauto using resized_size_raises, crop_offset_raises.
Qed.

Lemma open_raises {C : Image.Codec} (fs : FileSystem) (path : string) (e : PyErr) :
  os_path_isfile fs path = true ->
  Image.open fs path = Raise e -> is_file_not_found e = false.
Proof.
  unfold os_path_isfile, Image.open.
  destruct (fs !! path) as [[|[b|c]]|]; try done.
  - destruct (Image.decode b); [done|]. by intros _ [= <-].
  - by intros _ [= <-].
Qed.

Lemma predict_raises {C : Image.Codec} {R : Rounding} {K : TopK} {T : Torch}
    (fs : FileSystem) (path : string) (model : Model.t) (k : Z) (e : PyErr) :
  os_path_isfile fs path = true ->
  snd (predict fs path model k) = Raise e -> is_file_not_found e = false.
Proof.
  intros Hfile. unfold predict. rewrite Hfile. cbn [negb].
  destruct (Image.open fs path) as [im|e1] eqn:Hopen; cbn [bind].
  2:{ cbn [snd]. intros [= <-]. by eapply open_raises. }
  destruct (process_image im 299) as [img|e1] eqn:Himg.
  2:{ cbn [snd]. intros [= <-]. by eapply process_image_raises. }
  cbn [snd]. unfold topk_output, topk, getattr, unzip_items. intros H.
  destruct (forward _ img); cbn [bind] in H; [|by injection H as <-].
  destruct (_ || _); cbn [bind] in H; [by injection H as <-|].
  cbn [rows map bind fst snd Model.class_to_idx Model.eval Model.to Model.double] in H.
  destruct (Model.class_to_idx model) as [[|it items]|]; cbn [bind] in H;
    [by injection H as <-|done|by injection H as <-].
Qed.

(** C2.  [predict] raises the "file not found" error exactly when the path
    is not an existing file; it is then the only thing that happens: the
    image is not opened or decoded and the model is returned as it was. *)
Theorem predict_file_not_found
    {C : Image.Codec} {R : Rounding} {K : TopK} {T : Torch}
    (fs : FileSystem) (image_path : string) (model : Model.t) (topk : Z) :
  ((exists msg, snd (predict fs image_path model topk) = Raise (FileNotFoundError msg))
     <-> os_path_isfile fs image_path = false) /\
  (os_path_isfile fs image_path = false ->
     predict fs image_path model topk =
       (model, Raise (FileNotFoundError (image_path +:+ " does not exist")))).
Proof.
  assert (os_path_isfile fs image_path = false ->
          predict fs image_path model topk =
            (model, Raise (FileNotFoundError (image_path +:+ " does not exist"))))
    as Hmissing.
  { intros Hfile. unfold predict. by rewrite Hfile. }
  split; [|exact Hmissing]. split.
  - intros [msg Hmsg].
    destruct (os_path_isfile fs image_path) eqn:Hfile; [|done].
    by apply (predict_raises _ _ _ _ _ Hfile) in Hmsg.
  - intros Hfile. rewrite (Hmissing Hfile). eauto.
Qed.


Lemma bias_network_laws : TorchLaws bias_network.
Proof. constructor. intros x. cbn. by apply Qpower_0_lt. Qed.

(** The steps of [predict] on the picture "rose.raw". *)
Lemma rose_is_file : os_path_isfile example_files "rose.raw" = true.
Proof. by vm_compute. Qed.

Lemma rose_opens : Image.open (C := raw_codec) example_files "rose.raw" = Ok rose_image.
Proof. by vm_compute. Qed.

Lemma rose_processed :
  exists img, process_image (C := raw_codec) rose_image 299 = Ok img.
Proof.
  apply (process_image_returns (C := raw_codec) rose_image 299 662 331 181 16);
    first [by vm_compute | lia].
Qed.

(** [predict] on the picture "rose.raw" and the model of three classes with
    K = 2, in exact arithmetic: the scores are 1, 3, 2, the two highest are
    3 and 2, and the probabilities are 2/3 and 1/3. *)
Lemma rose_predicted_2 :
  exists img : ndarray,
    process_image (C := raw_codec) rose_image 299 = Ok img /\
    predict (C := raw_codec) (R := exact_rounding) (K := lower_index_first)
      (T := bias_network) example_files "rose.raw" example_model 2
    = (prepared example_model, Ok ([2 # 3; 2 # 6], [Some "74"; None], img)).
Proof.
  destruct rose_processed as [img Himg]. exists img. split; [exact Himg|].
  rewrite (predict_returns (C := raw_codec) (R := exact_rounding)
             (K := lower_index_first) (T := bias_network)
             example_files "rose.raw" example_model 2
             rose_image img [1 # 1; 3 # 1; 2 # 1] [("3", 0); ("74", 1)]
             rose_is_file rose_opens Himg eq_refl
             ltac:(change (0 <= 2 <= 3); lia) eq_refl ltac:(discriminate)).
  do 3 f_equal; by vm_compute.
Qed.



(** An index that is no value of the mapping is no key of the inverted
    dictionary. *)
Lemma dict_zip_lookup_None (v : list Z) (k : list string) (i : Z) :
  i ∉ v -> dict_zip v k !! i = None.
Proof.
  unfold dict_zip. generalize (∅ : gmap Z string), (lookup_empty (M := gmap Z) (A := string) i).
  revert k. induction v as [|x v IH]; intros k d Hd Hi; [by destruct k|].
  destruct k as [|c k]; [done|]. cbn [zip zip_with foldl fst snd].
  apply not_elem_of_cons in Hi as [Hne Hi].
  apply IH; [|exact Hi]. by rewrite lookup_insert_ne.
Qed.

(** With an empty mapping the unpacking of its items fails. *)
Lemma predict_empty_mapping {C : Image.Codec} {R : Rounding} {K : TopK} {T : Torch}
    (fs : FileSystem) (path : string) (model : Model.t) (k : Z)
    (im : Image.t) (img : ndarray) (output : list Q) :
  os_path_isfile fs path = true ->
  Image.open fs path = Ok im ->
  process_image im 299 = Ok img ->
  forward (prepared model) img = Some output ->
  0 <= k <= Z.of_nat (length output) ->
  Model.class_to_idx model = Some [] ->
  snd (predict fs path model k) =
    Raise (ValueError "not enough values to unpack (expected 2, got 0)").
Proof.
  intros Hfile Hopen Himg Hf Hk Hitems.
  unfold predict. rewrite Hfile, Hopen. cbn [negb bind]. rewrite Himg.
  fold (prepared model). rewrite Hf. cbn [bind snd].
  rewrite (topk_output_returns _ _ Hk). cbn [bind fst snd].
  change (Model.class_to_idx (prepared model)) with (Model.class_to_idx model).
  by rewrite Hitems.
Qed.

(** C10 as stated fails for a mapping without entries: every selected
    index is absent from it, and [predict] raises ValueError instead of
    returning a list of missing labels. *)
Lemma predict_empty_mapping_raises :
  Model.class_to_idx (set_class_to_idx example_model []) = Some [] /\
  snd (predict (C := raw_codec) (R := exact_rounding) (K := lower_index_first)
         (T := bias_network)
         example_files "rose.raw" (set_class_to_idx example_model []) 2)
    = Raise (ValueError "not enough values to unpack (expected 2, got 0)").
Proof.
  split; [reflexivity|].
  destruct rose_processed as [img Himg].
  apply (predict_empty_mapping (C := raw_codec) (T := bias_network)
           example_files "rose.raw" (set_class_to_idx example_model []) 2
           rose_image img [1 # 1; 3 # 1; 2 # 1]
           rose_is_file rose_opens Himg eq_refl).
  - change (0 <= 2 <= 3). lia.
  - reflexivity.
Qed.

(** C10, amended.  When the model's mapping has at least one entry and the
    steps before the labels succeed, [predict] returns, and every selected
    index that is no value of the mapping has the label [None]: an absent
    index raises nothing. *)
Theorem predict_absent_index_gives_None
    {C : Image.Codec} {R : Rounding} {K : TopK} {T : Torch} (HK : TopKLaws K)
    (fs : FileSystem) (image_path : string) (model : Model.t) (topk : Z)
    (im : Image.t) (img : ndarray) (output : list Q) (items : list (string * Z))
    (Hfile : os_path_isfile fs image_path = true)
    (Hopen : Image.open fs image_path = Ok im)
    (Himg : process_image im 299 = Ok img)
    (Hforward : forward (prepared model) img = Some output)
    (Hk : 0 <= topk <= Z.of_nat (length output))
    (Hitems : Model.class_to_idx model = Some items)
    (Hne : items <> []) :
  exists (probs : list Q) (labels : list (option string)),
    predict fs image_path model topk = (prepared model, Ok (probs, labels, img)) /\
    length labels = Z.to_nat topk /\
    forall (j : nat) (i : Z),
      topk_indices (Z.to_nat topk) output !! j = Some i ->
      i ∉ items.*2 ->
      labels !! j = Some None.
Proof.
  eexists _, _. split; [by eapply predict_returns|]. split.
  - rewrite length_map. apply length_topk_indices. lia.
  - intros j i Hj Hi.
    change (map ?f ?l !! j) with ((f <$> l) !! j).
    rewrite list_lookup_fmap, Hj. cbn [fmap option_fmap option_map].
    by rewrite dict_zip_lookup_None.
Qed.

(** The amended C10 on the picture "rose.raw" with K = 2: the indices 1 and
    2 are selected and the mapping has the values 0 and 1 only. *)
Lemma predict_absent_index_gives_None_witness :
  exists (probs : list Q) (labels : list (option string)) (img : ndarray),
    predict (C := raw_codec) (R := exact_rounding) (K := lower_index_first)
      (T := bias_network) example_files "rose.raw" example_model 2
      = (prepared example_model, Ok (probs, labels, img)) /\
    length labels = Z.to_nat 2 /\
    forall (j : nat) (i : Z),
      topk_indices (K := lower_index_first) (Z.to_nat 2) [1 # 1; 3 # 1; 2 # 1] !! j
        = Some i ->
      i ∉ [("3", 0); ("74", 1)].*2 ->
      labels !! j = Some None.
Proof.
  destruct rose_processed as [img Himg].
  destruct (predict_absent_index_gives_None (C := raw_codec) (R := exact_rounding)
              (T := bias_network) lower_index_first_laws
              example_files "rose.raw" example_model 2
              rose_image img [1 # 1; 3 # 1; 2 # 1] [("3", 0); ("74", 1)]
              rose_is_file rose_opens Himg eq_refl
              ltac:(change (0 <= 2 <= 3); lia) eq_refl ltac:(discriminate))
    as (probs & labels & H).
  exists probs, labels, img. exact H.
Defined.

(** ** get_data *)

(** C9.  When the training directory (data_dir followed by the name of the
    train directory) exists, [get_data] returns at once: no request is sent
    and no file or directory is created, changed or removed. *)
Theorem get_data_skips_existing_train_dir {I : Internet}
    (global_data_dir url data_dir train_dirname : string) (w : World)
    (Hexists : os_path_exists (files w) (data_dir +:+ train_dirname) = true) :
  get_data global_data_dir url data_dir train_dirname w = (w, Ok tt).
Proof. unfold get_data. by rewrite Hexists. Qed.

(** C9 on a machine where "flowers/train" exists. *)
Lemma get_data_skips_existing_train_dir_witness :
  os_path_exists example_files ("flowers" +:+ "/train") = true /\
  get_data (I := offline) "flowers" "http://host/flower_data.tar.gz" "flowers" "/train"
    (mkWorld example_files []) = (mkWorld example_files [], Ok tt).
Proof.
  split; [by vm_compute|].
  apply (get_data_skips_existing_train_dir (I := offline)).
  by vm_compute.
Defined.

(** ** save_checkpoint and load_checkpoint *)

Lemma for_each_Forall2 {A B : Type} (f : A -> result B) (l : list A) (res : list B) :
  for_each f l = Ok res -> Forall2 (fun x y => f x = Ok y) l res.
Proof.
  revert res. induction l as [|a l IH]; intros res; cbn [for_each].
  - intros [= <-]. constructor.
  - destruct (f a) as [y|e] eqn:Hfa; [|done]. cbn [bind].
    destruct (for_each f l) as [ys|e]; [|done]. cbn [bind].
    intros [= <-]. constructor; [done|by apply IH].
Qed.

(** A successful [save_checkpoint] has read the five attributes and has
    written their bundle to the file. *)
Lemma save_checkpoint_inv (model : Model.t) (filename : string)
    (fs fs' : FileSystem) :
  save_checkpoint model filename fs = (fs', Ok tt) ->
  exists ck : Checkpoint,
    fs' = <[filename := File (Pickle ck)]> fs /\
    ck_state_dict ck = Model.state_dict model /\
    Model.class_to_idx model = Some (ck_class_to_idx ck) /\
    Model.epoch model = Some (ck_epoch ck) /\
    Model.best_acc model = Some (ck_best_acc ck) /\
    Model.optimizer_state model = Some (ck_optimizer_state_dict ck) /\
    Model.n_classes model = Some (ck_n_classes ck).
Proof.
  unfold save_checkpoint, getattr.
  destruct (Model.epoch model) as [e|]; [|done].
  destruct (Model.optimizer_state model) as [o|]; [|done].
  destruct (Model.best_acc model) as [b|]; [|done].
  destruct (Model.class_to_idx model) as [c|]; [|done].
  destruct (Model.n_classes model) as [n|]; [|done].
  cbn [bind]. unfold torch_save.
  destruct (fs !! filename) as [[|d]|]; intros [= <-]; eexists; by repeat split.
Qed.

(** [load_state_dict] replaces every tensor by the tensor of the same name
    and touches nothing else of the model. *)
Lemma load_state_dict_inv (m m' : Model.t) (sd : StateDict) :
  Model.load_state_dict m sd = Ok m' ->
  Forall (fun e => assoc (fst e) sd = Some (snd e)) (Model.state m') /\
  (Model.state m').*1 = (Model.state m).*1 /\
  Model.class_to_idx m' = Model.class_to_idx m /\
  Model.trainable m' = Model.trainable m.
Proof.
  unfold Model.load_state_dict. destruct (forallb _ sd); [|done].
  destruct (for_each _ (Model.state m)) as [s|e] eqn:Hs; [|done].
  cbn [bind]. intros [= <-]. cbn [Model.set_state Model.state Model.class_to_idx Model.trainable].
  apply for_each_Forall2 in Hs.
  split; [|split; [|done]].
  - induction Hs as [|x y l l' Hxy _ IH]; constructor; [|exact IH].
    destruct (assoc (fst x) sd) as [t|] eqn:Ht; [|done].
    destruct (bool_decide _); [|done]. injection Hxy as <-. exact Ht.
  - induction Hs as [|x y l l' Hxy _ IH]; [done|]. cbn [fmap list_fmap].
    f_equal; [|exact IH].
    destruct (assoc (fst x) sd) as [t|]; [|done].
    destruct (bool_decide _); [|done]. by injection Hxy as <-.
Qed.

(** C1 on the code.  After [save_checkpoint], a [load_checkpoint] that is
    given no model returns a model that holds, name by name, the saved
    weights, but that has no class-to-index mapping, whereas the saved model
    had one. *)
Theorem load_after_save_loses_class_to_idx {T : Torch}
    (train_dir filename : string) (model : Model.t) (fs fs' : FileSystem)
    (reloaded : Model.t) (optimizer : Optimizer)
    (Hsave : save_checkpoint model filename fs = (fs', Ok tt))
    (Hload : load_checkpoint train_dir None filename fs' = Ok (reloaded, optimizer)) :
  Forall (fun e => assoc (fst e) (Model.state_dict model) = Some (snd e))
         (Model.state_dict reloaded) /\
  Model.class_to_idx reloaded = None /\
  (exists d, Model.class_to_idx model = Some d) /\
  Model.class_to_idx reloaded <> Model.class_to_idx model.
Proof.
  apply save_checkpoint_inv in Hsave as (ck & -> & Hsd & Hc & _).
  unfold load_checkpoint in Hload.
  destruct (find_classes _ train_dir) as [classes|e]; [|done].
  cbn [bind] in Hload. unfold torch_load in Hload.
  rewrite lookup_insert_eq in Hload. cbn [bind] in Hload.
  destruct (Model.load_state_dict _ _) as [m|e] eqn:Hm; [|done].
  cbn [bind] in Hload.
  destruct (SGD _ _) as [o|e]; [|done]. cbn [bind] in Hload.
  destruct (optimizer_load_state_dict _ _) as [o'|e]; [|done].
  cbn [bind] in Hload. injection Hload as <- <-.
  apply load_state_dict_inv in Hm as (Hw & _ & Hcls & _).
  rewrite Hsd in Hw. cbn [NewModel Model.class_to_idx] in Hcls.
  split; [exact Hw|]. split; [exact Hcls|]. split; [eauto|].
  rewrite Hcls, Hc. discriminate.
Qed.

(** C1 on the trained example model: saved, then reloaded without a model,
    with the three class directories of "flowers/train". *)
Lemma load_after_save_loses_class_to_idx_witness :
  exists (reloaded : Model.t) (optimizer : Optimizer),
    load_checkpoint (T := bias_network) "flowers/train" None "./checkpoint.pth"
      (fst (save_checkpoint example_model "./checkpoint.pth" example_files))
      = Ok (reloaded, optimizer) /\
    Model.state_dict reloaded = Model.state_dict example_model /\
    Model.class_to_idx example_model = Some [("3", 0); ("74", 1)] /\
    Model.class_to_idx reloaded = None /\
    Model.class_to_idx reloaded <> Model.class_to_idx example_model.
Proof.
  eexists _, _. split; [by vm_compute|].
  split; [reflexivity|]. split; [reflexivity|]. split; [reflexivity|].
  apply (load_after_save_loses_class_to_idx (T := bias_network)
           "flowers/train" "./checkpoint.pth" example_model example_files
           (fst (save_checkpoint example_model "./checkpoint.pth" example_files))
           _ _ ltac:(by vm_compute) ltac:(by vm_compute)).
Defined.


(* ================================================================== *)
(** * Further properties of the code *)
(* ================================================================== *)

(** ** ValueCache over a run of updates *)

Lemma update_ok_inv (self self' : ValueCache.t) (v : PyFloat.float) (n : Z) :
  ValueCache.update self v n = (self', Ok tt) ->
  ValueCache.value self' = v /\
  ValueCache.count self' = ValueCache.count self + n /\
  ValueCache.count self' <> 0 /\
  PyFloat.div_int (ValueCache.sum self') (ValueCache.count self')
    = Ok (ValueCache.mean self').
Proof.
  unfold ValueCache.update.
  destruct (PyFloat.mul_int v n) as [p|e]; [|done].
  cbn [ValueCache.sum ValueCache.count ValueCache.mean].
  destruct (PyFloat.div_int _ _) as [m|e] eqn:Hd; [|done].
  intros [= <-]. cbn [ValueCache.value ValueCache.sum ValueCache.count ValueCache.mean].
  repeat split; try done.
  intros H0. unfold PyFloat.div_int in Hd. rewrite H0 in Hd. done.
Qed.

Lemma update_all_ok_inv (calls : list (PyFloat.float * Z)) (self self' : ValueCache.t) :
  update_all self calls = (self', Ok tt) ->
  ValueCache.count self' = ValueCache.count self + foldr Z.add 0 calls.*2 /\
  (calls <> [] ->
   Some (ValueCache.value self') = last calls.*1 /\
   ValueCache.count self' <> 0 /\
   PyFloat.div_int (ValueCache.sum self') (ValueCache.count self')
     = Ok (ValueCache.mean self')).
Proof.
  revert self. induction calls as [|[v n] calls IH]; intros self; cbn [update_all].
  - intros [= <-]. split; [cbn; lia|done].
  - destruct (ValueCache.update self v n) as [s1 [[]|e]] eqn:Hu; [|done].
    intros Hrun. apply update_ok_inv in Hu as (Hv & Hc & Hnz & Hm).
    destruct (IH _ Hrun) as [Hcount Hrest]. split.
    + rewrite Hcount, Hc. cbn. lia.
    + intros _. destruct calls as [|c calls].
      * cbn in Hrun. injection Hrun as <-. cbn. by rewrite Hv.
      * destruct Hrest as (Hl & Hz & Hmean); [done|].
        split; [|done]. rewrite Hl. by destruct c.
Qed.

(** X1.  After a run of updates on a fresh cache that raised nothing, the
    count is the sum of the weights passed, the value is the last value
    passed, the count is not zero and the mean is the quotient of the sum
    and the count the cache holds. *)
Theorem value_cache_run_invariant
    (calls : list (PyFloat.float * Z)) (self' : ValueCache.t)
    (Hrun : update_all ValueCache.init calls = (self', Ok tt)) :
  ValueCache.count self' = foldr Z.add 0 calls.*2 /\
  (calls <> [] ->
   Some (ValueCache.value self') = last calls.*1 /\
   ValueCache.count self' <> 0 /\
   PyFloat.div_int (ValueCache.sum self') (ValueCache.count self')
     = Ok (ValueCache.mean self')).
Proof.
  apply update_all_ok_inv in Hrun as [Hc Hrest]. split; [|exact Hrest].
  rewrite Hc. reflexivity.
Qed.

(** X1 on two batches of 64 and 36 examples with the losses 2.0 and 1.0. *)
Lemma value_cache_run_invariant_witness :
  ValueCache.count
    (fst (update_all ValueCache.init [(PyFloat.of_Z 2, 64); (PyFloat.of_Z 1, 36)]))
  = foldr Z.add 0 [(PyFloat.of_Z 2, 64); (PyFloat.of_Z 1, 36)].*2.
Proof.
  apply (value_cache_run_invariant [(PyFloat.of_Z 2, 64); (PyFloat.of_Z 1, 36)]).
  by vm_compute.
Defined.

Lemma update_count_nonneg (self : ValueCache.t) (v : PyFloat.float) (n : Z) :
  0 <= ValueCache.count self -> 0 < n ->
  0 <= ValueCache.count (fst (ValueCache.update self v n)) /\
  snd (ValueCache.update self v n) <> Raise ZeroDivisionError.
Proof.
  intros Hc Hn. split.
  - unfold ValueCache.update.
    destruct (PyFloat.mul_int v n) as [p|e]; [|done].
    cbn [ValueCache.sum ValueCache.count ValueCache.mean].
    destruct (PyFloat.div_int _ _); cbn; lia.
  - destruct (PyFloat.of_int n) as [y|e] eqn:Hy.
    + rewrite (update_raises_zero_division self v n y Hy). lia.
    + unfold ValueCache.update, PyFloat.mul_int. rewrite Hy. cbn [bind snd].
      apply of_int_raises in Hy. by subst e.
Qed.

(** X2.  With weights that are all positive, as batch sizes are, no update
    of a run that starts on a fresh cache divides by zero. *)
Theorem value_cache_positive_weights_never_divide_by_zero
    (calls : list (PyFloat.float * Z))
    (Hpos : Forall (fun c => 0 < snd c) calls) :
  snd (update_all ValueCache.init calls) <> Raise ZeroDivisionError.
Proof.
  assert (forall self, 0 <= ValueCache.count self ->
            snd (update_all self calls) <> Raise ZeroDivisionError) as Hgen.
  { induction Hpos as [|[v n] calls Hn _ IH]; intros self Hc; [done|].
    cbn [update_all]. cbn [snd] in Hn.
    destruct (update_count_nonneg self v n Hc Hn) as [Hc' Hz].
    destruct (ValueCache.update self v n) as [s1 [[]|e]]; cbn [fst snd] in *.
    - by apply IH.
    - exact Hz. }
  apply Hgen. cbn. lia.
Qed.

(** X2 on two batches of 64 and 36 examples. *)
Lemma value_cache_positive_weights_never_divide_by_zero_witness :
  snd (update_all ValueCache.init [(PyFloat.of_Z 2, 64); (PyFloat.of_Z 1, 36)])
    <> Raise ZeroDivisionError.
Proof.
  apply (value_cache_positive_weights_never_divide_by_zero
           [(PyFloat.of_Z 2, 64); (PyFloat.of_Z 1, 36)]).
  repeat constructor.
Defined.

(** ** accuracy_score: when it returns, and what it returns *)

Lemma expand_inv (target : list Z) (r c : nat) (tgt : list (list Z)) :
  expand target r c = Ok tgt ->
  tgt = replicate r (broadcast_labels target c) /\
  length (broadcast_labels target c) = c.
Proof.
  unfold expand, broadcast_labels.
  destruct (Nat.eqb_spec (length target) c) as [Hc|Hc].
  - by intros [= <-].
  - destruct target as [|x [|y target]]; try done. intros [= <-].
    by rewrite length_replicate.
Qed.

Lemma expand_returns (target : list Z) (r c : nat) :
  length target = c \/ length target = 1%nat ->
  expand target r c = Ok (replicate r (broadcast_labels target c)).
Proof.
  unfold expand, broadcast_labels. intros Hlen.
  destruct (Nat.eqb_spec (length target) c) as [Hc|Hc]; [done|].
  destruct Hlen as [|Hone]; [done|].
  by destruct target as [|x [|y target]].
Qed.

Lemma expand_ok_inv (target : list Z) (r c : nat) (tgt : list (list Z)) :
  expand target r c = Ok tgt -> length target = c \/ length target = 1%nat.
Proof.
  unfold expand.
  destruct (Nat.eqb_spec (length target) c); [by left|].
  destruct target as [|x [|y target]]; try done. by right.
Qed.

(** The steps of [accuracy_score] before its loop, and the loop over the
    match matrix [correct], which has one row per rank. *)
Lemma accuracy_score_steps {R : Rounding} {K : TopK}
    (output : Tensor2) (target : list Z) (top_k : list Z) (max_k : Z) :
  py_max top_k = Ok max_k ->
  0 <= max_k <= Z.of_nat (cols output) ->
  length target = length (rows output) \/ length target = 1%nat ->
  exists correct : list (list bool),
    correct =
      tensor_eq
        (transpose 0 (Z.to_nat max_k)
           (map (map (fun p => Z.of_nat (fst p)))
                (map (topk_row (Z.to_nat max_k)) (rows output))))
        (replicate (Z.to_nat max_k)
           (broadcast_labels target (length (rows output)))) /\
    length correct = Z.to_nat max_k /\
    accuracy_score output target top_k =
      for_each (fun k =>
        flat <~ view_flat (length (rows output)) (slice_to k correct) ;
        let correct_k := sum_true flat in
        s <~ percent_factor (Z.of_nat (length target)) ;
        Ok (mul_ correct_k s)) top_k.
Proof.
  intros Hmax Hrange Hlen. eexists. split; [reflexivity|]. split.
  - apply length_correct, length_replicate.
  - unfold accuracy_score. rewrite Hmax. cbn [bind]. unfold topk.
    destruct (Z.ltb_spec max_k 0); [lia|].
    destruct (Z.ltb_spec (Z.of_nat (cols output)) max_k); [lia|].
    cbn [orb bind]. by rewrite (expand_returns _ _ _ Hlen).
Qed.

Lemma accuracy_score_ok_inv {R : Rounding} {K : TopK}
    (output : Tensor2) (target : list Z) (top_k : list Z) (res : list Q) :
  accuracy_score output target top_k = Ok res ->
  exists max_k,
    py_max top_k = Ok max_k /\
    0 <= max_k <= Z.of_nat (cols output) /\
    (length target = length (rows output) \/ length target = 1%nat).
Proof.
  unfold accuracy_score. intros Hres.
  destruct (py_max top_k) as [max_k|e] eqn:Hmax; [|done]. cbn [bind] in Hres.
  exists max_k. split; [done|]. unfold topk in Hres.
  destruct (Z.ltb_spec max_k 0); [done|].
  destruct (Z.ltb_spec (Z.of_nat (cols output)) max_k); [done|].
  cbn [orb bind] in Hres. split; [lia|].
  destruct (expand target _ _) as [tgt|e] eqn:He; [|done].
  by apply expand_ok_inv in He.
Qed.

(** X3.  [accuracy_score] returns exactly when at least one K is requested,
    the largest requested K lies between 0 and the number of classes, there
    is at least one label, the labels are as many as the score vectors (or
    there is a single label, which torch broadcasts), and the batch has at
    most one score vector or every requested K selects at most one row of
    the match matrix.  Otherwise it raises: ValueError when no K is
    requested, RuntimeError when the largest K is out of range, when the
    labels do not fit, or when a requested K selects two or more rows for a
    batch of two or more score vectors, and ZeroDivisionError when the batch
    has no label. *)
Theorem accuracy_score_returns_iff {R : Rounding} {K : TopK}
    (output : Tensor2) (target : list Z) (top_k : list Z) :
  ((exists res, accuracy_score output target top_k = Ok res) <->
   exists max_k,
     py_max top_k = Ok max_k /\
     0 <= max_k <= Z.of_nat (cols output) /\
     (length target = length (rows output) \/ length target = 1%nat) /\
     target <> [] /\
     ((length (rows output) <= 1)%nat \/
      Forall (fun k => (slice_rows k (Z.to_nat max_k) <= 1)%nat) top_k)) /\
  (top_k = [] ->
   accuracy_score output target top_k
     = Raise (ValueError "max() arg is an empty sequence")) /\
  (forall max_k,
     py_max top_k = Ok max_k ->
     max_k < 0 \/ Z.of_nat (cols output) < max_k ->
     accuracy_score output target top_k = Raise (RuntimeError topk_msg)) /\
  (forall max_k,
     py_max top_k = Ok max_k ->
     0 <= max_k <= Z.of_nat (cols output) ->
     length target <> length (rows output) -> length target <> 1%nat ->
     accuracy_score output target top_k
       = Raise (RuntimeError "expanded size must match the existing size")) /\
  (forall max_k,
     py_max top_k = Ok max_k ->
     0 <= max_k <= Z.of_nat (cols output) ->
     rows output = [] -> target = [] ->
     accuracy_score output target top_k = Raise ZeroDivisionError) /\
  (forall max_k,
     py_max top_k = Ok max_k ->
     0 <= max_k <= Z.of_nat (cols output) ->
     length target = length (rows output) \/ length target = 1%nat ->
     target <> [] ->
     (2 <= length (rows output))%nat ->
     Exists (fun k => (2 <= slice_rows k (Z.to_nat max_k))%nat) top_k ->
     accuracy_score output target top_k = Raise (RuntimeError view_msg)).
Proof.
  assert (target <> [] ->
          exists s, percent_factor (Z.of_nat (length target)) = Ok s) as Hfactor.
  { intros Hne. unfold percent_factor.
    destruct (Z.eqb_spec (Z.of_nat (length target)) 0) as [Hzero|]; [|eauto].
    destruct target; [done|cbn in Hzero; lia]. }
  split; [|split; [|split; [|split; [|split]]]].
  - split.
    + intros [res Hres].
      destruct (accuracy_score_ok_inv _ _ _ _ Hres) as (max_k & Hmax & Hrange & Hlen).
      exists max_k. split; [done|]. split; [done|]. split; [done|].
      destruct (accuracy_score_steps output target top_k max_k Hmax Hrange Hlen)
        as (correct & _ & Hrows & Heq).
      rewrite Heq in Hres. apply for_each_Forall2 in Hres. split.
      * intros ->. destruct top_k as [|k top_k]; [done|].
        inversion Hres as [|? ? ? ? Hk]; subst.
        apply score_inv in Hk as (s & Hs & _). by cbn in Hs.
      * destruct (Nat.le_gt_cases (length (rows output)) 1) as [|Hn]; [by left|].
        right. apply Forall_forall. intros k Hk.
        apply list_elem_of_lookup in Hk as [i Hi].
        destruct (Forall2_lookup_l _ _ _ _ _ Hres Hi) as (a & _ & Ha).
        apply score_inv in Ha as (s & _ & _ & [Hle|Hle]); [|lia].
        by rewrite length_slice_to, Hrows in Hle.
    + intros (max_k & Hmax & Hrange & Hlen & Hne & Hview).
      destruct (accuracy_score_steps output target top_k max_k Hmax Hrange Hlen)
        as (correct & _ & Hrows & ->).
      destruct (Hfactor Hne) as [s Hs].
      eexists. apply (for_each_map _ (fun k => mul_ (count_true (slice_to k correct)) s)).
      apply Forall_forall. intros k Hk. apply score_returns; [|exact Hs].
      destruct Hview as [Hn|Hall]; [by right|]. left.
      rewrite Forall_forall in Hall. rewrite length_slice_to, Hrows. by apply Hall.
  - intros ->. reflexivity.
  - intros max_k Hmax Hrange. unfold accuracy_score. rewrite Hmax. cbn [bind].
    unfold topk.
    destruct (Z.ltb_spec max_k 0); [done|].
    destruct (Z.ltb_spec (Z.of_nat (cols output)) max_k); [done|lia].
  - intros max_k Hmax Hrange Hn H1. unfold accuracy_score. rewrite Hmax.
    cbn [bind]. unfold topk.
    destruct (Z.ltb_spec max_k 0); [lia|].
    destruct (Z.ltb_spec (Z.of_nat (cols output)) max_k); [lia|].
    cbn [orb bind]. unfold expand.
    destruct (Nat.eqb_spec (length target) (length (rows output))); [done|].
    by destruct target as [|x [|y target]].
  - intros max_k Hmax Hrange Hrows ->.
    destruct (accuracy_score_steps output [] top_k max_k Hmax Hrange)
      as (correct & _ & _ & ->); [left; by rewrite Hrows|].
    destruct top_k as [|k top_k]; [done|]. cbn [for_each].
    rewrite view_flat_returns by (right; rewrite Hrows; cbn; lia).
    reflexivity.
  - intros max_k Hmax Hrange Hlen Hne Hn Hex.
    destruct (accuracy_score_steps output target top_k max_k Hmax Hrange Hlen)
      as (correct & _ & Hrows & ->).
    destruct (Hfactor Hne) as [s Hs].
    apply for_each_raises.
    + apply Forall_forall. intros k _.
      destruct (Nat.le_gt_cases (length (slice_to k correct)) 1) as [Hle|Hgt].
      * left. eexists. apply score_returns; [by left|exact Hs].
      * right. by rewrite view_flat_raises by lia.
    + eapply Exists_impl; [exact Hex|]. cbn. intros k Hk.
      rewrite view_flat_raises; [done| |done].
      by rewrite length_slice_to, Hrows.
Qed.

Lemma count_true_take_le (m : list (list bool)) (j : nat) :
  (count_true (take j m) <= count_true m)%nat.
Proof.
  rewrite <- (take_ge m (Nat.max j (length m))) at 2 by lia.
  apply count_true_take_mono. lia.
Qed.

Lemma top_k_hits_le {K : TopK} (k : nat) (output : Tensor2) (target : list Z) :
  (top_k_hits k output target <= length (rows output))%nat.
Proof.
  unfold top_k_hits.
  etransitivity; [apply List.filter_length_le|].
  rewrite length_zip_with. lia.
Qed.

(** The score at one position of the result, for a K that is not negative:
    the matches are counted against the labels after broadcasting, and the
    count is scaled by 100.0 over the number of labels. *)
Lemma accuracy_score_at {R : Rounding} {K : TopK} {HK : TopKLaws K}
    (output : Tensor2) (target : list Z) (top_k : list Z) (res : list Q)
    (i : nat) (k : Z) :
  well_shaped output ->
  accuracy_score output target top_k = Ok res ->
  top_k !! i = Some k -> 0 <= k ->
  res !! i =
    Some (mul_ (top_k_hits (Z.to_nat k) output
                  (broadcast_labels target (length (rows output))))
               (round64 (100 / inject_Z (Z.of_nat (length target))))).
Proof.
  intros Hws Hres Hi Hk.
  destruct (accuracy_score_ok_inv _ _ _ _ Hres) as (max_k & Hmax & Hrange & Hlen).
  destruct (py_max_spec _ _ Hmax) as [_ Hle].
  rewrite Forall_forall in Hle.
  assert (k <= max_k) as Hkm by (apply Hle; by eapply list_elem_of_lookup_2).
  destruct (accuracy_score_steps output target top_k max_k Hmax Hrange Hlen)
    as (correct & Hcorrect & _ & Heq).
  rewrite Heq in Hres.
  destruct (for_each_lookup _ _ _ _ _ Hres Hi) as (a & -> & Ha).
  apply score_inv in Ha as (s & Hs & -> & _).
  unfold percent_factor in Hs.
  destruct (Z.of_nat (length target) =? 0); [done|].
  injection Hs as <-. do 2 f_equal.
  rewrite slice_to_nonneg by done. subst correct.
  apply correct_counts_hits; [done|lia|lia].
Qed.

(** X4.  For a batch with as many labels as score vectors, the result of
    [accuracy_score] has one score per requested K, and no score is below 0
    or above the score of a batch in which every example matches; in exact
    arithmetic that bound is 100.  This holds for every monotone rounding,
    hence for the floats of the code, and for every order of equal
    scores. *)
Theorem accuracy_score_between_0_and_100
    {R : Rounding} {K : TopK} (HR : RoundingLaws R) (HK : TopKLaws K)
    (output : Tensor2) (target : list Z) (top_k : list Z) (res : list Q)
    (Hshape : well_shaped output)
    (Hlabels : length target = length (rows output))
    (Hres : accuracy_score output target top_k = Ok res) :
  length res = length top_k /\
  Forall (fun a => (0 <= a <= percentage (length (rows output)) (length (rows output)))%Q)
         res /\
  (Exact R ->
   (percentage (length (rows output)) (length (rows output)) == 100)%Q).
Proof.
  destruct (accuracy_score_ok_inv _ _ _ _ Hres) as (max_k & Hmax & Hrange & Hlen).
  destruct (accuracy_score_steps output target top_k max_k Hmax Hrange Hlen)
    as (correct & Hcorrect & Hrows & Heq).
  unfold broadcast_labels in Hcorrect. rewrite Hlabels, Nat.eqb_refl in Hcorrect.
  rewrite Heq in Hres. apply for_each_Forall2 in Hres.
  assert (length (rows output) <> 0)%nat as Hn.
  { intros Hn. destruct top_k as [|k top_k]; [done|].
    inversion Hres as [|? ? ? ? Hk]; subst.
    apply score_inv in Hk as (s & Hs & _). unfold percent_factor in Hs.
    rewrite Hlabels, Hn in Hs. done. }
  split; [symmetry; by eapply Forall2_length|]. split.
  - apply Forall_forall. intros a Ha.
    apply list_elem_of_lookup in Ha as [i Hi].
    destruct (Forall2_lookup_r _ _ _ _ _ Hres Hi) as (k & _ & Hk).
    apply score_inv in Hk as (s & Hs & -> & _).
    rewrite Hlabels in Hs.
    pose proof (percent_factor_nonneg HR _ _ Hs) as Hs0.
    unfold percent_factor in Hs.
    destruct (Z.of_nat (length (rows output)) =? 0); [done|]. injection Hs as <-.
    split.
    + unfold mul_. apply (round32_nonneg HR).
      apply Qmult_le_0_compat; [|by apply (round32_nonneg HR)].
      change 0%Q with (inject_Z 0). rewrite <- Zle_Qle. lia.
    + unfold percentage. apply (mul__mono HR); [|done].
      assert (exists j, slice_to k correct = take j correct) as [j' ->].
      { unfold slice_to. destruct (k <? 0); eauto. }
      etransitivity; [apply count_true_take_le|].
      rewrite <- (take_ge correct (Z.to_nat max_k)) by lia.
      subst correct. rewrite correct_counts_hits by (done || lia).
      apply top_k_hits_le.
  - intros HE. rewrite (percentage_exact HE). field.
    change 0%Q with (inject_Z 0). rewrite inject_Z_injective. lia.
Qed.

(** X4 on the batch of one example with K = 1, 2, 3. *)
Lemma accuracy_score_between_0_and_100_witness :
  length [0 # 1; 100 # 1; 100 # 1] = length [1; 2; 3] /\
  Forall (fun a => (0 <= a <= percentage (R := exact_rounding) 1 1)%Q)
         [0 # 1; 100 # 1; 100 # 1] /\
  (Exact exact_rounding -> (percentage (R := exact_rounding) 1 1 == 100)%Q).
Proof.
  apply (accuracy_score_between_0_and_100 exact_rounding_laws lower_index_first_laws
           single_output [2] [1; 2; 3]).
  - repeat constructor.
  - reflexivity.
  - reflexivity.
Defined.

Section AllClasses.

Context {K : TopK} {HK : TopKLaws K}.



End AllClasses.



(** X6.  A single label for a batch of several score vectors is accepted:
    torch broadcasts it, so every example is compared with that label, and
    the count is scaled by 100.0 / 1.  The score is then the number of
    matching examples times 100, which exceeds 100 as soon as two examples
    match. *)
Theorem accuracy_score_single_label_is_broadcast
    {R : Rounding} {K : TopK} (HK : TopKLaws K)
    (output : Tensor2) (t : Z) (top_k : list Z)
    (res : list Q) (i : nat) (k : Z)
    (Hshape : well_shaped output)
    (Hbatch : length (rows output) <> 1%nat)
    (Hres : accuracy_score output [t] top_k = Ok res)
    (Hi : top_k !! i = Some k)
    (Hk : 0 <= k) :
  res !! i =
    Some (mul_ (top_k_hits (Z.to_nat k) output
                  (replicate (length (rows output)) t))
               (round64 (100 / 1))).
Proof.
  rewrite (accuracy_score_at output [t] top_k res i k Hshape Hres Hi Hk).
  unfold broadcast_labels. cbn [length].
  destruct (Nat.eqb_spec 1 (length (rows output))) as [Heq|_]; [by rewrite <- Heq in Hbatch|].
  reflexivity.
Qed.

(** X6 on the batch of three examples with the single label 0: the second
    and the third example have their highest score at index 0, and the
    top-1 score is 200. *)
Lemma accuracy_score_single_label_is_broadcast_witness :
  accuracy_score (R := exact_rounding) (K := lower_index_first) example_output [0] [1]
    = Ok [200 # 1] /\
  [200 # 1] !! 0%nat =
    Some (mul_ (R := exact_rounding)
            (top_k_hits (K := lower_index_first) (Z.to_nat 1) example_output
               (replicate (length (rows example_output)) 0))
            (round64 (Rounding := exact_rounding) (100 / 1))).
Proof.
  split; [reflexivity|].
  apply (accuracy_score_single_label_is_broadcast (R := exact_rounding)
           lower_index_first_laws example_output 0 [1] [200 # 1] 0 1).
  - repeat constructor.
  - discriminate.
  - reflexivity.
  - reflexivity.
  - lia.
Defined.

(** ** process_image: what it accepts and what each entry holds *)

Lemma process_image_inv {C : Image.Codec} (image : Image.t) (out_size : Z)
    (arr : ndarray) :
  process_image image out_size = Ok arr ->
  exists (rw rh left upper : Z) (resized : Image.t),
    resized_size (fst (Image.size image)) (snd (Image.size image)) out_size
      = Ok (rw, rh) /\
    Image.resize image rw rh = Ok resized /\
    Image.size resized = (rw, rh) /\
    crop_offset rw out_size = Ok left /\
    crop_offset rh out_size = Ok upper /\
    Image.bands image = 3%nat /\
    0 <= out_size /\
    arr = transpose_201
            (map (fun y => map (fun x =>
                    normalize_pixel (cropped_pixel resized left upper x y))
                    (seqZ 0 out_size))
                 (seqZ 0 out_size)).
Proof.
  unfold process_image. destruct (Image.size image) as [w h]. cbn [fst snd].
  destruct (resized_size w h out_size) as [[rw rh]|e]; [|done]. cbn [bind fst snd].
  destruct (Image.resize image rw rh) as [im1|e] eqn:Hr; [|done]. cbn [bind].
  assert (Image.size im1 = (rw, rh) /\ Image.bands im1 = Image.bands image)
    as [Hsz Hb].
  { unfold Image.resize in Hr. destruct (_ || _); [done|]. by injection Hr as <-. }
  rewrite Hsz. cbn [fst snd].
  destruct (crop_offset rw out_size) as [left|e] eqn:Hleft; [|done]. cbn [bind].
  destruct (crop_offset rh out_size) as [upper|e] eqn:Hupper; [|done]. cbn [bind].
  unfold Image.crop.
  destruct (Z.ltb_spec (left + out_size) left) as [|Hl]; [done|].
  destruct (Z.ltb_spec (upper + out_size) upper); [done|].
  cbn [orb bind]. unfold normalize. cbn [Image.bands].
  destruct (Nat.eqb_spec (Image.bands im1) 3) as [Hb3|]; [|done].
  cbn [bind]. intros Harr. injection Harr as <-.
  exists rw, rh, left, upper, im1.
  split; [done|]. split; [done|]. split; [done|]. split; [done|].
  split; [done|]. split; [congruence|]. split; [lia|].
  f_equal. unfold Image.to_array. cbn [Image.size Image.pixel fst snd].
  replace (left + out_size - left) with out_size by lia.
  replace (upper + out_size - upper) with out_size by lia.
  rewrite map_map. apply map_ext. intros y.
  rewrite map_map. apply map_ext. intros x.
  reflexivity.
Qed.

(** X7.  [process_image] returns only for an image with three bands and a
    target size that is not negative, and what it returns has three planes
    of [out_size] rows of [out_size] entries: the channel comes first. *)
Theorem process_image_only_rgb_and_square
    {C : Image.Codec} (image : Image.t) (out_size : Z) (arr : ndarray)
    (Hret : process_image image out_size = Ok arr) :
  Image.bands image = 3%nat /\
  0 <= out_size /\
  length arr = 3%nat /\
  Forall (fun plane =>
            length plane = Z.to_nat out_size /\
            Forall (fun row => length row = Z.to_nat out_size) plane) arr.
Proof.
  destruct (process_image_shape _ _ _ Hret) as [Hlen Hplanes].
  apply process_image_inv in Hret
    as (rw & rh & left & upper & resized & _ & _ & _ & _ & _ & Hb & Hs & _).
  done.
Qed.

(** X7 on the picture of 2 x 1 pixels. *)
Lemma process_image_only_rgb_and_square_witness :
  exists arr : ndarray,
    process_image (C := raw_codec) rose_image 299 = Ok arr /\
    Image.bands rose_image = 3%nat /\
    0 <= 299 /\
    length arr = 3%nat /\
    Forall (fun plane =>
              length plane = Z.to_nat 299 /\
              Forall (fun row => length row = Z.to_nat 299) plane) arr.
Proof.
  destruct rose_processed as [arr Harr]. exists arr. split; [exact Harr|].
  exact (process_image_only_rgb_and_square rose_image 299 arr Harr).
Defined.

(** X8.  The entry of the result at channel [c], row [y] and column [x] is
    the normalised value of band [c] of the pixel that the centre crop takes
    from the resized image: the band value divided by 255, minus the mean of
    the channel, divided by its standard deviation. *)
Theorem process_image_entry
    {C : Image.Codec} (image : Image.t) (out_size : Z) (arr : ndarray)
    (c y x : nat)
    (Hret : process_image image out_size = Ok arr)
    (Hc : (c < 3)%nat)
    (Hy : (y < Z.to_nat out_size)%nat)
    (Hx : (x < Z.to_nat out_size)%nat) :
  exists (rw rh left upper : Z) (resized : Image.t)
         (plane : list (list PyFloat.float)) (row : list PyFloat.float),
    resized_size (fst (Image.size image)) (snd (Image.size image)) out_size
      = Ok (rw, rh) /\
    Image.resize image rw rh = Ok resized /\
    crop_offset rw out_size = Ok left /\
    crop_offset rh out_size = Ok upper /\
    arr !! c = Some plane /\
    plane !! y = Some row /\
    row !! x =
      Some (nth c (normalize_pixel
                     (cropped_pixel resized left upper (Z.of_nat x) (Z.of_nat y)))
                PyFloat.zero).
Proof.
  apply process_image_inv in Hret
    as (rw & rh & left & upper & resized & Hsz & Hr & _ & Hl & Hu & _ & Hs & ->).
  exists rw, rh, left, upper, resized. eexists _, _.
  split; [exact Hsz|]. split; [exact Hr|]. split; [exact Hl|]. split; [exact Hu|].
  unfold transpose_201.
  change (map ?f (seq 0 3) !! c) with ((f <$> seq 0 3) !! c).
  rewrite list_lookup_fmap, (lookup_seq_lt 0 3 c Hc). cbn [fmap option_fmap option_map Nat.add].
  split; [reflexivity|].
  change (map ?f (map ?g (seqZ 0 out_size)) !! y)
    with ((f <$> (g <$> seqZ 0 out_size)) !! y).
  rewrite !list_lookup_fmap, (lookup_seqZ_lt 0 out_size y) by lia.
  cbn [fmap option_fmap option_map].
  split; [reflexivity|].
  change (map ?f (map ?g (seqZ 0 out_size)) !! x)
    with ((f <$> (g <$> seqZ 0 out_size)) !! x).
  rewrite !list_lookup_fmap, (lookup_seqZ_lt 0 out_size x) by lia.
  cbn [fmap option_fmap option_map]. rewrite !Z.add_0_l. reflexivity.
Qed.

(** X8 on the picture of 2 x 1 pixels, at the first entry of the red
    plane. *)
Lemma process_image_entry_witness :
  exists (arr : ndarray) (left upper : Z) (resized : Image.t)
         (plane : list (list PyFloat.float)) (row : list PyFloat.float),
    process_image (C := raw_codec) rose_image 299 = Ok arr /\
    arr !! 0%nat = Some plane /\
    plane !! 0%nat = Some row /\
    row !! 0%nat =
      Some (nth 0 (normalize_pixel (cropped_pixel resized left upper 0 0))
                PyFloat.zero).
Proof.
  destruct rose_processed as [arr Harr].
  destruct (process_image_entry (C := raw_codec) rose_image 299 arr 0 0 0 Harr)
    as (rw & rh & left & upper & resized & plane & row & _ & _ & _ & _ & H);
    [lia|lia|lia|].
  exists arr, left, upper, resized, plane, row. split; [exact Harr|exact H].
Defined.

(** ** predict: its effect on the model, its labels and its errors *)

(** X9.  [predict] changes the model exactly when the image was read and
    preprocessed: from then on, and whatever happens later (the forward pass
    fails, K is out of range, the mapping is missing), the model it was given
    is in double precision, on the cpu and in evaluation mode.  When the file
    is missing or cannot be read or preprocessed, the model is as before. *)
Theorem predict_effect_on_model
    {C : Image.Codec} {R : Rounding} {K : TopK} {T : Torch}
    (fs : FileSystem) (image_path : string) (model : Model.t) (topk : Z) :
  (forall (im : Image.t) (img : ndarray),
     os_path_isfile fs image_path = true ->
     Image.open fs image_path = Ok im ->
     process_image im 299 = Ok img ->
     fst (predict fs image_path model topk) = prepared model /\
     Model.dtype (prepared model) = Float64 /\
     Model.device (prepared model) = "cpu" /\
     Model.training (prepared model) = false /\
     Model.state_dict (prepared model) = Model.state_dict model) /\
  (os_path_isfile fs image_path = false ->
   fst (predict fs image_path model topk) = model) /\
  (forall e, Image.open fs image_path = Raise e ->
   fst (predict fs image_path model topk) = model) /\
  (forall im e, Image.open fs image_path = Ok im ->
   process_image im 299 = Raise e ->
   fst (predict fs image_path model topk) = model).
Proof.
  split; [|split; [|split]].
  - intros im img Hfile Hopen Himg. unfold predict.
    rewrite Hfile, Hopen. cbn [negb bind]. by rewrite Himg.
  - intros Hfile. unfold predict. by rewrite Hfile.
  - intros e Hopen. unfold predict.
    destruct (os_path_isfile fs image_path); [|done]. by rewrite Hopen.
  - intros im e Hopen Himg. unfold predict.
    destruct (os_path_isfile fs image_path); [|done].
    rewrite Hopen. cbn [negb bind]. by rewrite Himg.
Qed.

(** X10.  When K is negative or above the number of outputs of the network,
    [predict] raises RuntimeError, after it has read the image and changed
    the model; with its default K = 5 this is the case for every model with
    fewer than five classes. *)
Theorem predict_k_out_of_range
    {C : Image.Codec} {R : Rounding} {K : TopK} {T : Torch}
    (fs : FileSystem) (image_path : string) (model : Model.t) (k : Z)
    (im : Image.t) (img : ndarray) (output : list Q)
    (Hfile : os_path_isfile fs image_path = true)
    (Hopen : Image.open fs image_path = Ok im)
    (Himg : process_image im 299 = Ok img)
    (Hforward : forward (prepared model) img = Some output)
    (Hk : k < 0 \/ Z.of_nat (length output) < k) :
  predict fs image_path model k
    = (prepared model, Raise (RuntimeError topk_msg)).
Proof.
  unfold predict. rewrite Hfile, Hopen. cbn [negb bind]. rewrite Himg.
  fold (prepared model). rewrite Hforward. cbn [bind].
  unfold topk_output, topk. cbn [cols].
  destruct (Z.ltb_spec k 0); [done|].
  destruct (Z.ltb_spec (Z.of_nat (length output)) k); [done|lia].
Qed.

(** X10 on the picture "rose.raw" and the model of three classes, with the
    default K = 5. *)
Lemma predict_k_out_of_range_witness :
  predict (C := raw_codec) (R := exact_rounding) (K := lower_index_first)
    (T := bias_network) example_files "rose.raw" example_model 5
    = (prepared example_model, Raise (RuntimeError topk_msg)).
Proof.
  destruct rose_processed as [img Himg].
  apply (predict_k_out_of_range (C := raw_codec) (T := bias_network)
           example_files "rose.raw" example_model 5
           rose_image img [1 # 1; 3 # 1; 2 # 1]
           rose_is_file rose_opens Himg eq_refl).
  right. change (3 < 5). lia.
Defined.

Lemma foldl_insert_lookup_other (l : list (Z * string)) (d : gmap Z string) (i : Z) :
  i ∉ l.*1 ->
  foldl (fun d e => <[fst e := snd e]> d) d l !! i = d !! i.
Proof.
  revert d. induction l as [|[j c] l IH]; intros d Hi; [done|].
  cbn [fmap list_fmap fst] in Hi. apply not_elem_of_cons in Hi as [Hne Hi].
  cbn [foldl fst snd]. rewrite IH by done. by rewrite lookup_insert_ne.
Qed.

Lemma zip_fmap_swap (items : list (string * Z)) :
  zip items.*2 items.*1 = (fun e => (snd e, fst e)) <$> items.
Proof. induction items as [|[c i] items IH]; [done|]. cbn. by rewrite IH. Qed.

(** The inverted dictionary sends an index to the last class that the
    mapping sends to it. *)
Lemma dict_zip_lookup_last (l1 l2 : list (string * Z)) (c : string) (i : Z) :
  i ∉ l2.*2 ->
  dict_zip (l1 ++ (c, i) :: l2).*2 (l1 ++ (c, i) :: l2).*1 !! i = Some c.
Proof.
  intros Hi. unfold dict_zip. rewrite zip_fmap_swap, fmap_app, foldl_app.
  cbn [fmap list_fmap foldl fst snd].
  rewrite foldl_insert_lookup_other; [apply lookup_insert_eq|].
  rewrite <- list_fmap_compose.
  replace (fst ∘ (fun e : string * Z => (snd e, fst e))) with (@snd string Z); [done|].
  reflexivity.
Qed.

(** X11.  The label of a selected index is the class the mapping sends to
    that index; when several classes are sent to the same index, it is the
    last of them in the order of the mapping. *)
Theorem predict_label_is_last_class_of_index
    {C : Image.Codec} {R : Rounding} {K : TopK} {T : Torch}
    (fs : FileSystem) (image_path : string) (model model' : Model.t) (topk : Z)
    (probs : list Q) (labels : list (option string)) (img : ndarray)
    (l1 l2 : list (string * Z)) (c : string) (i : Z)
    (Hret : predict fs image_path model topk = (model', Ok (probs, labels, img)))
    (Hitems : Model.class_to_idx model = Some (l1 ++ (c, i) :: l2))
    (Hlast : i ∉ l2.*2) :
  exists (output vals : list Q) (idxs : list Z),
    forward model' img = Some output /\
    topk_output output topk = Ok (vals, idxs) /\
    length labels = length idxs /\
    forall j : nat, idxs !! j = Some i -> labels !! j = Some (Some c).
Proof.
  apply predict_ok_inv in Hret
    as (_ & _ & im & output & vals & idxs & items & _ & _ & Hf & Htk & Hit & _ & -> & _).
  rewrite Hitems in Hit. injection Hit as <-.
  exists output, vals, idxs. split; [exact Hf|]. split; [exact Htk|].
  split; [by rewrite length_map|].
  intros j Hj. change (map ?f idxs !! j) with ((f <$> idxs) !! j).
  rewrite list_lookup_fmap, Hj. cbn [fmap option_fmap option_map].
  by rewrite dict_zip_lookup_last.
Qed.

(** X11 on the picture "rose.raw": the index 1 is selected first and the
    mapping sends "74" to it. *)
Lemma predict_label_is_last_class_of_index_witness :
  exists (probs : list Q) (labels : list (option string))
         (img : ndarray) (output vals : list Q) (idxs : list Z),
    predict (C := raw_codec) (R := exact_rounding) (K := lower_index_first)
      (T := bias_network) example_files "rose.raw" example_model 2
      = (prepared example_model, Ok (probs, labels, img)) /\
    forward (Torch := bias_network) (prepared example_model) img = Some output /\
    topk_output (K := lower_index_first) output 2 = Ok (vals, idxs) /\
    length labels = length idxs /\
    forall j : nat, idxs !! j = Some 1 -> labels !! j = Some (Some "74").
Proof.
  destruct rose_predicted_2 as (img & _ & Hret).
  destruct (predict_label_is_last_class_of_index (C := raw_codec)
              (R := exact_rounding) (K := lower_index_first) (T := bias_network)
              example_files "rose.raw" example_model _ 2 _ _ img
              [("3", 0)] [] "74" 1 Hret eq_refl)
    as (output & vals & idxs & H); [apply not_elem_of_nil|].
  eexists _, _, img, output, vals, idxs. split; [exact Hret|exact H].
Defined.

(** X12.  What [predict] returns has K probabilities and K labels, for a K
    that is not negative, and the array of the preprocessed image with
    3 x 299 x 299 entries. *)
Theorem predict_result_shape
    {C : Image.Codec} {R : Rounding} {K : TopK} {T : Torch} (HK : TopKLaws K)
    (fs : FileSystem) (image_path : string) (model model' : Model.t) (k : Z)
    (probs : list Q) (labels : list (option string)) (img : ndarray)
    (Hret : predict fs image_path model k = (model', Ok (probs, labels, img))) :
  0 <= k /\
  length probs = Z.to_nat k /\
  length labels = Z.to_nat k /\
  length img = 3%nat /\
  Forall (fun plane =>
            length plane = 299%nat /\
            Forall (fun row => length row = 299%nat) plane) img.
Proof.
  apply predict_ok_inv in Hret
    as (_ & _ & im & output & vals & idxs & items & _ & Himg & _ & Htk & _ & _ & -> & ->).
  apply topk_output_inv in Htk as (Hrange & -> & ->).
  split; [lia|].
  split; [rewrite length_softmax, length_fmap; apply length_topk_row; lia|].
  split; [rewrite length_map; apply length_topk_indices; lia|].
  apply (process_image_shape _ _ _ Himg).
Qed.

(** X12 on the picture "rose.raw" with K = 2. *)
Lemma predict_result_shape_witness :
  exists (probs : list Q) (labels : list (option string)) (img : ndarray),
    predict (C := raw_codec) (R := exact_rounding) (K := lower_index_first)
      (T := bias_network) example_files "rose.raw" example_model 2
      = (prepared example_model, Ok (probs, labels, img)) /\
    0 <= 2 /\
    length probs = Z.to_nat 2 /\
    length labels = Z.to_nat 2 /\
    length img = 3%nat /\
    Forall (fun plane =>
              length plane = 299%nat /\
              Forall (fun row => length row = 299%nat) plane) img.
Proof.
  destruct rose_predicted_2 as (img & _ & Hret).
  eexists _, _, img. split; [exact Hret|].
  exact (predict_result_shape (C := raw_codec) (R := exact_rounding)
           (T := bias_network) lower_index_first_laws
           example_files "rose.raw" example_model _ 2 _ _ img Hret).
Defined.

(** X13.  The probabilities [predict] returns do not increase along the
    list: the most probable class comes first.  This holds in the floats of
    the code, whose rounding is monotone; it needs an exponential that is
    positive and grows with its argument. *)
Theorem predict_probabilities_descend
    {C : Image.Codec} {R : Rounding} {K : TopK} {T : Torch}
    (HR : RoundingLaws R) (HK : TopKLaws K)
    (HT : TorchLaws T) (HM : TorchMonotone T)
    (fs : FileSystem) (image_path : string) (model model' : Model.t) (k : Z)
    (probs : list Q) (labels : list (option string)) (img : ndarray)
    (i j : nat) (p q : Q)
    (Hret : predict fs image_path model k = (model', Ok (probs, labels, img)))
    (Hij : (i <= j)%nat)
    (Hp : probs !! i = Some p)
    (Hq : probs !! j = Some q) :
  (q <= p)%Q.
Proof.
  apply predict_ok_inv in Hret
    as (_ & _ & im & output & vals & idxs & items & _ & _ & _ & Htk & _ & _ & _ & ->).
  apply topk_output_inv in Htk as (_ & -> & _).
  assert (i < length (topk_row (Z.to_nat k) output).*2)%nat as Hi.
  { rewrite <- length_softmax. by eapply lookup_lt_Some. }
  assert (j < length (topk_row (Z.to_nat k) output).*2)%nat as Hj.
  { rewrite <- length_softmax. by eapply lookup_lt_Some. }
  destruct (lookup_lt_is_Some_2 _ _ Hi) as [x Hx].
  destruct (lookup_lt_is_Some_2 _ _ Hj) as [y Hy].
  apply (softmax_mono HR HT HM _ i j x y p q Hx Hy); [|done|done].
  rewrite list_lookup_fmap in Hx, Hy.
  destruct (topk_row (Z.to_nat k) output !! i) as [a|] eqn:Ha; [|done].
  destruct (topk_row (Z.to_nat k) output !! j) as [b|] eqn:Hb; [|done].
  injection Hx as <-. injection Hy as <-.
  apply (sorted_lookup_ge _ _ _ _ _ (topk_row_sorted _ _) Hij Ha Hb).
Qed.

Lemma bias_network_monotone : TorchMonotone bias_network.
Proof.
  constructor. intros x y Hxy. cbn.
  apply Qpower_le_compat_l; [by apply Qfloor_resp_le|done].
Qed.

(** X13 on the picture "rose.raw" with K = 2: 1/3 is not above 2/3. *)
Lemma predict_probabilities_descend_witness : (2 # 6 <= 2 # 3)%Q.
Proof.
  destruct rose_predicted_2 as (img & _ & Hret).
  apply (predict_probabilities_descend (C := raw_codec) (T := bias_network)
           exact_rounding_laws lower_index_first_laws
           bias_network_laws bias_network_monotone
           example_files "rose.raw" example_model _ 2 _ _ img 0 1 _ _ Hret);
    [lia|reflexivity|reflexivity].
Defined.

(** X14.  A model that [load_checkpoint] returned when it was given none has
    no class-to-index mapping, so [predict] never returns for it; once the
    image is read, the network has run and K is in range, the call raises
    AttributeError. *)
Theorem predict_fails_on_reloaded_model
    {C : Image.Codec} {R : Rounding} {K : TopK} {T : Torch}
    (train_dir filename : string) (fs : FileSystem)
    (reloaded : Model.t) (optimizer : Optimizer)
    (Hload : load_checkpoint train_dir None filename fs = Ok (reloaded, optimizer)) :
  (forall (fs' : FileSystem) (image_path : string) (k : Z)
          (r : list Q * list (option string) * ndarray),
     snd (predict fs' image_path reloaded k) <> Ok r) /\
  (forall (fs' : FileSystem) (image_path : string) (k : Z)
          (im : Image.t) (img : ndarray) (output : list Q),
     os_path_isfile fs' image_path = true ->
     Image.open fs' image_path = Ok im ->
     process_image im 299 = Ok img ->
     forward (prepared reloaded) img = Some output ->
     0 <= k <= Z.of_nat (length output) ->
     snd (predict fs' image_path reloaded k)
       = Raise (AttributeError "class_to_idx")).
Proof.
  assert (Model.class_to_idx reloaded = None) as Hnone.
  { unfold load_checkpoint in Hload.
    destruct (find_classes fs train_dir) as [classes|e]; [|done].
    cbn [bind] in Hload.
    destruct (torch_load fs filename) as [ck|e]; [|done]. cbn [bind] in Hload.
    destruct (Model.load_state_dict _ _) as [m|e] eqn:Hm; [|done].
    cbn [bind] in Hload.
    destruct (SGD _ _) as [o|e]; [|done]. cbn [bind] in Hload.
    destruct (optimizer_load_state_dict _ _) as [o'|e]; [|done].
    cbn [bind] in Hload. injection Hload as <- <-.
    by apply load_state_dict_inv in Hm as (_ & _ & -> & _). }
  split.
  - intros fs' image_path k [[probs labels] img] Hret.
    destruct (predict fs' image_path reloaded k) as [m' r] eqn:Hp.
    cbn [snd] in Hret. subst r.
    apply predict_ok_inv in Hp as (_ & _ & ? & ? & ? & ? & ? & _ & _ & _ & _ & Hc & _).
    congruence.
  - intros fs' image_path k im img output Hfile Hopen Himg Hf Hk.
    unfold predict. rewrite Hfile, Hopen. cbn [negb bind]. rewrite Himg.
    fold (prepared reloaded). rewrite Hf. cbn [bind snd].
    rewrite (topk_output_returns _ _ Hk). cbn [bind].
    change (Model.class_to_idx (prepared reloaded)) with (Model.class_to_idx reloaded).
    by rewrite Hnone.
Qed.

(** X14 on the example model, saved and reloaded. *)
Lemma predict_fails_on_reloaded_model_witness :
  exists (reloaded : Model.t) (optimizer : Optimizer),
    load_checkpoint (T := bias_network) "flowers/train" None "./checkpoint.pth"
      (fst (save_checkpoint example_model "./checkpoint.pth" example_files))
      = Ok (reloaded, optimizer) /\
    snd (predict (C := raw_codec) (R := exact_rounding) (K := lower_index_first)
           (T := bias_network) example_files "rose.raw" reloaded 2)
      = Raise (AttributeError "class_to_idx").
Proof.
  eexists _, _. split; [by vm_compute|].
  destruct rose_processed as [img Himg].
  eapply (predict_fails_on_reloaded_model (C := raw_codec) (R := exact_rounding)
            (K := lower_index_first) (T := bias_network)
            "flowers/train" "./checkpoint.pth"
            (fst (save_checkpoint example_model "./checkpoint.pth" example_files))
            _ _ ltac:(by vm_compute)).
  - exact rose_is_file.
  - exact rose_opens.
  - exact Himg.
  - reflexivity.
  - change (0 <= 2 <= 3). lia.
Defined.

(** ** save_checkpoint and load_checkpoint: files, errors, what is restored *)

(** X15.  [save_checkpoint] writes nothing unless it succeeds: when it
    raises, the files are as before.  It raises AttributeError as soon as
    one of the attributes epoch, optimizer_state, best_acc, class_to_idx,
    n_classes was never assigned; a model fresh from [NewModel] cannot be
    saved. *)
Theorem save_checkpoint_failure_writes_nothing
    (model : Model.t) (filename : string) (fs : FileSystem) :
  (snd (save_checkpoint model filename fs) <> Ok tt ->
   fst (save_checkpoint model filename fs) = fs) /\
  (Model.epoch model = None \/ Model.optimizer_state model = None \/
   Model.best_acc model = None \/ Model.class_to_idx model = None \/
   Model.n_classes model = None ->
   exists name,
     save_checkpoint model filename fs = (fs, Raise (AttributeError name))) /\
  (forall (T : Torch) (n : nat),
     save_checkpoint (NewModel n) filename fs
       = (fs, Raise (AttributeError "epoch"))).
Proof.
  split; [|split].
  - unfold save_checkpoint, getattr, torch_save.
    destruct (Model.epoch model); [|done].
    destruct (Model.optimizer_state model); [|done].
    destruct (Model.best_acc model); [|done].
    destruct (Model.class_to_idx model); [|done].
    destruct (Model.n_classes model); [|done].
    cbn [bind]. by destruct (fs !! filename) as [[|d]|].
  - unfold save_checkpoint, getattr.
    destruct (Model.epoch model); [|eauto].
    destruct (Model.optimizer_state model); [|eauto].
    destruct (Model.best_acc model); [|eauto].
    destruct (Model.class_to_idx model); [|eauto].
    destruct (Model.n_classes model); [|eauto].
    intros [|[|[|[|]]]]; done.
  - reflexivity.
Qed.



Lemma load_checkpoint_inv {T : Torch} (train_dir : string)
    (model : option Model.t) (filename : string) (fs : FileSystem)
    (m' : Model.t) (o : Optimizer) :
  load_checkpoint train_dir model filename fs = Ok (m', o) ->
  exists (m0 : Model.t) (ck : Checkpoint),
    match model with
    | Some m => m0 = m
    | None => exists classes, find_classes fs train_dir = Ok classes /\
                              m0 = NewModel (length classes)
    end /\
    torch_load fs filename = Ok ck /\
    Model.load_state_dict m0 (ck_state_dict ck) = Ok m' /\
    Model.trainable m' <> [] /\
    length (Model.trainable m') = os_n_params (ck_optimizer_state_dict ck) /\
    o = mkOptimizer (os_hyper (ck_optimizer_state_dict ck)) (Model.trainable m')
                    (os_buffers (ck_optimizer_state_dict ck)).
Proof.
  unfold load_checkpoint. intros Hload.
  assert (exists m0, match model with
                     | Some m => Ok m
                     | None => classes <~ find_classes fs train_dir ;
                               Ok (NewModel (length classes))
                     end = Ok m0 /\
                     match model with
                     | Some m => m0 = m
                     | None => exists classes, find_classes fs train_dir = Ok classes /\
                                               m0 = NewModel (length classes)
                     end) as (m0 & Hm0 & Hm0').
  { destruct model as [m|]; [eauto|].
    destruct (find_classes fs train_dir) as [classes|e]; [|done]. eauto. }
  rewrite Hm0 in Hload. cbn [bind] in Hload.
  destruct (torch_load fs filename) as [ck|e]; [|done]. cbn [bind] in Hload.
  destruct (Model.load_state_dict _ _) as [m|e] eqn:Hm; [|done].
  cbn [bind] in Hload. unfold SGD in Hload.
  destruct (Model.trainable m) as [|p ps] eqn:Hps; [done|]. cbn [bind] in Hload.
  unfold optimizer_load_state_dict in Hload. cbn [params hyper] in Hload.
  destruct (Nat.eqb_spec (length (p :: ps)) (os_n_params (ck_optimizer_state_dict ck)))
    as [Hn|]; [|done].
  cbn [bind] in Hload. injection Hload as <- <-.
  exists m0, ck. rewrite Hps. done.
Qed.

Lemma assoc_NoDup {A : Type} (l : list (string * A)) (n : string) (a : A) :
  NoDup l.*1 -> (n, a) ∈ l -> assoc n l = Some a.
Proof.
  induction l as [|[m b] l IH]; intros Hnd Hin; [by apply elem_of_nil in Hin|].
  cbn [fmap list_fmap fst] in Hnd. apply NoDup_cons in Hnd as [Hm Hnd].
  cbn [assoc]. apply elem_of_cons in Hin as [[= <- <-]|Hin].
  - by rewrite String.eqb_refl.
  - destruct (String.eqb_spec m n) as [->|_]; [|by apply IH].
    exfalso. apply Hm. apply list_elem_of_fmap. by exists (n, a).
Qed.

Lemma state_eq_by_names (l sd : list (string * Tensor)) :
  NoDup sd.*1 -> l.*1 = sd.*1 ->
  Forall (fun e => assoc (fst e) sd = Some (snd e)) l ->
  l = sd.
Proof.
  intros Hnd Hnames Hall. apply list_eq. intros i.
  pose proof (f_equal (fun x => x !! i) Hnames) as Hi. cbn in Hi.
  rewrite !list_lookup_fmap in Hi.
  destruct (l !! i) as [[n t]|] eqn:Hl, (sd !! i) as [[n' t']|] eqn:Hs;
    cbn in Hi; try done.
  injection Hi as <-. rewrite Forall_forall in Hall.
  pose proof (Hall (n, t) (list_elem_of_lookup_2 _ _ _ Hl)) as Ht. cbn in Ht.
  rewrite (assoc_NoDup sd n t' Hnd (list_elem_of_lookup_2 _ _ _ Hs)) in Ht.
  by injection Ht as <-.
Qed.

(** X17.  When the model that receives the weights names its tensors as the
    saved model did, in the same order and without a name twice, loading
    after saving gives it the saved state dict as a whole: the weights after
    the round trip are the weights before. *)
Theorem load_after_save_restores_state_dict {T : Torch}
    (train_dir filename : string) (given : option Model.t)
    (model : Model.t) (fs fs' : FileSystem)
    (reloaded : Model.t) (optimizer : Optimizer)
    (Hsave : save_checkpoint model filename fs = (fs', Ok tt))
    (Hload : load_checkpoint train_dir given filename fs' = Ok (reloaded, optimizer))
    (Hnames : (Model.state_dict reloaded).*1 = (Model.state_dict model).*1)
    (Hnodup : NoDup (Model.state_dict model).*1) :
  Model.state_dict reloaded = Model.state_dict model.
Proof.
  apply save_checkpoint_inv in Hsave as (ck & -> & Hsd & _).
  apply load_checkpoint_inv in Hload as (m0 & ck' & _ & Hck & Hm & _).
  unfold torch_load in Hck. rewrite lookup_insert_eq in Hck. injection Hck as <-.
  apply load_state_dict_inv in Hm as (Hall & _). rewrite Hsd in Hall.
  by apply state_eq_by_names.
Qed.

(** X17 on the example model, reloaded without a model. *)
Lemma load_after_save_restores_state_dict_witness :
  exists (reloaded : Model.t) (optimizer : Optimizer),
    load_checkpoint (T := bias_network) "flowers/train" None "./checkpoint.pth"
      (fst (save_checkpoint example_model "./checkpoint.pth" example_files))
      = Ok (reloaded, optimizer) /\
    Model.state_dict reloaded = Model.state_dict example_model.
Proof.
  eexists _, _. split; [by vm_compute|].
  apply (load_after_save_restores_state_dict (T := bias_network)
           "flowers/train" "./checkpoint.pth" None example_model example_files
           (fst (save_checkpoint example_model "./checkpoint.pth" example_files))
           _ _ ltac:(by vm_compute) ltac:(by vm_compute)).
  - reflexivity.
  - apply (bool_decide_unpack (NoDup (Model.state_dict example_model).*1)).
    by vm_compute.
Defined.

(** X18.  The optimizer [load_checkpoint] returns is an SGD over the
    trainable parameters of the model with the hyperparameters and the
    momentum buffers of the saved optimizer state; a saved state for another
    number of parameters is refused. *)
Theorem load_checkpoint_restores_optimizer {T : Torch}
    (train_dir filename : string) (given : option Model.t) (fs : FileSystem)
    (reloaded : Model.t) (optimizer : Optimizer)
    (Hload : load_checkpoint train_dir given filename fs = Ok (reloaded, optimizer)) :
  exists ck : Checkpoint,
    torch_load fs filename = Ok ck /\
    optimizer_state_dict optimizer = ck_optimizer_state_dict ck /\
    params optimizer = Model.trainable reloaded /\
    params optimizer <> [].
Proof.
  apply load_checkpoint_inv in Hload as (m0 & ck & _ & Hck & _ & Hne & Hn & ->).
  exists ck. split; [exact Hck|]. cbn [params]. split; [|done].
  unfold optimizer_state_dict. cbn [hyper params buffers]. rewrite Hn.
  by destruct (ck_optimizer_state_dict ck).
Qed.

(** X18 on the example model, saved and reloaded. *)
Lemma load_checkpoint_restores_optimizer_witness :
  exists (reloaded : Model.t) (optimizer : Optimizer) (ck : Checkpoint),
    load_checkpoint (T := bias_network) "flowers/train" None "./checkpoint.pth"
      (fst (save_checkpoint example_model "./checkpoint.pth" example_files))
      = Ok (reloaded, optimizer) /\
    torch_load (T := bias_network)
      (fst (save_checkpoint example_model "./checkpoint.pth" example_files))
      "./checkpoint.pth" = Ok ck /\
    optimizer_state_dict optimizer = ck_optimizer_state_dict ck /\
    params optimizer = Model.trainable reloaded /\
    params optimizer <> [].
Proof.
  assert (exists reloaded optimizer,
            load_checkpoint (T := bias_network) "flowers/train" None "./checkpoint.pth"
              (fst (save_checkpoint example_model "./checkpoint.pth" example_files))
            = Ok (reloaded, optimizer)) as (reloaded & optimizer & Hload).
  { eexists _, _. by vm_compute. }
  destruct (load_checkpoint_restores_optimizer (T := bias_network)
              "flowers/train" "./checkpoint.pth" None _ reloaded optimizer Hload)
    as (ck & H).
  exists reloaded, optimizer, ck. split; [exact Hload|exact H].
Defined.

Lemma load_state_dict_attributes (m m' : Model.t) (sd : StateDict) :
  Model.load_state_dict m sd = Ok m' ->
  Model.class_to_idx m' = Model.class_to_idx m /\
  Model.epoch m' = Model.epoch m /\
  Model.best_acc m' = Model.best_acc m /\
  Model.n_classes m' = Model.n_classes m /\
  Model.optimizer_state m' = Model.optimizer_state m /\
  Model.dtype m' = Model.dtype m /\
  Model.device m' = Model.device m /\
  Model.training m' = Model.training m.
Proof.
  unfold Model.load_state_dict. destruct (forallb _ sd); [|done].
  destruct (for_each _ (Model.state m)) as [s|e]; [|done].
  cbn [bind]. by intros [= <-].
Qed.

(** X19.  [load_checkpoint] with a model given changes the weights of that
    model only: its class-to-index mapping, epoch, best accuracy, class
    count, optimizer state, precision, device and mode are the ones it had,
    not the ones in the checkpoint; each tensor it then holds is the tensor
    of that name in the checkpoint. *)
Theorem load_checkpoint_into_model_keeps_attributes {T : Torch}
    (train_dir filename : string) (model : Model.t) (fs : FileSystem)
    (reloaded : Model.t) (optimizer : Optimizer)
    (Hload : load_checkpoint train_dir (Some model) filename fs
               = Ok (reloaded, optimizer)) :
  Model.class_to_idx reloaded = Model.class_to_idx model /\
  Model.epoch reloaded = Model.epoch model /\
  Model.best_acc reloaded = Model.best_acc model /\
  Model.n_classes reloaded = Model.n_classes model /\
  Model.optimizer_state reloaded = Model.optimizer_state model /\
  Model.dtype reloaded = Model.dtype model /\
  Model.device reloaded = Model.device model /\
  Model.training reloaded = Model.training model /\
  exists ck : Checkpoint,
    torch_load fs filename = Ok ck /\
    Forall (fun e => assoc (fst e) (ck_state_dict ck) = Some (snd e))
           (Model.state_dict reloaded).
Proof.
  apply load_checkpoint_inv in Hload as (m0 & ck & -> & Hck & Hm & _).
  destruct (load_state_dict_attributes _ _ _ Hm) as (? & ? & ? & ? & ? & ? & ? & ?).
  repeat (split; [done|]).
  exists ck. split; [exact Hck|].
  by apply load_state_dict_inv in Hm as (Hall & _).
Qed.

(** X19 on the example model, saved and loaded into a copy whose mapping
    is another one: the copy keeps its own mapping. *)
Lemma load_checkpoint_into_model_keeps_attributes_witness :
  exists (reloaded : Model.t) (optimizer : Optimizer),
    load_checkpoint (T := bias_network) "flowers/train"
      (Some (set_class_to_idx example_model [("9", 2)])) "./checkpoint.pth"
      (fst (save_checkpoint example_model "./checkpoint.pth" example_files))
      = Ok (reloaded, optimizer) /\
    Model.class_to_idx reloaded = Some [("9", 2)].
Proof.
  eexists _, _. split; [by vm_compute|].
  apply (load_checkpoint_into_model_keeps_attributes (T := bias_network)
           "flowers/train" "./checkpoint.pth"
           (set_class_to_idx example_model [("9", 2)])
           (fst (save_checkpoint example_model "./checkpoint.pth" example_files))
           _ _ ltac:(by vm_compute)).
Defined.

(** X20.  What [load_checkpoint] needs on disk.  Given no model, it reads
    the training directory first: when that directory is missing it raises
    FileNotFoundError, whether or not the checkpoint exists.  With a model
    given, a missing checkpoint file raises FileNotFoundError, and a file
    that holds no checkpoint raises the exception [torch.load] has for its
    bytes, whatever the model: the model is not looked at. *)
Theorem load_checkpoint_missing_files {T : Torch}
    (train_dir filename : string) (fs : FileSystem) :
  (fs !! train_dir = None ->
   load_checkpoint train_dir None filename fs
     = Raise (FileNotFoundError train_dir)) /\
  (forall model : Model.t,
     fs !! filename = None ->
     load_checkpoint train_dir (Some model) filename fs
       = Raise (FileNotFoundError filename)) /\
  (forall (model : Model.t) (b : list Z),
     fs !! filename = Some (File (Bytes b)) ->
     load_checkpoint train_dir (Some model) filename fs
       = Raise (load_error b)).
Proof.
  split; [|split].
  - intros Hdir. unfold load_checkpoint, find_classes. by rewrite Hdir.
  - intros model Hf. unfold load_checkpoint, torch_load. cbn [bind]. by rewrite Hf.
  - intros model b Hf. unfold load_checkpoint, torch_load. cbn [bind]. by rewrite Hf.
Qed.

Lemma for_each_raises_at {A B : Type} (f : A -> result B) (l : list A) (x : A) :
  x ∈ l -> (forall y, f x <> Ok y) -> forall res, for_each f l <> Ok res.
Proof.
  intros Hx Hfx res Hres. apply for_each_Forall2 in Hres.
  apply list_elem_of_lookup in Hx as [i Hi].
  destruct (Forall2_lookup_l _ _ _ _ _ Hres Hi) as (y & _ & Hy).
  by apply (Hfx y).
Qed.

Lemma load_state_dict_raises (m : Model.t) (sd : StateDict) (e : PyErr) :
  Model.load_state_dict m sd = Raise e -> exists msg, e = RuntimeError msg.
Proof.
  unfold Model.load_state_dict. destruct (forallb _ sd); [|intros [= <-]; eauto].
  destruct (for_each _ (Model.state m)) as [s|e'] eqn:Hs; [done|].
  cbn [bind]. intros [= <-].
  revert e' Hs. induction (Model.state m) as [|a l IH]; intros e' Hs; [done|].
  cbn [for_each] in Hs.
  destruct (assoc (fst a) sd) as [x|].
  - destruct (bool_decide _); cbn [bind] in Hs.
    + destruct (for_each _ l) as [ys|e2]; [done|]. cbn [bind] in Hs.
      injection Hs as <-. by eapply IH.
    + injection Hs as <-. eauto.
  - cbn [bind] in Hs. injection Hs as <-. eauto.
Qed.

(** X21.  A checkpoint in which a tensor of the model has another shape is
    refused: [load_checkpoint] raises RuntimeError and returns no model. *)
Theorem load_checkpoint_shape_mismatch {T : Torch}
    (train_dir filename : string) (model : Model.t) (fs : FileSystem)
    (ck : Checkpoint) (name : string) (t x : Tensor)
    (Hck : torch_load fs filename = Ok ck)
    (Hown : (name, t) ∈ Model.state_dict model)
    (Hsaved : assoc name (ck_state_dict ck) = Some x)
    (Hshape : shape x <> shape t) :
  exists msg,
    load_checkpoint train_dir (Some model) filename fs = Raise (RuntimeError msg).
Proof.
  unfold load_checkpoint. cbn [bind]. rewrite Hck. cbn [bind].
  destruct (Model.load_state_dict model (ck_state_dict ck)) as [m|e] eqn:Hm.
  - exfalso. unfold Model.load_state_dict in Hm.
    destruct (forallb _ _); [|done].
    destruct (for_each _ (Model.state model)) as [s|e] eqn:Hs; [|done].
    apply (for_each_raises_at _ _ (name, t) Hown) in Hs; [done|].
    intros y. cbn [fst snd]. rewrite Hsaved.
    by rewrite bool_decide_eq_false_2.
  - apply load_state_dict_raises in Hm as [msg ->]. cbn [bind]. eauto.
Qed.

(** X21 on the example model and a checkpoint whose bias has four entries. *)
Lemma load_checkpoint_shape_mismatch_witness :
  exists msg,
    load_checkpoint (T := bias_network) "flowers/train" (Some example_model)
      "./checkpoint.pth"
      (fst (save_checkpoint
              (Model.set_state example_model
                 [("classifier.fc.weight", mkTensor [3%nat; 1%nat] [1 # 2; 1 # 3; 1 # 4]);
                  ("classifier.fc.bias", mkTensor [4%nat] [1 # 1; 3 # 1; 2 # 1; 0 # 1])])
              "./checkpoint.pth" example_files))
      = Raise (RuntimeError msg).
Proof.
  eapply (load_checkpoint_shape_mismatch (T := bias_network)
            "flowers/train" "./checkpoint.pth" example_model _ _
            "classifier.fc.bias" (mkTensor [3%nat] [1 # 1; 3 # 1; 2 # 1])
            (mkTensor [4%nat] [1 # 1; 3 # 1; 2 # 1; 0 # 1])).
  - by vm_compute.
  - cbn. apply list_elem_of_further, list_elem_of_here.
  - reflexivity.
  - discriminate.
Defined.

(** ** download_file and get_data: what reaches the disk and the network *)

(** *** Paths *)

Lemma append_cons (c : ascii) (a b : string) :
  (String c a +:+ b)%string = String c (a +:+ b).
Proof. reflexivity. Qed.

Lemma append_nil_r (s : string) : (s +:+ "")%string = s.
Proof.
  induction s as [|c s IH]; [done|].
  by rewrite append_cons, IH.
Qed.

Lemma append_assoc (a b c : string) :
  ((a +:+ b) +:+ c)%string = (a +:+ (b +:+ c))%string.
Proof.
  induction a as [|x a IH]; [done|].
  by rewrite !append_cons, IH.
Qed.

Lemma no_slash_app (a b : string) :
  no_slash (a +:+ b) = no_slash a && no_slash b.
Proof.
  induction a as [|c a IH]; [done|].
  rewrite append_cons. cbn [no_slash]. by rewrite IH, andb_assoc.
Qed.

Lemma basename_from_no_slash (acc s : string) :
  no_slash acc = true -> no_slash (basename_from acc s) = true.
Proof.
  revert acc. induction s as [|c s IH]; intros acc Hacc; [done|].
  cbn [basename_from]. destruct (Ascii.eqb c "/") eqn:Hc.
  - by apply IH.
  - apply IH. rewrite no_slash_app, Hacc. cbn [no_slash]. by rewrite Hc.
Qed.

Lemma basename_no_slash (url : string) : no_slash (basename url) = true.
Proof. by apply basename_from_no_slash. Qed.

Lemma parents_from_app (acc s t : string) :
  parents_from acc (s +:+ t) = parents_from acc s ++ parents_from (acc +:+ s) t.
Proof.
  revert acc. induction s as [|c s IH]; intros acc.
  - by rewrite append_nil_r.
  - rewrite append_cons. cbn [parents_from].
    replace (acc +:+ String c s)%string with ((acc +:+ String c "") +:+ s)%string
      by (by rewrite append_assoc).
    destruct (Ascii.eqb_spec c "/") as [->|Hc].
    + destruct acc; rewrite IH; reflexivity.
    + by rewrite IH.
Qed.

Lemma parents_from_no_slash (acc b : string) :
  no_slash b = true -> parents_from acc b = [].
Proof.
  revert acc. induction b as [|c b IH]; intros acc Hb; [done|].
  cbn in Hb. apply andb_prop in Hb as [Hc Hb]. cbn [parents_from].
  destruct (Ascii.eqb c "/"); [done|]. by apply IH.
Qed.

(** The directories above a file in a directory [a]: those above [a], and
    [a]. *)
Lemma parents_file (a b : string) :
  a <> EmptyString -> no_slash b = true ->
  parents (a +:+ "/" +:+ b) = parents a ++ [a].
Proof.
  intros Ha Hb. unfold parents. rewrite parents_from_app. f_equal.
  rewrite append_cons. cbn [parents_from Ascii.eqb Bool.eqb].
  change (EmptyString +:+ a)%string with a.
  destruct a as [|c a]; [done|]. f_equal. by apply parents_from_no_slash.
Qed.

Lemma ends_with_slash_no_slash (s : string) :
  no_slash s = true -> ends_with_slash s = false.
Proof.
  unfold ends_with_slash. induction s as [|c s IH]; intros Hs; [done|].
  cbn [no_slash] in Hs. apply andb_prop in Hs as [Hc Hs].
  destruct s as [|c' s].
  - cbn [String.length Nat.sub String.substring String.prefix].
    destruct (ascii_dec "/" c) as [<-|Hne]; [done|done].
  - specialize (IH Hs). cbn [String.length Nat.sub] in IH |- *.
    rewrite Nat.sub_0_r in IH. exact IH.
Qed.

Lemma ends_with_slash_app (a b : string) :
  b <> EmptyString -> ends_with_slash (a +:+ b) = ends_with_slash b.
Proof.
  intros Hb. unfold ends_with_slash. induction a as [|c a IH]; [done|].
  rewrite append_cons. cbn [String.length Nat.sub]. rewrite Nat.sub_0_r.
  destruct (a +:+ b)%string as [|c' r] eqn:Hr.
  - exfalso. destruct a; [by subst|done].
  - cbn [String.length String.substring]. cbn [String.length Nat.sub] in IH.
    rewrite Nat.sub_0_r in IH. exact IH.
Qed.

Lemma path_join_file (a b : string) :
  a <> EmptyString -> ends_with_slash a = false ->
  path_join a b = (a +:+ "/" +:+ b)%string.
Proof.
  intros Ha Hs. unfold path_join. destruct a as [|c a]; [done|].
  unfold ends_with_slash in Hs. by rewrite Hs.
Qed.

(** *** Directories and files *)

Lemma make_parents_lookup (dirs : list string) (fs fs' : FileSystem) (r : result unit) :
  make_parents fs dirs = (fs', r) ->
  (forall p : string, p ∉ dirs -> fs' !! p = fs !! p) /\
  (forall (p : string) (x : Node), fs !! p = Some x -> fs' !! p = Some x).
Proof.
  revert fs. induction dirs as [|d dirs IH]; intros fs; cbn [make_parents].
  - by intros [= <- <-].
  - destruct (fs !! d) as [[|f]|] eqn:Hd.
    + intros Hrun. destruct (IH _ Hrun) as [Hother Hkeep]. split; [|done].
      intros p Hp. apply not_elem_of_cons in Hp as [_ Hp]. by apply Hother.
    + by intros [= <- <-].
    + intros Hrun. destruct (IH _ Hrun) as [Hother Hkeep]. split.
      * intros p Hp. apply not_elem_of_cons in Hp as [Hne Hp].
        rewrite Hother by done. by rewrite lookup_insert_ne.
      * intros p x Hp. apply Hkeep. rewrite lookup_insert_ne; [done|].
        intros ->. congruence.
Qed.

(** [os.makedirs] changes nothing but the directory and the directories
    above it, and only where nothing was. *)
Lemma makedirs_lookup (fs fs' : FileSystem) (dir : string) (r : result unit) :
  makedirs fs dir = (fs', r) ->
  (forall p : string, p ∉ dir :: parents dir -> fs' !! p = fs !! p) /\
  (forall (p : string) (x : Node), fs !! p = Some x -> fs' !! p = Some x).
Proof.
  unfold makedirs.
  destruct (make_parents fs (parents dir)) as [fs1 [[]|e]] eqn:Hp.
  - destruct (make_parents_lookup _ _ _ _ Hp) as [Hother Hkeep].
    destruct (fs1 !! dir) as [x|] eqn:Hdir; intros [= <- <-].
    + split; [|done]. intros p Hnot. apply not_elem_of_cons in Hnot as [_ Hnot].
      by apply Hother.
    + split.
      * intros p Hnot. apply not_elem_of_cons in Hnot as [Hne Hnot].
        rewrite lookup_insert_ne by done. by apply Hother.
      * intros p x Hx. rewrite lookup_insert_ne; [by apply Hkeep|].
        intros ->. apply Hkeep in Hx. congruence.
  - intros [= <- <-]. destruct (make_parents_lookup _ _ _ _ Hp) as [Hother Hkeep].
    split; [|done]. intros p Hnot. apply not_elem_of_cons in Hnot as [_ Hnot].
    by apply Hother.
Qed.

Lemma ensure_dir_lookup (fs fs' : FileSystem) (dir : string) (r : result unit) :
  ensure_dir fs dir = (fs', r) ->
  (forall p : string, p ∉ dir :: parents dir -> fs' !! p = fs !! p) /\
  (forall (p : string) (x : Node), fs !! p = Some x -> fs' !! p = Some x).
Proof.
  unfold ensure_dir. destruct (negb _); [apply makedirs_lookup|].
  by intros [= <- <-].
Qed.

Lemma open_wb_inv (fs fs' : FileSystem) (fn : string) (r : result unit) :
  open_wb fs fn = (fs', r) ->
  match r with
  | Ok _ => fs' = <[fn := File (Bytes [])]> fs
  | Raise _ => fs' = fs
  end.
Proof.
  unfold open_wb.
  destruct (if ends_with_slash fn then _ else fn) as [|c p]; [by intros [= <- <-]|].
  destruct (obstacle fs fn _) as [e|]; [by intros [= <- <-]|].
  destruct (ends_with_slash fn); [by intros [= <- <-]|].
  destruct (fs !! fn) as [[|d]|]; by intros [= <- <-].
Qed.

Lemma obstacle_missing (fs : FileSystem) (fn : string) (dirs : list string) (d : string) :
  Forall (fun a => os_path_isdir fs a = true) dirs ->
  fs !! d = None ->
  obstacle fs fn (dirs ++ [d]) = Some (FileNotFoundError fn).
Proof.
  intros Hdirs Hd. induction Hdirs as [|a dirs Ha _ IH]; cbn [app obstacle].
  - by rewrite Hd.
  - unfold os_path_isdir in Ha. by destruct (fs !! a) as [[|f]|].
Qed.

(** A file in a directory that does not exist cannot be opened. *)
Lemma open_wb_missing_dir (fs : FileSystem) (a b : string) :
  a <> EmptyString -> ends_with_slash a = false ->
  b <> EmptyString -> no_slash b = true ->
  Forall (fun d => os_path_isdir fs d = true) (parents a) ->
  fs !! a = None ->
  open_wb fs (path_join a b) = (fs, Raise (FileNotFoundError (path_join a b))).
Proof.
  intros Ha Hsa Hb Hnb Hdirs Hmissing.
  rewrite (path_join_file a b Ha Hsa). unfold open_wb.
  assert (ends_with_slash (a +:+ "/" +:+ b) = false) as ->.
  { rewrite <- append_assoc, ends_with_slash_app by done.
    by apply ends_with_slash_no_slash. }
  rewrite (parents_file a b Ha Hnb), (obstacle_missing fs _ _ a Hdirs Hmissing).
  by destruct a.
Qed.

(** A successful [download_file] has got the whole body and has written it
    to the file. *)
Lemma download_file_ok_inv {I : Internet}
    (global_data_dir data_url dest_dir : string) (w w' : World) (fn : string) :
  download_file global_data_dir data_url dest_dir w = (w', Ok fn) ->
  fn = path_join global_data_dir (basename data_url) /\
  requests w' = requests w ++ [data_url] /\
  exists r : Response,
    http_get data_url = Some r /\
    complete r = true /\
    files w' = <[fn := File (Bytes (concat (chunks r)))]> (files w).
Proof.
  unfold download_file. cbn [files requests]. intros Hret.
  destruct (http_get data_url) as [r|]; [|done].
  destruct (length_is_int r); cbn [negb] in Hret; [|done].
  destruct (open_wb (files w) _) as [fs [[]|e]] eqn:Hopen; [|done].
  apply open_wb_inv in Hopen. subst fs.
  destruct (complete r) eqn:Hc; [|done].
  injection Hret as <- <-. cbn [files requests].
  split; [done|]. split; [done|]. exists r.
  by rewrite insert_insert_eq.
Qed.

(** X22.  A successful [download_file] has sent one request, to the URL,
    and has written the body it received, whole, to the file named after
    the last component of the URL inside the notebook's global data
    directory; no other path has changed.  Its parameter [dest_dir] has no
    effect. *)
Theorem download_file_writes_body {I : Internet}
    (global_data_dir data_url dest_dir : string) (w w' : World) (fn : string)
    (Hret : download_file global_data_dir data_url dest_dir w = (w', Ok fn)) :
  fn = path_join global_data_dir (basename data_url) /\
  (exists r : Response,
     http_get data_url = Some r /\
     complete r = true /\
     files w' !! fn = Some (File (Bytes (concat (chunks r))))) /\
  (forall p : string, p <> fn -> files w' !! p = files w !! p) /\
  requests w' = requests w ++ [data_url] /\
  (forall dest_dir' : string,
     download_file global_data_dir data_url dest_dir' w
       = download_file global_data_dir data_url dest_dir w).
Proof.
  apply download_file_ok_inv in Hret as (Hfn & Hreq & r & Hget & Hc & Hfiles).
  split; [done|]. split; [|split; [|split; [done|done]]].
  - exists r. rewrite Hfiles. by rewrite lookup_insert_eq.
  - intros p Hp. rewrite Hfiles. by rewrite lookup_insert_ne.
Qed.

(** The machine that answers every request, on the example files. *)
Lemma download_file_example_run :
  download_file (I := online)
    "flowers" "http://host/flower_data.tar.gz" "./" (mkWorld example_files [])
  = (mkWorld (<["flowers/flower_data.tar.gz" := File (Bytes [31; 139; 8])]> example_files)
             ["http://host/flower_data.tar.gz"],
     Ok "flowers/flower_data.tar.gz").
Proof. by vm_compute. Qed.

(** X22 on the example files. *)
Lemma download_file_writes_body_witness :
  "flowers/flower_data.tar.gz"
    = path_join "flowers" (basename "http://host/flower_data.tar.gz").
Proof.
  apply (download_file_writes_body (I := online)
           "flowers" "http://host/flower_data.tar.gz" "./" (mkWorld example_files [])
           _ _ download_file_example_run).
Defined.

Lemma get_data_not_skipped {I : Internet}
    (global_data_dir url data_dir train_dirname : string) (w : World) :
  os_path_exists (files w) (data_dir +:+ train_dirname) = false ->
  get_data global_data_dir url data_dir train_dirname w =
    match ensure_dir (files w) data_dir with
    | (fs, Raise e) => (mkWorld fs (requests w), Raise e)
    | (fs, Ok _) =>
        match download_file global_data_dir url "./" (mkWorld fs (requests w)) with
        | (w2, Raise e) => (w2, Raise e)
        | (w2, Ok fn) =>
            match files w2 !! fn with
            | Some (File (Bytes b)) =>
                match extractall b data_dir (files w2) with
                | (fs', Raise e) => (mkWorld fs' (requests w2), Raise e)
                | (fs', Ok _) =>
                    if os_path_isfile fs' fn
                    then (mkWorld (delete fn fs') (requests w2), Ok tt)
                    else (mkWorld fs' (requests w2), Ok tt)
                end
            | _ => (w2, Raise (ReadError "file could not be opened successfully"))
            end
        end
    end.
Proof. intros Hex. unfold get_data. by rewrite Hex. Qed.

(** X23.  When [get_data] has downloaded and unpacked the archive, the
    archive is gone: after a successful call that was not skipped, the path
    of the downloaded file is no file. *)
Theorem get_data_removes_archive {I : Internet}
    (global_data_dir url data_dir train_dirname : string) (w w' : World)
    (Hmissing : os_path_exists (files w) (data_dir +:+ train_dirname) = false)
    (Hret : get_data global_data_dir url data_dir train_dirname w = (w', Ok tt)) :
  os_path_isfile (files w') (path_join global_data_dir (basename url)) = false /\
  requests w' = requests w ++ [url].
Proof.
  rewrite (get_data_not_skipped _ _ _ _ _ Hmissing) in Hret.
  destruct (ensure_dir (files w) data_dir) as [fs1 [[]|e]]; [|done].
  destruct (download_file global_data_dir url "./" _) as [w2 [fn|e]] eqn:Hd; [|done].
  apply download_file_ok_inv in Hd as (-> & Hreq & _). cbn [requests] in Hreq.
  destruct (files w2 !! _) as [[|[b|c]]|]; try done.
  destruct (extractall b data_dir (files w2)) as [fs' [[]|e]]; [|done].
  destruct (os_path_isfile fs' _) eqn:Hfile; injection Hret as <-; cbn [files requests].
  - split; [|congruence]. unfold os_path_isfile. by rewrite lookup_delete_eq.
  - split; [done|congruence].
Qed.

(** The machine that answers every request, on an empty disk. *)
Lemma get_data_example_run :
  get_data (I := online)
    "data" "http://host/flower_data.tar.gz" "data" "/train" (mkWorld ∅ [])
  = (mkWorld {[ "data" := Dir; "data/train" := Dir ]}
             ["http://host/flower_data.tar.gz"],
     Ok tt).
Proof. by vm_compute. Qed.

(** X23 on an empty disk. *)
Lemma get_data_removes_archive_witness :
  os_path_isfile {[ "data" := Dir; "data/train" := Dir ]}
    (path_join "data" (basename "http://host/flower_data.tar.gz")) = false /\
  ["http://host/flower_data.tar.gz"] = [] ++ ["http://host/flower_data.tar.gz"].
Proof.
  apply (get_data_removes_archive (I := online)
           "data" "http://host/flower_data.tar.gz" "data" "/train"
           (mkWorld ∅ []) _ ltac:(by vm_compute) get_data_example_run).
Defined.

(** X24.  [get_data] creates the directory it is given, with the
    directories above it, but [download_file] writes into the notebook's
    global data directory.  For paths written in normal form: when the
    global directory does not exist and is neither the directory given nor
    one of the directories above it (the directories above the global one
    exist), the file cannot be opened, and the call raises
    FileNotFoundError after it has created the directories and sent the
    request. *)
Theorem get_data_other_directory_fails {I : Internet}
    (global_data_dir url data_dir train_dirname : string) (w : World)
    (fs1 : FileSystem) (r : Response)
    (Hnormal : normal_path data_dir = true)
    (Hnormal_global : normal_path global_data_dir = true)
    (Hnonempty : global_data_dir <> EmptyString)
    (Hslash : ends_with_slash global_data_dir = false)
    (Hmissing : os_path_exists (files w) (data_dir +:+ train_dirname) = false)
    (Hnew : os_path_exists (files w) data_dir = false)
    (Hdirs : makedirs (files w) data_dir = (fs1, Ok tt))
    (Hget : http_get url = Some r)
    (Hlength : length_is_int r = true)
    (Hbase : basename url <> EmptyString)
    (Hglobal : os_path_exists (files w) global_data_dir = false)
    (Habove : Forall (fun d => os_path_isdir (files w) d = true) (parents global_data_dir))
    (Hother : global_data_dir ∉ data_dir :: parents data_dir) :
  get_data global_data_dir url data_dir train_dirname w =
    (mkWorld fs1 (requests w ++ [url]),
     Raise (FileNotFoundError (path_join global_data_dir (basename url)))) /\
  os_path_isdir fs1 data_dir = true /\
  os_path_exists fs1 global_data_dir = false.
Proof.
  destruct (makedirs_lookup _ _ _ _ Hdirs) as [Hsame Hkeep].
  assert (fs1 !! global_data_dir = None) as Hnone.
  { rewrite Hsame by done. unfold os_path_exists in Hglobal.
    by destruct (files w !! global_data_dir). }
  assert (os_path_isdir fs1 data_dir = true) as Hdir.
  { unfold makedirs in Hdirs.
    destruct (make_parents _ _) as [fs0 [[]|e]]; [|done].
    destruct (fs0 !! data_dir); [done|]. injection Hdirs as <-.
    unfold os_path_isdir. by rewrite lookup_insert_eq. }
  split; [|split; [done|unfold os_path_exists; by rewrite Hnone]].
  rewrite (get_data_not_skipped _ _ _ _ _ Hmissing).
  unfold ensure_dir. rewrite Hnew. cbn [negb]. rewrite Hdirs.
  unfold download_file. cbn [files requests]. rewrite Hget, Hlength. cbn [negb].
  rewrite open_wb_missing_dir; try done.
  - apply basename_no_slash.
  - eapply Forall_impl; [exact Habove|]. intros d Hd. unfold os_path_isdir in *.
    destruct (files w !! d) as [[|f]|] eqn:Hwd; try done.
    by rewrite (Hkeep _ _ Hwd).
Qed.

(** X24 on an empty disk, with the global directory "flowers" and the
    argument "data/new": "data" and "data/new" are created, "flowers" is
    not. *)
Lemma get_data_other_directory_fails_witness :
  get_data (I := online)
    "flowers" "http://host/flower_data.tar.gz" "data/new" "/train" (mkWorld ∅ [])
  = (mkWorld {[ "data" := Dir; "data/new" := Dir ]} ([] ++ ["http://host/flower_data.tar.gz"]),
     Raise (FileNotFoundError
              (path_join "flowers" (basename "http://host/flower_data.tar.gz")))) /\
  os_path_isdir ({[ "data" := Dir; "data/new" := Dir ]} : FileSystem) "data/new" = true /\
  os_path_exists ({[ "data" := Dir; "data/new" := Dir ]} : FileSystem) "flowers" = false.
Proof.
  apply (get_data_other_directory_fails (I := online)
           "flowers" "http://host/flower_data.tar.gz" "data/new" "/train"
           (mkWorld ∅ []) {[ "data" := Dir; "data/new" := Dir ]}
           (mkResponse true [[31; 139]; [8]] true));
    try (by vm_compute).
  apply (bool_decide_unpack _). by vm_compute.
Defined.

(** X25.  When the download fails, [get_data] raises and leaves behind the
    directory it was given and the directories above it, where they were
    missing; no other path has changed so far.  When the request itself
    fails, nothing else has changed at all.  When the connection breaks
    while the body is read, the file has been opened already: the part of
    the archive that arrived stays on the disk.  In both cases the request
    has been sent. *)
Theorem get_data_failed_download {I : Internet}
    (global_data_dir url data_dir train_dirname : string) (w : World)
    (fs1 : FileSystem)
    (Hnormal : normal_path data_dir = true)
    (Hmissing : os_path_exists (files w) (data_dir +:+ train_dirname) = false)
    (Hdirs : ensure_dir (files w) data_dir = (fs1, Ok tt)) :
  (forall p : string, p ∉ data_dir :: parents data_dir -> fs1 !! p = files w !! p) /\
  (forall (p : string) (x : Node), files w !! p = Some x -> fs1 !! p = Some x) /\
  (http_get url = None ->
   get_data global_data_dir url data_dir train_dirname w =
     (mkWorld fs1 (requests w ++ [url]), Raise (OSError "ConnectionError"))) /\
  (forall (r : Response) (fs2 : FileSystem),
     http_get url = Some r -> length_is_int r = true -> complete r = false ->
     open_wb fs1 (path_join global_data_dir (basename url)) = (fs2, Ok tt) ->
     get_data global_data_dir url data_dir train_dirname w =
       (mkWorld (<[path_join global_data_dir (basename url)
                   := File (Bytes (concat (chunks r)))]> fs1)
                (requests w ++ [url]),
        Raise (OSError "ChunkedEncodingError"))).
Proof.
  destruct (ensure_dir_lookup _ _ _ _ Hdirs) as [Hsame Hkeep].
  split; [done|]. split; [done|]. split.
  - intros Hget. rewrite (get_data_not_skipped _ _ _ _ _ Hmissing), Hdirs.
    unfold download_file. by rewrite Hget.
  - intros r fs2 Hget Hlength Hbroken Hopen.
    rewrite (get_data_not_skipped _ _ _ _ _ Hmissing), Hdirs.
    unfold download_file. cbn [files requests].
    rewrite Hget, Hlength, Hopen, Hbroken. cbn [negb].
    apply open_wb_inv in Hopen. subst fs2. by rewrite insert_insert_eq.
Qed.

(** X25 on an empty disk and a connection that breaks after two bytes: the
    file holds the two bytes. *)
Lemma get_data_failed_download_witness :
  get_data (I := breaking) "data" "http://host/flower_data.tar.gz" "data" "/train"
    (mkWorld ∅ [])
  = (mkWorld (<[path_join "data" (basename "http://host/flower_data.tar.gz")
                := File (Bytes (concat [[31; 139]]))]> {[ "data" := Dir ]})
             ([] ++ ["http://host/flower_data.tar.gz"]),
     Raise (OSError "ChunkedEncodingError")).
Proof.
  apply (proj2 (proj2 (proj2
           (get_data_failed_download (I := breaking)
              "data" "http://host/flower_data.tar.gz" "data" "/train" (mkWorld ∅ [])
              {[ "data" := Dir ]} ltac:(by vm_compute) ltac:(by vm_compute)
              ltac:(by vm_compute))))
           (mkResponse true [[31; 139]] false)
           (<["data/flower_data.tar.gz" := File (Bytes [])]> {[ "data" := Dir ]}));
    by vm_compute.
Defined.

(** ** validate: the mean it returns *)

Lemma accuracy_score_ok_nonempty {R : Rounding} {K : TopK}
    (output : Tensor2) (target : list Z) (k : Z) (top_k : list Z) (res : list Q) :
  accuracy_score output target (k :: top_k) = Ok res ->
  target <> [] /\ exists a res', res = a :: res'.
Proof.
  intros Hres. pose proof Hres as Hinv.
  apply accuracy_score_ok_inv in Hinv as (max_k & Hmax & Hrange & Hlen).
  destruct (accuracy_score_steps output target (k :: top_k) max_k Hmax Hrange Hlen)
    as (correct & _ & _ & Heq).
  rewrite Heq in Hres. cbn [for_each] in Hres.
  destruct (view_flat _ _) as [flat|e]; [|done]. cbn [bind] in Hres.
  unfold percent_factor at 1 in Hres.
  destruct (Z.eqb_spec (Z.of_nat (length target)) 0) as [Hz|Hz]; [done|].
  cbn [bind] in Hres. destruct (for_each _ top_k) as [ys|e]; [|done].
  cbn [bind] in Hres. injection Hres as <-. split; [|eauto].
  intros ->. by cbn in Hz.
Qed.

Lemma top_k_hits_forward {K : TopK} {T : Torch} (m : Model.t) (c : nat)
    (images : list ndarray) (outs : list (list Q)) (labels : list Z) :
  Forall2 (fun img row => forward m img = Some row /\ length row = c) images outs ->
  top_k_hits 1 (mkTensor2 c outs) labels = top1_hits m (zip images labels).
Proof.
  unfold top_k_hits, top1_hits. cbn [rows]. intros H. revert labels.
  induction H as [|img row images outs [Hf _] _ IH]; intros [|t labels]; try done.
  cbn [zip zip_with List.filter fst snd]. rewrite Hf.
  destruct (in_topk 1 row t); cbn [length]; by rewrite IH.
Qed.

Lemma top1_hits_app {K : TopK} {T : Torch} (m : Model.t) (l1 l2 : list (ndarray * Z)) :
  top1_hits m (l1 ++ l2) = (top1_hits m l1 + top1_hits m l2)%nat.
Proof. unfold top1_hits. by rewrite List.filter_app, length_app. Qed.

Section Validate.

Context {R : Rounding} {K : TopK} {T : Torch} {B : TorchBatch}.
Context (HE : Exact R) (HK : TopKLaws K) (HL : TorchBatchLaws T B).

Lemma tensor_update_exact (acc : TensorCache.t) (h n : nat) :
  n <> 0%nat ->
  let a0 := mul_ h (round64 (100 / inject_Z (Z.of_nat n))) in
  let acc' := TensorCache.update acc a0 (Z.of_nat n) in
  (TensorCache.sum acc' == TensorCache.sum acc + 100 * inject_Z (Z.of_nat h))%Q /\
  TensorCache.count acc' = TensorCache.count acc + Z.of_nat n /\
  (0 <= TensorCache.count acc ->
   exists q, TensorCache.mean acc' = Some q /\
             (q == TensorCache.sum acc' / inject_Z (TensorCache.count acc'))%Q).
Proof.
  intros Hn a0 acc'. subst a0 acc'. unfold TensorCache.update.
  cbn [TensorCache.sum TensorCache.count TensorCache.mean].
  split; [|split; [done|]].
  - unfold mul_. rewrite !round32_exact, round64_exact.
    field. change 0%Q with (inject_Z 0). rewrite inject_Z_injective. lia.
  - intros Hc. destruct (Z.eqb_spec (TensorCache.count acc + Z.of_nat n) 0); [lia|].
    eexists. split; [reflexivity|]. by rewrite !round32_exact.
Qed.

Lemma validate_loop_invariant (m : Model.t) (batches : list (list ndarray * list Z))
    (losses losses' : ValueCache.t) (acc acc' : TensorCache.t) :
  Forall (fun b => length (fst b) = length (snd b)) batches ->
  validate_loop m batches losses acc = Ok (losses', acc') ->
  (TensorCache.sum acc' ==
     TensorCache.sum acc + 100 * inject_Z (Z.of_nat (top1_hits m (examples batches))))%Q /\
  TensorCache.count acc' =
    TensorCache.count acc + Z.of_nat (length (examples batches)) /\
  (batches <> [] -> 0 <= TensorCache.count acc ->
   exists q, TensorCache.mean acc' = Some q /\
             (q == TensorCache.sum acc' / inject_Z (TensorCache.count acc'))%Q).
Proof.
  intros Hlen. revert losses acc.
  induction Hlen as [|[images labels] batches Hb _ IH]; intros losses acc Hrun.
  - cbn in Hrun. injection Hrun as <- <-. cbn.
    split; [ring|]. split; [lia|done].
  - cbn [fst snd] in Hb. cbn [validate_loop] in Hrun.
    destruct (call m images) as [output|] eqn:Hcall; [|done]. cbn [bind] in Hrun.
    destruct (criterion_item output labels) as [loss|]; [|done]. cbn [bind] in Hrun.
    destruct (ValueCache.update losses loss _) as [l1 [[]|e]]; [|done].
    destruct (accuracy_score output labels [1]) as [accuracy|e] eqn:Hacc; [|done].
    cbn [bind] in Hrun.
    destruct (accuracy_score_ok_nonempty _ _ _ _ _ Hacc) as (Hne & a0 & rest & ->).
    destruct (call_rows _ _ _ Hcall) as [Hcols Hrows].
    pose proof (Forall2_length _ _ _ Hrows) as Hn.
    assert (well_shaped output) as Hws.
    { unfold well_shaped. rewrite Hcols.
      eapply Forall2_Forall_r; [exact Hrows|].
      apply Forall_forall. by intros img _ row [_ Hr]. }
    pose proof (accuracy_score_at output labels [1] (a0 :: rest) 0 1 Hws Hacc eq_refl
                  ltac:(lia)) as Ha0.
    cbn [lookup list_lookup] in Ha0. injection Ha0 as Ha0.
    unfold broadcast_labels in Ha0.
    rewrite <- Hn, Hb, Nat.eqb_refl in Ha0.
    assert (top_k_hits (Z.to_nat 1) output labels = top1_hits m (zip images labels))
      as Hhits.
    { destruct output as [c outs]. cbn [cols rows] in *. subst c.
      by apply top_k_hits_forward. }
    rewrite Hhits in Ha0.
    assert (length labels <> 0)%nat as Hn0 by (by destruct labels).
    destruct (tensor_update_exact acc (top1_hits m (zip images labels))
                (length labels) Hn0) as (Hsum & Hcount & Hmean).
    cbn zeta in Hsum, Hcount, Hmean. rewrite <- Ha0, <- Hb in Hsum, Hcount, Hmean.
    destruct (IH _ _ Hrun) as (Hsum' & Hcount' & Hmean').
    assert (length (examples ((images, labels) :: batches))
            = (length images + length (examples batches))%nat) as Hex.
    { unfold examples. cbn [map concat fst snd].
      rewrite length_app, length_zip_with. lia. }
    assert (top1_hits m (examples ((images, labels) :: batches))
            = (top1_hits m (zip images labels) + top1_hits m (examples batches))%nat)
      as Hth.
    { unfold examples. cbn [map concat fst snd]. apply top1_hits_app. }
    split; [|split].
    + rewrite Hsum', Hsum, Hth, Nat2Z.inj_add, inject_Z_plus. ring.
    + rewrite Hcount', Hcount, Hex. lia.
    + intros _ Hc. destruct batches as [|b batches].
      * cbn in Hrun. injection Hrun as <- <-. by apply Hmean.
      * apply Hmean'; [done|]. rewrite Hcount. lia.
Qed.

End Validate.

(** X26.  In exact arithmetic, and for a loader whose batches have as many
    labels as images, what [validate] returns is 100 times the number of
    examples whose label has the highest score (the index [topk] selects
    for K = 1), divided by the number of examples: the accuracy over the
    whole loader.  Weighting each batch by its size makes the result
    independent of how the examples are split into batches. *)
Theorem validate_is_accuracy_over_loader
    {R : Rounding} {K : TopK} {T : Torch} {B : TorchBatch}
    (HE : Exact R) (HK : TopKLaws K) (HL : TorchBatchLaws T B)
    (model : Model.t) (valid_loader : list (list ndarray * list Z))
    (device : string) (model' : Model.t) (r : option Q)
    (Hbatches : Forall (fun b => length (fst b) = length (snd b)) valid_loader)
    (Hnonempty : valid_loader <> [])
    (Hret : validate model valid_loader device = (model', Ok r)) :
  model' = Model.eval (Model.to model device) /\
  exists q,
    r = Some q /\
    (q == 100 * inject_Z (Z.of_nat (top1_hits model' (examples valid_loader)))
          / inject_Z (Z.of_nat (length (examples valid_loader))))%Q.
Proof.
  unfold validate in Hret. injection Hret as <- Hret. split; [done|].
  destruct (validate_loop _ valid_loader _ _) as [[losses acc]|e] eqn:Hrun; [|done].
  cbn [bind snd] in Hret. injection Hret as <-.
  destruct (validate_loop_invariant HE HK HL _ _ _ _ _ _ Hbatches Hrun)
    as (Hsum & Hcount & Hmean).
  destruct (Hmean Hnonempty) as (q & Hq & Hqe); [cbn; lia|].
  exists q. split; [exact Hq|].
  rewrite Hqe, Hsum, Hcount. cbn [TensorCache.sum TensorCache.count TensorCache.init TensorCache.reset].
  rewrite Qplus_0_l, Z.add_0_l. reflexivity.
Qed.

Lemma forward_each_Forall2 {T : Torch} (m : Model.t) (images : list ndarray)
    (outs : list (list Q)) :
  forward_each m images = Some outs ->
  Forall2 (fun img row => forward m img = Some row) images outs.
Proof.
  revert outs. induction images as [|img images IH]; intros outs; cbn [forward_each].
  - intros [= <-]. constructor.
  - destruct (forward m img) as [row|] eqn:Hf; [|done].
    destruct (forward_each m images) as [rows'|]; [|done].
    intros [= <-]. constructor; [done|by apply IH].
Qed.

Lemma bias_batch_laws : TorchBatchLaws bias_network bias_batch.
Proof.
  constructor. intros m images output. cbn [call bias_batch n_outputs].
  destruct (forward_each m images) as [outs|] eqn:Ho; [|done].
  intros [= <-]. cbn [cols rows]. split; [done|].
  apply forward_each_Forall2 in Ho.
  eapply Forall2_impl; [exact Ho|].
  intros img row Hf. split; [exact Hf|]. cbn in Hf.
  destruct (assoc _ (Model.state m)); [|done]. by injection Hf as <-.
Qed.

(** X26 on a loader of two batches with three examples, two of which have
    the label of the highest score: the accuracy is 200/3. *)
Lemma validate_is_accuracy_over_loader_witness :
  exists (model' : Model.t) (q : Q),
    validate (R := exact_rounding) (K := lower_index_first) (B := bias_batch)
      example_model example_loader "cpu"
      = (model', Ok (Some q)) /\
    (q == 100 * inject_Z (Z.of_nat (top1_hits (K := lower_index_first)
                                      (T := bias_network) model'
                                      (examples example_loader)))
          / inject_Z (Z.of_nat (length (examples example_loader))))%Q.
Proof.
  assert (exists model' r,
            validate (R := exact_rounding) (K := lower_index_first) (B := bias_batch)
              example_model example_loader "cpu" = (model', Ok r))
    as (model' & r & Hret).
  { eexists _, _. by vm_compute. }
  destruct (validate_is_accuracy_over_loader (R := exact_rounding)
              (K := lower_index_first) (T := bias_network) (B := bias_batch)
              exact_rounding_exact lower_index_first_laws bias_batch_laws
              example_model example_loader "cpu" model' r)
    as (_ & q & -> & Hq).
  - repeat constructor.
  - discriminate.
  - exact Hret.
  - exists model', q. split; [exact Hret|exact Hq].
Defined.

(** ** imshow and show_result: what is drawn *)

Lemma clip01_range (x : PyFloat.float) :
  SFltb (clip01 x) PyFloat.zero = false /\ SFltb one (clip01 x) = false.
Proof.
  unfold clip01.
  destruct (SFltb x PyFloat.zero) eqn:H0; [by vm_compute|].
  destruct (SFltb one x) eqn:H1; [by vm_compute|done].
Qed.

(** X27.  No entry of the array [imshow] hands to matplotlib is below 0 or
    above 1: whatever the array it is given, the values it shows are
    clipped (an entry that is nan stays nan). *)
Theorem imshow_entries_clipped
    (image : ndarray) (t : option string) (ax : Axes)
    (row : list (list PyFloat.float)) (px : list PyFloat.float) (v : PyFloat.float)
    (Hret : imshow image t = Ok ax)
    (Hrow : row ∈ shown ax) (Hpx : px ∈ row) (Hv : v ∈ px) :
  SFltb v PyFloat.zero = false /\ SFltb one v = false.
Proof.
  unfold imshow in Hret.
  destruct ((length image =? 1)%nat || (length image =? 3)%nat); [|done].
  destruct (for_each _ (transpose_120 image)) as [arr|e]; [|done].
  cbn [bind] in Hret. injection Hret as <-. cbn [shown] in Hrow.
  apply list_elem_of_In, in_map_iff in Hrow as (r0 & <- & _).
  apply list_elem_of_In, in_map_iff in Hpx as (p0 & <- & _).
  apply list_elem_of_In, in_map_iff in Hv as (v0 & <- & _).
  apply clip01_range.
Qed.

Lemma denormalize_pixel_three (a b c : PyFloat.float) :
  exists px, denormalize_pixel [a; b; c] = Ok px /\ length px = 3%nat.
Proof. eexists. split; reflexivity. Qed.

Lemma for_each_returns {A B : Type} (f : A -> result B) (l : list A) :
  Forall (fun x => exists y, f x = Ok y) l -> exists res, for_each f l = Ok res.
Proof.
  induction 1 as [|x l [y Hy] _ [res IH]]; [by eexists|].
  cbn [for_each]. rewrite Hy, IH. by eexists.
Qed.

(** [imshow] returns for every array of three planes. *)
Lemma imshow_returns (image : ndarray) (t : option string) :
  length image = 3%nat ->
  exists ax, imshow image t = Ok ax /\
             title ax = match t with None => "Title" | Some s => s end.
Proof.
  intros Hlen. unfold imshow. rewrite Hlen. cbn [Nat.eqb orb].
  destruct (for_each_returns (for_each denormalize_pixel) (transpose_120 image))
    as [arr Harr].
  - apply Forall_forall. intros row Hrow. apply for_each_returns.
    apply Forall_forall. intros px Hpx.
    unfold transpose_120 in Hrow.
    apply list_elem_of_In, in_map_iff in Hrow as (y & <- & _).
    apply list_elem_of_In, in_map_iff in Hpx as (x & <- & _).
    destruct image as [|p1 [|p2 [|p3 [|p4 image]]]]; try done.
    cbn [map]. destruct (denormalize_pixel_three
                           (nth x (nth y p1 []) PyFloat.zero)
                           (nth x (nth y p2 []) PyFloat.zero)
                           (nth x (nth y p3 []) PyFloat.zero)) as (px & Hpx & _).
    eauto.
  - rewrite Harr. cbn [bind]. eexists. split; reflexivity.
Qed.

Lemma range_down_5 : range_down 5 = [5; 4; 3; 2; 1].
Proof. reflexivity. Qed.

(** X28.  When [predict] returns for its five classes, [show_result]
    draws: the title of the picture is the name of the first, most probable,
    class ("Title" when its index has no class); the five bars have the
    probabilities as widths and the positions 5, 4, 3, 2, 1, so the most
    probable class is on top; a bar is labelled with the display name of its
    class, or with the class label itself when it has no display name. *)
Theorem show_result_figure {C : Image.Codec} {R : Rounding} {K : TopK} {T : Torch}
    (HK : TopKLaws K)
    (fs : FileSystem) (filename : string) (model model' : Model.t)
    (class_names : gmap string string)
    (probs : list Q) (classes : list (option string)) (img : ndarray)
    (Hpredict : predict fs filename model 5 = (model', Ok (probs, classes, img))) :
  exists (fig : Figure) (c0 : option string),
    show_result fs filename model (Some class_names) = (model', Ok fig) /\
    head classes = Some c0 /\
    title (picture fig) = match name_of class_names c0 with
                          | Some n => n
                          | None => "Title"
                          end /\
    bar_positions fig = [5; 4; 3; 2; 1] /\
    bar_widths fig = probs /\
    tick_labels fig = map (name_of class_names) classes.
Proof.
  assert (length probs = Z.to_nat 5 /\ length classes = Z.to_nat 5 /\
          length img = 3%nat) as (Hprobs & Hlabels & Himg).
  { pose proof Hpredict as Hinv.
    apply predict_ok_inv in Hinv
      as (_ & _ & im & output & vals & idxs & items & _ & Himg & _ & Htk & _ & _ & -> & ->).
    apply topk_output_inv in Htk as (Hrange & -> & ->).
    split; [rewrite length_softmax, length_fmap; apply length_topk_row; lia|].
    split; [rewrite length_map; apply length_topk_indices; lia|].
    apply (process_image_shape _ _ _ Himg). }
  unfold show_result. rewrite Hpredict.
  destruct classes as [|c0 classes]; [done|]. cbn [map].
  destruct (imshow_returns img (name_of class_names c0) Himg) as (ax & Hax & Htitle).
  rewrite Hax. cbn [bind]. eexists _, c0.
  split; [reflexivity|]. split; [reflexivity|].
  cbn [picture bar_positions bar_widths tick_labels].
  split; [exact Htitle|]. split; [|done].
  rewrite Hprobs. reflexivity.
Qed.

Lemma rose_predicted_5 :
  exists (probs : list Q) (img : ndarray),
    predict (C := raw_codec) (R := exact_rounding) (K := lower_index_first)
      (T := bias_network) example_files "rose.raw" five_class_model 5
    = (prepared five_class_model,
       Ok (probs, [Some "74"; Some "9"; None; None; Some "3"], img)).
Proof.
  destruct rose_processed as [img Himg].
  pose proof (predict_returns (C := raw_codec) (R := exact_rounding)
                (K := lower_index_first) (T := bias_network)
                example_files "rose.raw" five_class_model 5
                rose_image img [1 # 1; 3 # 1; 2 # 1; 5 # 1; 4 # 1]
                [("3", 0); ("74", 3); ("9", 4)]
                rose_is_file rose_opens Himg eq_refl
                ltac:(change (0 <= 5 <= 5); lia) eq_refl ltac:(discriminate)) as Hret.
  assert (map (fun i : Z =>
                 dict_zip [("3", 0); ("74", 3); ("9", 4)].*2
                          [("3", 0); ("74", 3); ("9", 4)].*1 !! i)
              (topk_indices (K := lower_index_first) (Z.to_nat 5)
                 [1 # 1; 3 # 1; 2 # 1; 5 # 1; 4 # 1])
          = [Some "74"; Some "9"; None; None; Some "3"]) as Hlabels
    by (by vm_compute).
  rewrite Hlabels in Hret. eexists _, img. exact Hret.
Qed.

(** X28 on the picture "rose.raw" and the model of five classes: the first
    class is "74", which has the display name "rose". *)
Lemma show_result_figure_witness :
  exists fig : Figure,
    snd (show_result (C := raw_codec) (R := exact_rounding)
           (K := lower_index_first) (T := bias_network)
           example_files "rose.raw" five_class_model (Some example_names))
      = Ok fig /\
    title (picture fig) = "rose" /\
    bar_positions fig = [5; 4; 3; 2; 1] /\
    tick_labels fig = [Some "rose"; Some "9"; None; None; Some "canterbury bells"].
Proof.
  destruct rose_predicted_5 as (probs & img & Hret).
  destruct (show_result_figure (C := raw_codec) (R := exact_rounding)
              (K := lower_index_first) (T := bias_network) lower_index_first_laws
              example_files "rose.raw" five_class_model _ example_names
              probs _ img Hret)
    as (fig & c0 & Hfig & Hc0 & Htitle & Hpos & _ & Hticks).
  exists fig. rewrite Hfig. split; [reflexivity|].
  cbn in Hc0. injection Hc0 as <-.
  split; [rewrite Htitle; by vm_compute|]. split; [exact Hpos|].
  rewrite Hticks. by vm_compute.
Defined.

(** X27 on an array of one plane with the single entry 300.0, which is
    shown as 1.0 in each of the three channels. *)
Lemma imshow_entries_clipped_witness :
  exists ax : Axes,
    imshow [[[PyFloat.of_Z 300]]] None = Ok ax /\
    shown ax = [[[one; one; one]]] /\
    SFltb one PyFloat.zero = false /\ SFltb one one = false.
Proof.
  eexists. split; [by vm_compute|]. split; [reflexivity|].
  apply (imshow_entries_clipped [[[PyFloat.of_Z 300]]] None
           (mkAxes [[[one; one; one]]] "Title") [[one; one; one]] [one; one; one] one).
  - by vm_compute.
  - apply list_elem_of_here.
  - apply list_elem_of_here.
  - apply list_elem_of_here.
Defined.
